(** * Forklift plan migration engine: a shallow embedding

    The development follows [pkg/controller/plan/migration.go] (the
    per-plan migration engine: [Run], [step], [begin], [end], [Cancel],
    [updateVM], [updateWarmStatus], [updatePipeline], [Predicate.Evaluate])
    and [pkg/controller/provider/web/vsphere/cluster.go] ([Cluster.With]).

    Go pointers to a VM status, a step or a task are modelled by the
    position of the object in the slice that owns it; an in-place update
    through the pointer is a list update at that position.  Calls that
    leave the process (inventory, builder, import operator, hook runner,
    scheduler, clock) are fields of an environment record [Env]. *)

From Stdlib Require Import ZArith String List Bool Lia.
From stdpp Require Import base option list strings gmap.

Local Open Scope string_scope.
Local Open Scope list_scope.
Local Open Scope Z_scope.

(** Wall-clock instants ([meta.Time]). *)
Definition Time := Z.

(** Go's [int64]: arithmetic wraps around modulo 2^64. *)
Definition wrap64 (z : Z) : Z := (z + 2 ^ 63) mod 2 ^ 64 - 2 ^ 63.

(* ===================================================================== *)
(** * Conditions ([github.com/konveyor/controller/pkg/condition]) *)
(* ===================================================================== *)

Module libcnd.

Definition True_ : string := "True".
Definition False_ : string := "False".
Definition Advisory : string := "Advisory".

(** Modelled from the spec: the condition library is a dependency absent
    from the sources.  A condition has a type, status, category, reason,
    message, durable flag and last-transition-time. *)
Record Condition := mkCondition {
  Type_ : string;
  Status : string;
  Reason : string;
  Category : string;
  Message : string;
  LastTransitionTime : Time;
  Durable : bool
}.

Definition Conditions := list Condition.

(** Modelled from the spec: the condition of a type, the first of that
    type in the collection; a collection built through [SetCondition]
    holds at most one per type. *)
Definition FindCondition (l : Conditions) (t : string) : option Condition :=
  List.find (fun c => String.eqb (Type_ c) t) l.

(** Modelled from the spec: a condition is "present" for [HasCondition]
    when it is found with status [True]; all the listed types are
    required and an empty list of types is never satisfied. *)
Definition HasCondition (l : Conditions) (types : list string) : bool :=
  forallb (fun t => match FindCondition l t with
                    | Some c => String.eqb (Status c) True_
                    | None => false
                    end) types
  && negb (Nat.eqb (length types) 0).

(** Modelled from the spec: any one of the listed types is present. *)
Definition HasAnyCondition (l : Conditions) (types : list string) : bool :=
  existsb (fun t => HasCondition l [t]) types.

(** Modelled from the spec: equality of two conditions up to the
    transition time. *)
Definition Equal (a b : Condition) : bool :=
  String.eqb (Type_ a) (Type_ b) && String.eqb (Status a) (Status b)
  && String.eqb (Category a) (Category b) && String.eqb (Reason a) (Reason b)
  && String.eqb (Message a) (Message b) && Bool.eqb (Durable a) (Durable b).

Definition stamp (now : Time) (c : Condition) : Condition :=
  mkCondition (Type_ c) (Status c) (Reason c) (Category c) (Message c) now (Durable c).

(** Modelled from the spec: an existing condition is overwritten, and its
    last-transition-time advanced, only when the new one differs from
    it. *)
Definition Update (now : Time) (old new : Condition) : Condition :=
  if Equal old new then old else stamp now new.

(** Modelled from the spec: attach a condition.  A condition of a type
    not yet present is appended with the current time; one already
    present is updated where it stands. *)
Fixpoint SetCondition (now : Time) (l : Conditions) (c : Condition) : Conditions :=
  match l with
  | [] => [stamp now c]
  | x :: tl =>
      if String.eqb (Type_ x) (Type_ c) then Update now x c :: tl
      else x :: SetCondition now tl c
  end.

(** Modelled from the spec: delete every condition of the listed types. *)
Definition DeleteCondition (l : Conditions) (types : list string) : Conditions :=
  fold_left (fun kept t => List.filter (fun c => negb (String.eqb (Type_ c) t)) kept)
            types l.

End libcnd.

(* ===================================================================== *)
(** * Itineraries ([github.com/konveyor/controller/pkg/itinerary]) *)
(* ===================================================================== *)

Module libitr.

(** A bit mask of predicate flags. *)
Definition Flag := Z.

Record Step := mkStep { Name : string; All : Flag; Any : Flag }.

Definition Pipeline := list Step.

Record Progress := mkProgress { Total : Z; Completed : Z }.

Record Itinerary := mkItinerary { ItName : string; ItPipeline : Pipeline }.

(** The zero value of [Step], what a failed lookup leaves in the result. *)
Definition zeroStep : Step := mkStep "" 0 0.

Section Driver.
  (** The predicate installed on the itinerary ([itinerary.Predicate]). *)
Variable Evaluate : Flag -> bool.
Variable it : Itinerary.

Definition flagBits : list Z := List.map Z.of_nat (List.seq 0 16).

  (** Modelled from the spec: an entry guarded by flags is admissible
      when the predicate holds of every flag of [All] and, if [Any] has
      flags, of one of them; an entry with no flag is always admissible. *)
Definition hasAll (s : Step) : bool :=
    forallb (fun i => negb (Z.testbit (All s) i) || Evaluate (Z.shiftl 1 i)) flagBits.

Definition hasAny (s : Step) : bool :=
    Z.eqb (Any s) 0
    || existsb (fun i => Z.testbit (Any s) i && Evaluate (Z.shiftl 1 i)) flagBits.

Definition admissible (s : Step) : bool := hasAll s && hasAny s.

  (** Modelled from the spec: [first(predicate)], the first admissible
      entry; [None] when there is none. *)
Definition First : option Step := List.find admissible (ItPipeline it).

  (** The entries that follow the entry called [name]; [None] when the
      itinerary has no entry of that name. *)
Fixpoint after (name : string) (l : Pipeline) : option Pipeline :=
    match l with
    | [] => None
    | s :: tl => if String.eqb (Name s) name then Some tl else after name tl
    end.

Inductive NextResult :=
  | NextStep (s : Step)      (* next admissible entry, done = false *)
  | NextDone                 (* the end is reached, done = true *)
  | NextErr.                 (* the phase name is not recognised *)

  (** Modelled from the spec: [next(phase, predicate)], the next
      admissible entry after [phase]; done when the end is reached; a
      failure only for a phase name the itinerary does not recognise. *)
Definition Next (name : string) : NextResult :=
    match after name (ItPipeline it) with
    | None => NextErr
    | Some tl => match List.find admissible tl with
                 | Some s => NextStep s
                 | None => NextDone
                 end
    end.
End Driver.

End libitr.

(* ===================================================================== *)
(** * Plan API types ([pkg/apis/forklift/v1beta1/plan]) *)
(* ===================================================================== *)

Module Timed.
(** Modelled from the spec: the started/completed pair of time stamps that
    a VM status, a step, a task and the migration carry ([plan.Timed], not
    among the sources), with its marks. *)
Record t := mk { Started : option Time; Completed : option Time }.

Definition zero : t := mk None None.

Definition MarkReset (_ : t) : t := mk None None.

(** Modelled from the spec: marking is idempotent and time-stamps the
    first transition only. *)
Definition MarkStarted (now : Time) (r : t) : t :=
  match Started r with
  | None => mk (Some now) (Completed r)
  | Some _ => r
  end.

(** Modelled from the spec: a completed span has been started; the
    completion is stamped once. *)
Definition MarkCompleted (now : Time) (r : t) : t :=
  let r := MarkStarted now r in
  match Completed r with
  | None => mk (Started r) (Some now)
  | Some _ => r
  end.

Definition MarkedStarted (r : t) : bool := bool_decide (is_Some (Started r)).
Definition MarkedCompleted (r : t) : bool := bool_decide (is_Some (Completed r)).

(** Modelled from the spec: running is started and not yet completed. *)
Definition Running (r : t) : bool := MarkedStarted r && negb (MarkedCompleted r).
End Timed.

Module Error.
(** Modelled from the spec: the error list of a VM, step or task
    ([plan.Error], read by the engine as [step.Error.Reasons]); a nil
    [*Error] is [None]. *)
Record t := mk { Reasons : list string }.

(** Modelled from the spec: appending errors. *)
Definition Add (e : t) (reason : list string) : t := mk (Reasons e ++ reason).

(** [AddError] of VM status, step and task: allocate the error on first
    use, then append. *)
Definition AddError (e : option t) (reason : list string) : option t :=
  Some (Add (default (mk []) e) reason).
End Error.

Module Task.
(** Modelled from the spec: a leaf work item, with the fields the engine
    reads and writes ([plan.Task]). *)
Record t := mk {
  Timed : Timed.t;
  Name : string;
  Description : string;
  Phase : string;
  Reason : string;
  Progress : libitr.Progress;
  Annotations : list (string * string);
  Error : option Error.t
}.

Definition set_Timed (x : Timed.t) (r : t) : t :=
  mk x (Name r) (Description r) (Phase r) (Reason r) (Progress r) (Annotations r) (Error r).
Definition set_Phase (x : string) (r : t) : t :=
  mk (Timed r) (Name r) (Description r) x (Reason r) (Progress r) (Annotations r) (Error r).
Definition set_Reason (x : string) (r : t) : t :=
  mk (Timed r) (Name r) (Description r) (Phase r) x (Progress r) (Annotations r) (Error r).
Definition set_Completed (x : Z) (r : t) : t :=
  mk (Timed r) (Name r) (Description r) (Phase r) (Reason r)
     (libitr.mkProgress (libitr.Total (Progress r)) x) (Annotations r) (Error r).
Definition set_Error (x : option Error.t) (r : t) : t :=
  mk (Timed r) (Name r) (Description r) (Phase r) (Reason r) (Progress r) (Annotations r) x.

Definition MarkStarted (now : Time) (r : t) : t := set_Timed (Timed.MarkStarted now (Timed r)) r.
Definition MarkCompleted (now : Time) (r : t) : t := set_Timed (Timed.MarkCompleted now (Timed r)) r.
Definition MarkedStarted (r : t) : bool := Timed.MarkedStarted (Timed r).
Definition MarkedCompleted (r : t) : bool := Timed.MarkedCompleted (Timed r).
Definition AddError (reason : list string) (r : t) : t :=
  set_Error (Error.AddError (Error r) reason) r.
End Task.

Module Step.
(** Modelled from the spec: a pipeline step, a task that may own sub-tasks
    ([plan.Step]). *)
Record t := mk { Task : Task.t; Tasks : list Task.t }.

Definition Name (r : t) : string := Task.Name (Task r).
Definition Phase (r : t) : string := Task.Phase (Task r).
Definition Error (r : t) : option Error.t := Task.Error (Task r).
Definition Progress (r : t) : libitr.Progress := Task.Progress (Task r).

Definition on_Task (f : Task.t -> Task.t) (r : t) : t := mk (f (Task r)) (Tasks r).
Definition set_Tasks (x : list Task.t) (r : t) : t := mk (Task r) x.
Definition set_Phase (x : string) : t -> t := on_Task (Task.set_Phase x).
Definition set_Completed (x : Z) : t -> t := on_Task (Task.set_Completed x).

Definition MarkStarted (now : Time) : t -> t := on_Task (Task.MarkStarted now).
Definition MarkCompleted (now : Time) : t -> t := on_Task (Task.MarkCompleted now).
Definition MarkedStarted (r : t) : bool := Task.MarkedStarted (Task r).
Definition MarkedCompleted (r : t) : bool := Task.MarkedCompleted (Task r).
Definition AddError (reason : list string) : t -> t := on_Task (Task.AddError reason).

(** Modelled from the spec: finding a task by name; the result is the
    position of the first task of that name, through which the caller
    updates the task in place. *)
Fixpoint findIndex (name : string) (l : list Task.t) : option nat :=
  match l with
  | [] => None
  | x :: tl => if String.eqb (Task.Name x) name then Some O
               else option_map S (findIndex name tl)
  end.

Definition FindTask (r : t) (name : string) : option (nat * Task.t) :=
  match findIndex name (Tasks r) with
  | Some i => option_map (fun x => (i, x)) (Tasks r !! i)
  | None => None
  end.

(** Modelled from the spec: reflect a step's aggregated progress up from
    its tasks.  With no task the step is left alone; otherwise its
    progress is the sum of its tasks', task errors are appended to the
    step's, the step is started once a task is, and completed once all
    its tasks are. *)
Definition ReflectTasks (now : Time) (r : t) : t :=
  match Tasks r with
  | [] => r
  | _ =>
      let completed :=
        fold_left (fun acc x => wrap64 (acc + libitr.Completed (Task.Progress x)))
                  (Tasks r) 0 in
      let r := fold_left (fun r x => match Task.Error x with
                                     | Some e => AddError (Error.Reasons e) r
                                     | None => r
                                     end) (Tasks r) r in
      let r := set_Completed completed r in
      let r := if existsb Task.MarkedStarted (Tasks r) then MarkStarted now r else r in
      if forallb Task.MarkedCompleted (Tasks r) then MarkCompleted now r else r
  end.
End Step.

Module Ref.
(** Modelled from the spec: a VM reference ([ref.Ref]), resolved in place
    by the inventory and matched by ID. *)
Record t := mk { ID : string; Name : string }.
End Ref.

Module VM.
Record HookRef := mkHookRef { HookStep : string; Hook : string }.

(** Modelled from the spec: a VM listed on the plan, with its optional
    hook bindings ([plan.VM]). *)
Record t := mk { Ref : Ref.t; Hooks : list HookRef }.

(** Modelled from the spec: the hook bound to a pipeline step, if any. *)
Definition FindHook (r : t) (step : string) : option HookRef :=
  List.find (fun h => String.eqb (HookStep h) step) (Hooks r).
End VM.

Module Warm.
(** Modelled from the spec: the warm substate of a VM, counts and pre-copy
    intervals ([plan.Warm], [plan.Precopy]). *)
Record Precopy := mkPrecopy { Start : option Time; End : option Time }.

Record t := mk {
  Successes : Z;
  Failures : Z;
  ConsecutiveFailures : Z;
  NextPrecopyAt : option Time;
  Precopies : list Precopy
}.
End Warm.

Module VMStatus.
(** Modelled from the spec: the per-VM execution state
    ([plan.VMStatus]). *)
Record t := mk {
  Timed : Timed.t;
  VM : VM.t;
  Pipeline : list Step.t;
  Phase : string;
  Error : option Error.t;
  Warm : option Warm.t;
  Conditions : libcnd.Conditions
}.

Definition Ref (r : t) : Ref.t := VM.Ref (VM r).
Definition ID (r : t) : string := Ref.ID (Ref r).

Definition set_Timed (x : Timed.t) (r : t) : t :=
  mk x (VM r) (Pipeline r) (Phase r) (Error r) (Warm r) (Conditions r).
Definition set_VM (x : VM.t) (r : t) : t :=
  mk (Timed r) x (Pipeline r) (Phase r) (Error r) (Warm r) (Conditions r).
Definition set_Pipeline (x : list Step.t) (r : t) : t :=
  mk (Timed r) (VM r) x (Phase r) (Error r) (Warm r) (Conditions r).
Definition set_Phase (x : string) (r : t) : t :=
  mk (Timed r) (VM r) (Pipeline r) x (Error r) (Warm r) (Conditions r).
Definition set_Error (x : option Error.t) (r : t) : t :=
  mk (Timed r) (VM r) (Pipeline r) (Phase r) x (Warm r) (Conditions r).
Definition set_Warm (x : option Warm.t) (r : t) : t :=
  mk (Timed r) (VM r) (Pipeline r) (Phase r) (Error r) x (Conditions r).
Definition set_Conditions (x : libcnd.Conditions) (r : t) : t :=
  mk (Timed r) (VM r) (Pipeline r) (Phase r) (Error r) (Warm r) x.

(** The zero status of a VM, [&plan.VMStatus{VM: vm}]. *)
Definition fresh (vm : VM.t) : t := mk Timed.zero vm [] "" None None [].

Definition MarkReset (r : t) : t := set_Timed (Timed.MarkReset (Timed r)) r.
Definition MarkStarted (now : Time) (r : t) : t := set_Timed (Timed.MarkStarted now (Timed r)) r.
Definition MarkCompleted (now : Time) (r : t) : t := set_Timed (Timed.MarkCompleted now (Timed r)) r.
Definition MarkedCompleted (r : t) : bool := Timed.MarkedCompleted (Timed r).
Definition Running (r : t) : bool := Timed.Running (Timed r).

Definition SetCondition (now : Time) (c : libcnd.Condition) (r : t) : t :=
  set_Conditions (libcnd.SetCondition now (Conditions r) c) r.
Definition DeleteCondition (types : list string) (r : t) : t :=
  set_Conditions (libcnd.DeleteCondition (Conditions r) types) r.
Definition HasCondition (r : t) (ty : string) : bool :=
  libcnd.HasCondition (Conditions r) [ty].
Definition HasAnyCondition (r : t) (types : list string) : bool :=
  libcnd.HasAnyCondition (Conditions r) types.

(** Modelled from the spec: finding a step by name (the first of that
    name). *)
Definition FindStep (r : t) (name : string) : option Step.t :=
  List.find (fun s => String.eqb (Step.Name s) name) (Pipeline r).

(** Modelled from the spec: appending errors to the VM's error list. *)
Definition AddError (reason : list string) (r : t) : t :=
  set_Error (Error.AddError (Error r) reason) r.

(** Modelled from the spec: reflect the pipeline upward.  The errors
    recorded on the steps are appended to the VM's aggregated error
    list, which is what lets a step failure end the VM.  The state of the
    VM is reflected up from its steps too; what its time stamps become is
    not in the sources and is left open: they are what [marks] makes of
    the VM. *)
Definition ReflectPipeline (marks : t -> Timed.t) (r : t) : t :=
  let r := fold_left (fun r s => match Step.Error s with
                                 | Some e => AddError (Error.Reasons e) r
                                 | None => r
                                 end) (Pipeline r) r in
  set_Timed (marks r) r.
End VMStatus.

Module Plan.
(** One execution attempt of a plan. *)
Record Snapshot := mkSnapshot { Conditions : libcnd.Conditions }.

(** Modelled from the spec: a plan has an active snapshot; older
    snapshots are immutable history. *)
Record MigrationStatus := mkMigrationStatus {
  Timed : Timed.t;
  Active : Snapshot;
  History : list Snapshot;
  VMs : list VMStatus.t
}.

Record t := mk { SpecVMs : list VM.t; Migration : MigrationStatus }.

Definition set_Migration (x : MigrationStatus) (p : t) : t := mk (SpecVMs p) x.
Definition set_VMs (x : list VMStatus.t) (p : t) : t :=
  set_Migration (mkMigrationStatus (Timed (Migration p)) (Active (Migration p))
                                   (History (Migration p)) x) p.
Definition set_Active (x : Snapshot) (p : t) : t :=
  set_Migration (mkMigrationStatus (Timed (Migration p)) x
                                   (History (Migration p)) (VMs (Migration p))) p.
Definition set_Timed (x : Timed.t) (p : t) : t :=
  set_Migration (mkMigrationStatus x (Active (Migration p))
                                   (History (Migration p)) (VMs (Migration p))) p.

(** Modelled from the spec: a snapshot records one execution attempt of
  the plan; a new attempt gets a fresh active snapshot and the previous
  one joins the history.  The VM statuses are carried over. *)
Definition NewSnapshot (p : t) : t :=
set_Migration (mkMigrationStatus (Timed (Migration p)) (mkSnapshot [])
                                 (History (Migration p) ++ [Active (Migration p)])
                                 (VMs (Migration p))) p.

Definition StatusVMs (p : t) : list VMStatus.t := VMs (Migration p).
Definition ActiveSnapshot (p : t) : Snapshot := Active (Migration p).

(** Modelled from the spec: VM references are matched by ID. *)
Definition SpecFindVM (p : t) (ref : Ref.t) : option VM.t :=
  List.find (fun vm => String.eqb (Ref.ID (VM.Ref vm)) (Ref.ID ref)) (SpecVMs p).

Fixpoint findIndex (id : string) (l : list VMStatus.t) : option nat :=
  match l with
  | [] => None
  | x :: tl => if String.eqb (VMStatus.ID x) id then Some O
               else option_map S (findIndex id tl)
  end.

(** Modelled from the spec: the status of a VM in a status list, matched
    by ID; [FindVM] returns the pointer held at the position found. *)
Definition StatusFindVM (l : list VMStatus.t) (ref : Ref.t) : option nat :=
  findIndex (Ref.ID ref) l.
End Plan.

(* ===================================================================== *)
(** * What the engine observes of its collaborators *)
(* ===================================================================== *)

Module Err.
(** Modelled from the spec: errors as the engine tells them apart, the
    transient provider-not-ready and the others; [errors.As] recognises
    [web.ProviderNotReadyError], also through [liberr.Wrap]. *)
Inductive t :=
| ProviderNotReady (msg : string)
| Other (msg : string).

Definition Error (e : t) : string :=
  match e with ProviderNotReady m => m | Other m => m end.

Definition isProviderNotReady (e : t) : bool :=
  match e with ProviderNotReady _ => true | Other _ => false end.

(** [liberr.Wrap] keeps the cause. *)
Definition Wrap (e : t) : t := e.
End Err.

Module vmio.
(** Condition and reason names of the import operator
    ([kubevirt.io/vm-import-operator]), the public contract with it. *)
Definition Processing : string := "Processing".
Definition Pending : string := "Pending".
Definition CopyingStage : string := "CopyingStage".
Definition CopyingPaused : string := "CopyingPaused".
Definition ConvertingGuest : string := "ConvertingGuest".
End vmio.

(** Modelled from the spec: an observed data volume of an import, with
    its conditions ([Bound], [Running], [Ready]); the type is declared
    with the import reconciler, not among the sources. *)
Record DataVolume := mkDataVolume {
  DvName : string;
  DvConditions : libcnd.Conditions
}.

(** Modelled from the spec: the counts of a warm import (successes,
    failures, consecutive failures, next pre-copy time). *)
Record WarmImportStatus := mkWarmImportStatus {
  WiSuccesses : Z;
  WiFailures : Z;
  WiConsecutiveFailures : Z;
  WiNextStageTime : option Time
}.

(** Modelled from the spec: an observed import custom resource
    ([VmImport], declared with the import reconciler): whether it is warm,
    its warm counts, its conditions ([Processing], [Succeeded]) and its
    data volumes. *)
Record VmImport := mkVmImport {
  ImpWarm : bool;                       (* imp.Spec.Warm *)
  ImpWarmImport : WarmImportStatus;     (* imp.Status.WarmImport *)
  ImpConditions : libcnd.Conditions;    (* imp.Conditions() *)
  DataVolumes : list DataVolume
}.

(** The collaborators of one reconcile, as the engine sees them. *)
Record Env := mkEnv {
  (** the clock read by the time stamps *)
  now : Time;
  (** [Migration.Spec.Cancel] *)
  Cancel_refs : list Ref.t;
  (** [Source.Provider.Type()] *)
  ProviderType : string;
  (** [Source.Inventory.VM(ref)]: the ref resolved in place, or an error *)
  InventoryVM : Ref.t -> Ref.t + Err.t;
  (** [adapter.New], [adapter.Builder] and [scheduler.New] of [init] *)
  Init : option Err.t;
  EnsureNamespace : option Err.t;
  EnsureImport : VMStatus.t -> option Err.t;
  DeleteImport : VMStatus.t -> option Err.t;
  (** [kubevirt.ImportMap()], keyed by VM identifier *)
  ImportMap : gmap string VmImport + Err.t;
  (** [builder.Tasks(ref)] *)
  BuilderTasks : Ref.t -> list Task.t + Err.t;
  ResolveDataVolumeIdentifier : DataVolume -> string;
  (** [HookRunner.Run(vm)]: the pipeline as the runner leaves it *)
  HookRun : VMStatus.t -> list Step.t * option Err.t;
  (** [scheduler.Next()]: the position of the admitted VM, if any *)
  SchedulerNext : list VMStatus.t -> option nat + Err.t;
  (** [int64(dv.PercentComplete() * float64(total))] *)
  DvCompleted : DataVolume -> Z -> Z;
  (** [int64(imp.PercentComplete() * float64(total))] *)
  ImpCompleted : VmImport -> Z -> Z;
  (** the time stamps of a VM as [vm.ReflectPipeline()] leaves them *)
  ReflectTimed : VMStatus.t -> Timed.t
}.

(* ===================================================================== *)
(** * The migration engine ([pkg/controller/plan/migration.go]) *)
(* ===================================================================== *)

(** Predicates. *)
Definition HasPreHook : libitr.Flag := 0x01.
Definition HasPostHook : libitr.Flag := 0x02.

(** Phases. *)
Definition Started : string := "Started".
Definition PreHook : string := "PreHook".
Definition CreateImport : string := "CreateImport".
Definition ImportCreated : string := "ImportCreated".
Definition PostHook : string := "PostHook".
Definition Completed : string := "Completed".

(** Steps. *)
Definition DiskTransfer : string := "DiskTransfer".
Definition ImageConversion : string := "ImageConversion".

(** Modelled from the spec: the condition types, step phases and reasons
    of the plan controller and the vSphere provider type, constants
    declared beside the engine and not among the sources. *)
Definition Executing : string := "Executing".
Definition Succeeded : string := "Succeeded".
Definition Failed : string := "Failed".
Definition Canceled : string := "Canceled".
Definition Pending : string := "Pending".
Definition Paused : string := "Paused".
Definition Running : string := "Running".
Definition Blocked : string := "Blocked".
Definition UserRequested : string := "UserRequested".
Definition VSphere : string := "vsphere".

Definition itinerary : libitr.Itinerary :=
  libitr.mkItinerary ""
    [ libitr.mkStep Started 0 0;
      libitr.mkStep PreHook HasPreHook 0;
      libitr.mkStep CreateImport 0 0;
      libitr.mkStep ImportCreated 0 0;
      libitr.mkStep PostHook HasPostHook 0;
      libitr.mkStep Completed 0 0 ].

(** Evaluate predicate flags ([Predicate.Evaluate]). *)
Definition Evaluate (vm : VM.t) (flag : libitr.Flag) : bool :=
  if Nat.eqb (length (VM.Hooks vm)) 0 then false
  else if Z.eqb flag HasPreHook then bool_decide (is_Some (VM.FindHook vm PreHook))
  else if Z.eqb flag HasPostHook then bool_decide (is_Some (VM.FindHook vm PostHook))
  else false.

(** Next step in the itinerary ([Migration.next]); the predicate is the
    one [step] installed for the VM. *)
Definition next (vm : VM.t) (phase : string) : string :=
  match libitr.Next (Evaluate vm) itinerary phase with
  | libitr.NextStep s => libitr.Name s
  | libitr.NextDone | libitr.NextErr => Completed
  end.

(** A durable advisory condition with status True. *)
Definition durable (ty reason msg : string) : libcnd.Condition :=
  libcnd.mkCondition ty libcnd.True_ reason libcnd.Advisory msg 0 true.

(** A non-durable advisory condition with status True. *)
Definition advisory (ty msg : string) : libcnd.Condition :=
  libcnd.mkCondition ty libcnd.True_ "" libcnd.Advisory msg 0 false.

(** Modelled from the spec: a VM is canceled when its ref is in
    [migration.spec.cancel], matched by ID. *)
Definition Canceled_ref (cancel : list Ref.t) (ref : Ref.t) : bool :=
  existsb (fun r => String.eqb (Ref.ID r) (Ref.ID ref)) cancel.

(** ** Status derivation *)

(** The counters of the [DiskTransfer] case of [updatePipeline]. *)
Record Tally := mkTally { tasksBlocked : nat; tasksCompleted : nat; tasksRunning : nat }.

(** Store a task back at the position [FindTask] found it. *)
Definition putTask (i : nat) (task : Task.t) (step : Step.t) : Step.t :=
  Step.set_Tasks (<[i := task]> (Step.Tasks step)) step.

(** [cnd != nil && cnd.Status == False] for the condition "Bound". *)
Definition boundFalse (conditions : libcnd.Conditions) : option libcnd.Condition :=
  match libcnd.FindCondition conditions "Bound" with
  | Some cnd => if String.eqb (libcnd.Status cnd) libcnd.False_ then Some cnd else None
  | None => None
  end.

(** One iteration of the [nextDv] loop. *)
Definition updateDv (e : Env) (acc : Step.t * Tally) (dv : DataVolume) : Step.t * Tally :=
  let '(step, n) := acc in
  let name := ResolveDataVolumeIdentifier e dv in
  match Step.FindTask step name with
  | None => acc
  | Some (i, task) =>
      let conditions := DvConditions dv in
      match boundFalse conditions with
      | Some cnd =>
          let task := Task.set_Phase Blocked task in
          let task := Task.set_Reason (libcnd.Reason cnd) task in
          (putTask i task step,
           mkTally (S (tasksBlocked n)) (tasksCompleted n) (tasksRunning n))
      | None =>
          match libcnd.FindCondition conditions "Running" with
          | None => acc
          | Some cnd =>
              let task := Task.MarkStarted (now e) task in
              let task := Task.set_Phase Running task in
              let task := Task.set_Reason (libcnd.Reason cnd) task in
              let task :=
                Task.set_Completed
                  (DvCompleted e dv (libitr.Total (Task.Progress task))) task in
              if libcnd.HasCondition conditions ["Ready"] then
                let task := Task.set_Completed (libitr.Total (Task.Progress task)) task in
                let task := Task.MarkCompleted (now e) task in
                (putTask i task step,
                 mkTally (tasksBlocked n) (S (tasksCompleted n)) (S (tasksRunning n)))
              else
                (putTask i task step,
                 mkTally (tasksBlocked n) (tasksCompleted n) (S (tasksRunning n)))
          end
      end
  end.

(** The [DiskTransfer] case: the loop over the observed data volumes,
    then the aggregate phase of the step. *)
Definition updateDiskTransfer (e : Env) (imp : VmImport) (step : Step.t) : Step.t :=
  let '(step, n) := fold_left (updateDv e) (DataVolumes imp) (step, mkTally 0 0 0) in
  if Nat.eqb (tasksCompleted n) (length (Step.Tasks step)) then Step.set_Phase Completed step
  else if Nat.ltb 0 (tasksBlocked n) then Step.set_Phase Blocked step
  else if Nat.ltb 0 (tasksRunning n) then Step.set_Phase Running step
  else step.

(** The [ImageConversion] case; it also sets conditions on the VM. *)
Definition updateImageConversion (e : Env) (imp : VmImport) (vm : VMStatus.t) (step : Step.t)
  : VMStatus.t * Step.t :=
  let conditions := ImpConditions imp in
  let '(vm, step) :=
    match libcnd.FindCondition conditions "Processing" with
    | Some cnd =>
        let '(vm, step) :=
          if String.eqb (libcnd.Reason cnd) vmio.Pending then
            (VMStatus.SetCondition (now e)
               (advisory Pending "The VM migration is PENDING.") vm, step)
          else if String.eqb (libcnd.Reason cnd) vmio.CopyingPaused then
            (VMStatus.SetCondition (now e)
               (advisory Paused "The VM migration is PAUSED.") vm, step)
          else if String.eqb (libcnd.Reason cnd) vmio.ConvertingGuest then
            (vm, if String.eqb (libcnd.Status cnd) libcnd.True_
                 then Step.MarkStarted (now e) step else step)
          else (vm, step) in
        (vm, if Step.MarkedStarted step then Step.set_Phase (libcnd.Reason cnd) step else step)
    | None => (vm, step)
    end in
  let step := Step.set_Completed (ImpCompleted e imp (libitr.Total (Step.Progress step))) step in
  match libcnd.FindCondition conditions "Succeeded" with
  | Some cnd =>
      let step := Step.MarkCompleted (now e) step in
      let step := Step.set_Completed (libitr.Total (Step.Progress step)) step in
      if negb (String.eqb (libcnd.Status cnd) libcnd.True_) then
        let step := Step.AddError [libcnd.Message cnd] step in
        (vm, Step.set_Phase (libcnd.Reason cnd) step)
      else (vm, Step.set_Phase Completed step)
  | None => (vm, step)
  end.

(** The body of the loop of [updatePipeline] for one step. *)
Definition updateStep (e : Env) (imp : VmImport) (vm : VMStatus.t) (step : Step.t)
  : VMStatus.t * Step.t :=
  if Step.MarkedCompleted step then (vm, step)
  else
    let '(vm, step) :=
      if String.eqb (Step.Name step) DiskTransfer then (vm, updateDiskTransfer e imp step)
      else if String.eqb (Step.Name step) ImageConversion then
        updateImageConversion e imp vm step
      else (vm, step) in
    let step := Step.ReflectTasks (now e) step in
    match Step.Error step with
    | Some err => (VMStatus.AddError (Error.Reasons err) vm, step)
    | None => (vm, step)
    end.

(** Update the pipeline ([Migration.updatePipeline]).  The steps are
    updated where they stand; conditions and errors accumulate on the VM. *)
Definition updatePipeline (e : Env) (vm : VMStatus.t) (imp : VmImport) : VMStatus.t :=
  let '(vm, steps) :=
    fold_left (fun '(vm, done) step =>
                 let '(vm, step) := updateStep e imp vm step in (vm, done ++ [step]))
              (VMStatus.Pipeline vm) (vm, []) in
  VMStatus.set_Pipeline steps vm.

(** The list of pre-copy intervals after one observation of the
    [Processing] condition. *)
Definition updatePrecopies (cnd : libcnd.Condition) (l : list Warm.Precopy)
  : list Warm.Precopy :=
  if String.eqb (libcnd.Reason cnd) vmio.CopyingStage then
    match last l with
    | None => l ++ [Warm.mkPrecopy (Some (libcnd.LastTransitionTime cnd)) None]
    | Some p =>
        match Warm.End p with
        | Some _ => l ++ [Warm.mkPrecopy (Some (libcnd.LastTransitionTime cnd)) None]
        | None => l
        end
    end
  else if String.eqb (libcnd.Reason cnd) vmio.CopyingPaused then
    match last l with
    | Some p =>
        match Warm.End p with
        | None =>
            <[Nat.pred (length l) :=
                Warm.mkPrecopy (Warm.Start p) (Some (libcnd.LastTransitionTime cnd))]> l
        | Some _ => l
        end
    | None => l
    end
  else l.

Definition updateWarmStatus (vm : VMStatus.t) (imp : VmImport) : VMStatus.t :=
  let warm := default (Warm.mk 0 0 0 None []) (VMStatus.Warm vm) in
  let wi := ImpWarmImport imp in
  let precopies :=
    match libcnd.FindCondition (ImpConditions imp) vmio.Processing with
    | Some cnd => updatePrecopies cnd (Warm.Precopies warm)
    | None => Warm.Precopies warm
    end in
  VMStatus.set_Warm
    (Some (Warm.mk (WiSuccesses wi) (WiFailures wi) (WiConsecutiveFailures wi)
                   (WiNextStageTime wi) precopies)) vm.

(** Update VM migration status ([Migration.updateVM]). *)
Definition updateVM (e : Env) (vm : VMStatus.t) : VMStatus.t * option Err.t :=
  match ImportMap e with
  | inr err => (vm, Some (Err.Wrap err))
  | inl importMap =>
      match importMap !! VMStatus.ID vm with
      | None => (VMStatus.AddError ["Import CR not found."] vm, None)
      | Some imp =>
          let vm := updatePipeline e vm imp in
          let vm := if ImpWarm imp then updateWarmStatus vm imp else vm in
          (vm, None)
      end
  end.

(** ** Stepping a VM *)

(** How the [switch] of [step] is left: by falling out of it ([break] or
    the end of a case), or by returning from [step] with an error. *)
Inductive Flow :=
| Fallthrough
| Return (err : Err.t).

(** [EnsureImport] and what [step] makes of its error, common to the
    cases [CreateImport] and [ImportCreated]: [None] when the import is
    ensured, else the VM and how the switch is left. *)
Definition ensureImport (e : Env) (vm : VMStatus.t) : option (VMStatus.t * Flow) :=
  match EnsureImport e vm with
  | None => None
  | Some err =>
      if negb (Err.isProviderNotReady err)
      then Some (VMStatus.AddError [Err.Error err] vm, Fallthrough)
      else Some (vm, Return err)
  end.

(** The phase after [ImportCreated], decided on a completed step. *)
Definition afterStep (vm : VMStatus.t) (step : Step.t) : VMStatus.t :=
  if Step.MarkedCompleted step then
    match Step.Error step with
    | None => VMStatus.set_Phase (next (VMStatus.VM vm) (VMStatus.Phase vm)) vm
    | Some _ => VMStatus.set_Phase Completed vm
    end
  else vm.

(** The [switch vm.Phase] of [step]. *)
Definition dispatch (e : Env) (vm : VMStatus.t) : VMStatus.t * Flow :=
  let phase := VMStatus.Phase vm in
  if String.eqb phase Started then
    let vm := VMStatus.MarkStarted (now e) vm in
    (VMStatus.set_Phase (next (VMStatus.VM vm) (VMStatus.Phase vm)) vm, Fallthrough)
  else if String.eqb phase PreHook || String.eqb phase PostHook then
    match HookRun e vm with
    | (pipeline, Some err) => (VMStatus.set_Pipeline pipeline vm, Return err)
    | (pipeline, None) =>
        let vm := VMStatus.set_Pipeline pipeline vm in
        match VMStatus.FindStep vm (VMStatus.Phase vm) with
        | Some step =>
            if Step.MarkedCompleted step && negb (bool_decide (is_Some (Step.Error step)))
            then (VMStatus.set_Phase (next (VMStatus.VM vm) (VMStatus.Phase vm)) vm, Fallthrough)
            else (vm, Fallthrough)
        | None => (VMStatus.set_Phase Completed vm, Fallthrough)
        end
    end
  else if String.eqb phase CreateImport then
    match ensureImport e vm with
    | Some out => out
    | None => (VMStatus.set_Phase (next (VMStatus.VM vm) (VMStatus.Phase vm)) vm, Fallthrough)
    end
  else if String.eqb phase ImportCreated then
    match ensureImport e vm with
    | Some out => out
    | None =>
        match updateVM e vm with
        | (vm, Some rErr) => (vm, Return (Err.Wrap rErr))
        | (vm, None) =>
            match VMStatus.FindStep vm ImageConversion with
            | Some step => (afterStep vm step, Fallthrough)
            | None =>
                match VMStatus.FindStep vm DiskTransfer with
                | Some step => (afterStep vm step, Fallthrough)
                | None => (vm, Fallthrough)
                end
            end
        end
    end
  else if String.eqb phase Completed then
    (VMStatus.MarkCompleted (now e) vm, Fallthrough)
  else
    let vm := VMStatus.set_Phase Completed vm in
    (VMStatus.AddError ["Phase [" +:+ VMStatus.Phase vm +:+ "] unknown"] vm, Fallthrough).

(** What [step] does after the switch: reflect the pipeline, then stamp
    the outcome. *)
Definition conclude (e : Env) (vm : VMStatus.t) : VMStatus.t :=
  let vm := VMStatus.ReflectPipeline (ReflectTimed e) vm in
  match VMStatus.Error vm with
  | None =>
      if String.eqb (VMStatus.Phase vm) Completed then
        VMStatus.SetCondition (now e)
          (durable Succeeded "" "The VM migration has SUCCEEDED.") vm
      else vm
  | Some _ =>
      let vm := VMStatus.set_Phase Completed vm in
      VMStatus.SetCondition (now e) (durable Failed "" "The VM migration has FAILED.") vm
  end.

(** Steps a VM through the migration itinerary and updates its status
    ([Migration.step]). *)
Definition step (e : Env) (vm : VMStatus.t) : VMStatus.t * option Err.t :=
  if Canceled_ref (Cancel_refs e) (VMStatus.Ref vm) then
    let vm := VMStatus.SetCondition (now e)
                (durable Canceled UserRequested "The migration has been canceled.") vm in
    (VMStatus.set_Phase Completed vm, None)
  else
    match dispatch e vm with
    | (vm, Return err) => (vm, Some err)
    | (vm, Fallthrough) => (conclude e vm, None)
    end.

(** ** Building the pipeline *)

Definition unitStep (name description : string) : Step.t :=
  Step.mk (Task.mk Timed.zero name description "" "" (libitr.mkProgress 1 0) [] None) [].

(** What one turn of the loop of [buildPipeline] appends for the
    itinerary entry [name]. *)
Definition buildEntry (e : Env) (vm : VM.t) (name : string) (pipeline : list Step.t)
  : list Step.t + Err.t :=
  if String.eqb name PreHook then
    inl (pipeline ++ [unitStep PreHook "Run pre-migration hook."])
  else if String.eqb name CreateImport then
    match BuilderTasks e (VM.Ref vm) with
    | inr pErr => inr (Err.Wrap pErr)
    | inl tasks =>
        let total :=
          fold_left (fun total task => wrap64 (total + libitr.Total (Task.Progress task)))
                    tasks 0 in
        let pipeline :=
          pipeline ++
          [Step.mk (Task.mk Timed.zero DiskTransfer "Transfer disks." "" ""
                            (libitr.mkProgress total 0) [("unit", "MB")] None) tasks] in
        if String.eqb (ProviderType e) VSphere then
          inl (pipeline ++ [unitStep ImageConversion "Convert image to kubevirt."])
        else inl pipeline
    end
  else if String.eqb name PostHook then
    inl (pipeline ++ [unitStep PostHook "Run post-migration hook."])
  else inl pipeline.

(** The [for] loop of [buildPipeline], with the turns left to it: [None]
    when they run out before the loop breaks. *)
Fixpoint buildLoop (turns : nat) (e : Env) (vm : VM.t) (step : libitr.Step)
  (pipeline : list Step.t) : option (list Step.t * option Err.t) :=
  match turns with
  | O => None
  | S turns =>
      match buildEntry e vm (libitr.Name step) pipeline with
      | inr err => Some (pipeline, Some err)
      | inl pipeline =>
          match libitr.Next (Evaluate vm) itinerary (libitr.Name step) with
          | libitr.NextStep nx => buildLoop turns e vm nx pipeline
          | libitr.NextErr => buildLoop turns e vm libitr.zeroStep pipeline
          | libitr.NextDone => Some (pipeline, None)
          end
      end
  end.

(** Build the pipeline for a VM status ([Migration.buildPipeline]). *)
Definition buildPipeline (e : Env) (vm : VM.t) : option (list Step.t * option Err.t) :=
  let step := default libitr.zeroStep (libitr.First (Evaluate vm) itinerary) in
  buildLoop (S (length (libitr.ItPipeline itinerary))) e vm step [].

(** ** Cancel *)

(** The loop of [Cancel] over the VM statuses: the statuses, the VMs
    whose import was asked to be deleted, and the error that stopped it. *)
Fixpoint cancelVMs (e : Env) (l : list VMStatus.t)
  : list VMStatus.t * list string * option Err.t :=
  match l with
  | [] => ([], [], None)
  | vm :: tl =>
      if VMStatus.HasAnyCondition vm [Canceled; Failed] then
        match DeleteImport e vm with
        | Some err => (vm :: tl, [VMStatus.ID vm], Some (Err.Wrap err))
        | None =>
            let vm := VMStatus.MarkCompleted (now e) vm in
            let vm :=
              VMStatus.set_Pipeline
                (List.map (fun step => if Step.MarkedStarted step
                                       then Step.MarkCompleted (now e) step else step)
                          (VMStatus.Pipeline vm)) vm in
            let '(tl, deleted, err) := cancelVMs e tl in
            (vm :: tl, VMStatus.ID vm :: deleted, err)
        end
      else
        let '(tl, deleted, err) := cancelVMs e tl in (vm :: tl, deleted, err)
  end.

(** Cancel the migration ([Migration.Cancel]): delete resources
    associated with VMs that have failed or been marked canceled. *)
Definition Cancel (e : Env) (p : Plan.t) : Plan.t * list string * option Err.t :=
  match Init e with
  | Some err => (p, [], Some (Err.Wrap err))
  | None =>
      let '(vms, deleted, err) := cancelVMs e (Plan.StatusVMs p) in
      (Plan.set_VMs vms p, deleted, err)
  end.

(** Best effort attempt to resolve canceled refs
    ([Migration.resolveCanceledRefs]). *)
Definition resolveCanceledRefs (e : Env) : list Ref.t :=
  List.map (fun ref => match InventoryVM e ref with inl r => r | inr _ => ref end)
           (Cancel_refs e).

(** Positions of the running VMs ([Migration.runningVMs]). *)
Definition runningVMs (p : Plan.t) : list nat :=
  List.filter (fun i => match Plan.StatusVMs p !! i with
                        | Some vm => VMStatus.Running vm
                        | None => false
                        end)
              (List.seq 0 (length (Plan.StatusVMs p))).

(** ** Begin *)

Definition set_Ref (ref : Ref.t) (s : VMStatus.t) : VMStatus.t :=
  VMStatus.set_VM (VM.mk ref (VM.Hooks (VMStatus.VM s))) s.

(** The first loop of [begin] resolves the ref of every status in place
    and stops at the first inventory error. *)
Fixpoint resolveRefs (e : Env) (l : list VMStatus.t) : list VMStatus.t * option Err.t :=
  match l with
  | [] => ([], None)
  | status :: tl =>
      match InventoryVM e (VMStatus.Ref status) with
      | inr err => (status :: tl, Some (Err.Wrap err))
      | inl ref =>
          let '(tl, err) := resolveRefs e tl in (set_Ref ref status :: tl, err)
      end
  end.

(** An entry of the list [begin] builds: the status kept at a position of
    the plan's list (shared with it), or a status made for the VM. *)
Inductive Slot :=
| Kept (i : nat)
| New (status : VMStatus.t).

Definition slotStatus (kept : list VMStatus.t) (s : Slot) : option VMStatus.t :=
  match s with
  | Kept i => kept !! i
  | New status => Some status
  end.

Definition putSlot (kept : list VMStatus.t) (s : Slot) (status : VMStatus.t)
  : list VMStatus.t * Slot :=
  match s with
  | Kept i => (<[i := status]> kept, Kept i)
  | New _ => (kept, New status)
  end.

(** The reset of a status in the second loop of [begin]. *)
Definition resetStatus (pipeline : list Step.t) (phase : string) (status : VMStatus.t)
  : VMStatus.t :=
  let status := VMStatus.DeleteCondition [Canceled; Failed] status in
  let status := VMStatus.MarkReset status in
  let status := VMStatus.set_Pipeline pipeline status in
  let status := VMStatus.set_Phase phase status in
  let status := VMStatus.set_Error None status in
  VMStatus.set_Warm None status.

(** One turn of the second loop of [begin], for the VM [vm] of the plan.
    The statuses kept from the previous run are updated where they are. *)
Definition beginVM (e : Env) (kept : list VMStatus.t) (vm : VM.t)
  : option (list VMStatus.t * (Slot + Err.t)) :=
  let step := default libitr.zeroStep (libitr.First (Evaluate vm) itinerary) in
  let slot := match Plan.StatusFindVM kept (VM.Ref vm) with
              | None => New (VMStatus.fresh vm)
              | Some i => Kept i
              end in
  match slotStatus kept slot with
  | None => Some (kept, inl slot)
  | Some status =>
      if negb (String.eqb (VMStatus.Phase status) Completed)
         || VMStatus.HasAnyCondition status [Canceled; Failed]
      then
        match buildPipeline e vm with
        | None => None
        | Some (_, Some pErr) => Some (kept, inr (Err.Wrap pErr))
        | Some (pipeline, None) =>
            let '(kept, slot) :=
              putSlot kept slot (resetStatus pipeline (libitr.Name step) status) in
            Some (kept, inl slot)
        end
      else Some (kept, inl slot)
  end.

(** The second loop of [begin]. *)
Fixpoint beginVMs (e : Env) (kept : list VMStatus.t) (vms : list VM.t) (added : list Slot)
  : option (list VMStatus.t * (list Slot + Err.t)) :=
  match vms with
  | [] => Some (kept, inl added)
  | vm :: vms =>
      match beginVM e kept vm with
      | None => None
      | Some (kept, inr err) => Some (kept, inr err)
      | Some (kept, inl slot) => beginVMs e kept vms (added ++ [slot])
      end
  end.

(** Begin the migration ([Migration.begin]).  [None] only if
    [buildPipeline] did not come to an end. *)
Definition begin (e : Env) (p : Plan.t) : option (Plan.t * option Err.t) :=
  let snapshot := Plan.ActiveSnapshot p in
  if libcnd.HasAnyCondition (Plan.Conditions snapshot) [Executing; Succeeded; Failed; Canceled]
  then Some (p, None)
  else
    let p := Plan.set_Timed (Timed.MarkReset (Plan.Timed (Plan.Migration p))) p in
    let p := Plan.set_Timed (Timed.MarkStarted (now e) (Plan.Timed (Plan.Migration p))) p in
    let p :=
      Plan.set_Active
        (Plan.mkSnapshot
           (libcnd.SetCondition (now e) (Plan.Conditions snapshot)
                                (durable Executing "" "The plan is EXECUTING."))) p in
    match EnsureNamespace e with
    | Some err => Some (p, Some (Err.Wrap err))
    | None =>
        match resolveRefs e (Plan.StatusVMs p) with
        | (vms, Some err) => Some (Plan.set_VMs vms p, Some err)
        | (vms, None) =>
            let kept :=
              List.filter (fun status =>
                             bool_decide (is_Some (Plan.SpecFindVM p (VMStatus.Ref status))))
                          vms in
            match beginVMs e kept (Plan.SpecVMs p) [] with
            | None => None
            | Some (kept, inr err) => Some (Plan.set_VMs kept p, Some err)
            | Some (kept, inl added) =>
                Some (Plan.set_VMs (omap (slotStatus kept) added) p, None)
            end
        end
    end.

(** ** End *)

Definition countCondition (ty : string) (vms : list VMStatus.t) : nat :=
  length (List.filter (fun vm => VMStatus.HasCondition vm ty) vms).

(** End the migration ([Migration.end]): the plan, [completed], the VMs
    whose import [Cancel] asked to delete, and the error. *)
Definition end_ (e : Env) (p : Plan.t) : Plan.t * bool * list string * option Err.t :=
  if negb (forallb VMStatus.MarkedCompleted (Plan.StatusVMs p)) then (p, false, [], None)
  else
    let failed := countCondition Failed (Plan.StatusVMs p) in
    let succeeded := countCondition Succeeded (Plan.StatusVMs p) in
    let p := Plan.set_Timed (Timed.MarkCompleted (now e) (Plan.Timed (Plan.Migration p))) p in
    let conditions :=
      libcnd.DeleteCondition (Plan.Conditions (Plan.ActiveSnapshot p)) [Executing] in
    if Nat.ltb 0 failed then
      let p :=
        Plan.set_Active
          (Plan.mkSnapshot
             (libcnd.SetCondition (now e) conditions
                                  (durable Failed "" "The plan execution has FAILED."))) p in
      let '(p, deleted, err) := Cancel e p in
      (p, true, deleted, option_map Err.Wrap err)
    else if Nat.ltb 0 succeeded then
      (Plan.set_Active
         (Plan.mkSnapshot
            (libcnd.SetCondition (now e) conditions
                                 (durable Succeeded "" "The plan execution has SUCCEEDED."))) p,
       true, [], None)
    else
      (Plan.set_Active
         (Plan.mkSnapshot
            (libcnd.SetCondition (now e) conditions
                                 (durable Canceled "" "The plan execution has been CANCELED."))) p,
       true, [], None).

(** ** Run *)

(** Requeue delays, in nanoseconds ([time.Duration]). *)
Definition NoReQ : Z := 0.
Definition PollReQ : Z := 1000000000 * 3.

Definition set_Cancel_refs (refs : list Ref.t) (e : Env) : Env :=
  mkEnv (now e) refs (ProviderType e) (InventoryVM e) (Init e) (EnsureNamespace e)
        (EnsureImport e) (DeleteImport e) (ImportMap e) (BuilderTasks e)
        (ResolveDataVolumeIdentifier e) (HookRun e) (SchedulerNext e)
        (DvCompleted e) (ImpCompleted e) (ReflectTimed e).

(** [step] through the pointer held at position [i] of the plan's list. *)
Definition stepAt (e : Env) (p : Plan.t) (i : nat) : Plan.t * option Err.t :=
  match Plan.StatusVMs p !! i with
  | Some vm =>
      let '(vm, err) := step e vm in
      (Plan.set_VMs (<[i := vm]> (Plan.StatusVMs p)) p, err)
  | None => (p, None)
  end.

(** The loop of [Run] over the running VMs; it stops at the first error. *)
Fixpoint stepAll (e : Env) (p : Plan.t) (l : list nat) : Plan.t * option Err.t :=
  match l with
  | [] => (p, None)
  | i :: tl =>
      match stepAt e p i with
      | (p, Some err) => (p, Some err)
      | (p, None) => stepAll e p tl
      end
  end.

(** Run the migration ([Migration.Run]): the plan, the requeue delay and
    the error.  [None] only if [begin] did not come to an end. *)
Definition Run (e : Env) (p : Plan.t) : option (Plan.t * Z * option Err.t) :=
  match Init e with
  | Some err => Some (p, PollReQ, Some (Err.Wrap err))
  | None =>
      match begin e p with
      | None => None
      | Some (p, Some err) => Some (p, PollReQ, Some (Err.Wrap err))
      | Some (p, None) =>
          let e := set_Cancel_refs (resolveCanceledRefs e) e in
          match stepAll e p (runningVMs p) with
          | (p, Some err) => Some (p, PollReQ, Some err)
          | (p, None) =>
              match SchedulerNext e (Plan.StatusVMs p) with
              | inr err => Some (p, PollReQ, Some err)
              | inl hasNext =>
                  match match hasNext with
                        | Some i => stepAt e p i
                        | None => (p, None)
                        end with
                  | (p, Some err) => Some (p, PollReQ, Some err)
                  | (p, None) =>
                      let '(p, completed, _, err) := end_ e p in
                      Some (p, if completed then NoReQ else PollReQ, err)
                  end
              end
          end
      end
  end.

(* ===================================================================== *)
(** * The vSphere inventory REST resource of a cluster
      ([pkg/controller/provider/web/vsphere/cluster.go]) *)
(* ===================================================================== *)

Module vsphere.

(** Inventory references ([base.Ref]). *)
Record Ref := mkRef { Kind : string; RefID : string }.

(** Base VMWare model ([model.Base]). *)
Record Base := mkBase { ID : string; Name : string; Parent : Ref; Revision : Z }.

Module model.
(** The inventory model of a cluster ([model.Cluster]). *)
Record Cluster := mkCluster {
  ClBase : Base;
  Folder : string;
  Hosts : list Ref;
  Networks : list Ref;
  Datastores : list Ref;
  DasEnabled : bool;
  DasVms : list Ref;
  DrsEnabled : bool;
  DrsBehavior : string;
  DrsVms : list Ref
}.

Definition set_DrsVms (x : list Ref) (m : Cluster) : Cluster :=
  mkCluster (ClBase m) (Folder m) (Hosts m) (Networks m) (Datastores m)
            (DasEnabled m) (DasVms m) (DrsEnabled m) (DrsBehavior m) x.
End model.

Section Web.
(** The REST resource base ([Resource]) and how it is built from the base
    of a model ([Resource.With]) are declared elsewhere in the package. *)
Variable Resource : Type.
Variable Resource_With : Resource -> Base -> Resource.

(** REST Resource. *)
Record Cluster := mkCluster {
  Res : Resource;
  Folder : string;
  Networks : list Ref;
  Datastores : list Ref;
  Hosts : list Ref;
  DasEnabled : bool;
  DasVms : list Ref;
  DrsEnabled : bool;
  DrsBehavior : string;
  DrsVms : list Ref
}.

(** Build the resource using the model ([Cluster.With]): every field is
    assigned once, in the order of the fields below but for [Folder],
    which is assigned first. *)
Definition With (r : Cluster) (m : model.Cluster) : Cluster :=
  mkCluster
    (Resource_With (Res r) (model.ClBase m))   (* r.Resource.With(&m.Base) *)
    (model.Folder m)                           (* r.Folder = m.Folder *)
    (model.Networks m)                         (* r.Networks = m.Networks *)
    (model.Datastores m)                       (* r.Datastores = m.Datastores *)
    (model.Hosts m)                            (* r.Hosts = m.Hosts *)
    (model.DasEnabled m)                       (* r.DasEnabled = m.DasEnabled *)
    (model.DasVms m)                           (* r.DasVms = m.DasVms *)
    (model.DrsEnabled m)                       (* r.DrsEnabled = m.DrsEnabled *)
    (model.DrsBehavior m)                      (* r.DrsBehavior = m.DrsBehavior *)
    (model.DasVms m).                          (* r.DrsVms = m.DasVms *)
End Web.

End vsphere.

(* ===================================================================== *)
(** * The vSphere inventory model
      ([pkg/controller/provider/model/vsphere/model.go]) *)
(* ===================================================================== *)

Module inventory.

(** The kinds of the inventory objects that [Path] tells apart
    ([FolderKind], [DatacenterKind], ...): constants declared beside the
    model and not among the sources, so the walk is given them. *)
Record Kinds := mkKinds {
  FolderKind : string;
  DatacenterKind : string;
  ClusterKind : string;
  HostKind : string;
  NetKind : string;
  DsKind : string
}.

(** [db.Get] of a model of the given kind whose primary key is the given
    ID: the base of the row found, or the error. *)
Definition DB := string -> string -> vsphere.Base + string.

(** [db.Get] of the parent and what the walk makes of it: the error, or
    the parts with the name of the parent appended and the parent as the
    next node. *)
Definition getParent (db : DB) (kind : string) (parent : vsphere.Ref) (parts : list string)
  : (vsphere.Base * list string) + string :=
  match db kind (vsphere.RefID parent) with
  | inr err => inr err
  | inl m => inl (m, parts ++ [vsphere.Name m])
  end.

(** The [Walk] loop of [Base.Path], with the hops left to it: [None] when
    they run out before the loop breaks or returns. *)
Fixpoint walk (K : Kinds) (hops : nat) (db : DB) (node : vsphere.Base) (parts : list string)
  : option (list string + string) :=
  match hops with
  | O => None
  | S hops =>
      let parent := vsphere.Parent node in
      let kind := vsphere.Kind parent in
      if String.eqb kind (FolderKind K) then
        match getParent db (FolderKind K) parent parts with
        | inr err => Some (inr err)
        | inl (f, parts) => walk K hops db f parts
        end
      else if String.eqb kind (DatacenterKind K) then
        match getParent db (DatacenterKind K) parent parts with
        | inr err => Some (inr err)
        | inl (_, parts) => Some (inl parts)
        end
      else if String.eqb kind (ClusterKind K) then
        match getParent db (ClusterKind K) parent parts with
        | inr err => Some (inr err)
        | inl (m, parts) => walk K hops db m parts
        end
      else if String.eqb kind (HostKind K) then
        match getParent db (HostKind K) parent parts with
        | inr err => Some (inr err)
        | inl (m, parts) => walk K hops db m parts
        end
      else if String.eqb kind (NetKind K) then
        match getParent db (NetKind K) parent parts with
        | inr err => Some (inr err)
        | inl (m, parts) => walk K hops db m parts
        end
      else if String.eqb kind (DsKind K) then
        match getParent db (DsKind K) parent parts with
        | inr err => Some (inr err)
        | inl (m, parts) => walk K hops db m parts
        end
      else Some (inl parts)
  end.

(** Determine object path ([Base.Path]): the names from the root down to
    the object, each after a slash. *)
Definition Path (K : Kinds) (hops : nat) (db : DB) (m : vsphere.Base)
  : option (string + string) :=
  match walk K hops db m [vsphere.Name m] with
  | None => None
  | Some (inr err) => Some (inr err)
  | Some (inl parts) => Some (inl (String.concat "/" ("" :: rev parts)))
  end.

(** The network of a host ([HostNetwork]) and its parts. *)
Record PNIC := mkPNIC { PnicKey : string; LinkSpeed : Z }.

Record VNIC := mkVNIC {
  VnicKey : string;
  VnicPortGroup : string;
  DPortGroup : string;
  IpAddress : string;
  SubnetMask : string;
  MTU : Z
}.

Record PortGroup := mkPortGroup { PgKey : string; PgName : string; PgSwitch : string }.

Record Switch_ := mkSwitch {
  SwKey : string;
  SwName : string;
  SwPortGroups : list string;
  SwPNICs : list string
}.

Record HostNetwork := mkHostNetwork {
  PNICs : list PNIC;
  VNICs : list VNIC;
  PortGroups : list PortGroup;
  Switches : list Switch_
}.

(** [HostNetwork.Switch]: the first switch of that key; [None] is
    [found = false]. *)
Definition Switch (n : HostNetwork) (key : string) : option Switch_ :=
  List.find (fun object => String.eqb key (SwKey object)) (Switches n).

(** [HostNetwork.PortGroup]: the first port group of that name. *)
Definition PortGroup_ (n : HostNetwork) (name : string) : option PortGroup :=
  List.find (fun object => String.eqb name (PgName object)) (PortGroups n).

(** [HostNetwork.PNIC]: the first physical NIC of that key. *)
Definition PNIC_ (n : HostNetwork) (key : string) : option PNIC :=
  List.find (fun object => String.eqb key (PnicKey object)) (PNICs n).

End inventory.

(* ===================================================================== *)
(** * Scenarios: concrete plans, VMs and collaborators *)
(* ===================================================================== *)

Module Scenario.

Definition ref1 : Ref.t := Ref.mk "vm-1" "web".
Definition vm1 : VM.t := VM.mk ref1 [].

(** One disk of 10 MB. *)
Definition disk1 : Task.t :=
  Task.mk Timed.zero "disk-1" "" "" "" (libitr.mkProgress 10 0) [] None.

Definition cnd (ty status reason : string) (at_ : Time) : libcnd.Condition :=
  libcnd.mkCondition ty status reason "" "" at_ false.

(** A data volume of the import, bound, running and ready. *)
Definition dvReady : DataVolume :=
  mkDataVolume "disk-1"
    [cnd "Bound" "True" "" 5; cnd "Running" "False" "Completed" 6; cnd "Ready" "True" "" 7].

(** A data volume reported ready with no [Running] condition. *)
Definition dvReadyOnly : DataVolume :=
  mkDataVolume "disk-1" [cnd "Ready" "True" "" 7].

(** The import of [vm1] once the operator is done with it. *)
Definition impDone : VmImport :=
  mkVmImport false (mkWarmImportStatus 0 0 0 None)
             [cnd "Succeeded" "True" "" 8] [dvReady].

(** A reflection of the pipeline that marks the VM as [ReflectTasks]
    marks a step: started once a step is, completed once all its steps
    are; with no step the VM is left alone. *)
Definition reflectTimed (now : Time) (vm : VMStatus.t) : Timed.t :=
  match VMStatus.Pipeline vm with
  | [] => VMStatus.Timed vm
  | _ =>
      let t := if existsb Step.MarkedStarted (VMStatus.Pipeline vm)
               then Timed.MarkStarted now (VMStatus.Timed vm) else VMStatus.Timed vm in
      if forallb Step.MarkedCompleted (VMStatus.Pipeline vm)
      then Timed.MarkCompleted now t else t
  end.

(** Collaborators that all answer, for a vSphere provider. *)
Definition env0 : Env :=
  mkEnv 100 [] VSphere (fun ref => inl ref) None None (fun _ => None) (fun _ => None)
        (inl {[ "vm-1" := impDone ]}) (fun _ => inl [disk1]) DvName
        (fun vm => (VMStatus.Pipeline vm, None)) (fun _ => inl None)
        (fun _ _ => 0) (fun _ _ => 0) (reflectTimed 100).

(** The same, with an import operator that refuses the import. *)
Definition envRefused : Env :=
  mkEnv 100 [] VSphere (fun ref => inl ref) None None
        (fun _ => Some (Err.Other "admission webhook denied the request"))
        (fun _ => None)
        (inl {[ "vm-1" := impDone ]}) (fun _ => inl [disk1]) DvName
        (fun vm => (VMStatus.Pipeline vm, None)) (fun _ => inl None)
        (fun _ _ => 0) (fun _ _ => 0) (reflectTimed 100).

(** The same as [env0], after the user canceled [vm1]. *)
Definition envCanceled : Env := set_Cancel_refs [ref1] env0.

(** A plan for [vm1] that was never executed. *)
Definition plan0 : Plan.t :=
  Plan.mk [vm1] (Plan.mkMigrationStatus Timed.zero (Plan.mkSnapshot []) [] []).

(** A status of [vm1] in a given phase, with nothing else recorded. *)
Definition inPhase (phase : string) : VMStatus.t :=
  VMStatus.mk Timed.zero vm1 [] phase None None [].

(** An import of a warm migration whose [Processing] condition has the
    given reason and last-transition-time. *)
Definition impWarm (reason : string) (at_ : Time) : VmImport :=
  mkVmImport true (mkWarmImportStatus 0 0 0 None) [cnd "Processing" "True" reason at_] [].

(** Two pre-copies, observed as they start and pause. *)
Definition warmImports : list VmImport :=
  [impWarm vmio.CopyingStage 1; impWarm vmio.CopyingPaused 2;
   impWarm vmio.CopyingStage 3; impWarm vmio.CopyingPaused 4].

(** A status of [vm1] that has run to completion, with one condition. *)
Definition doneWith (ty : string) : VMStatus.t :=
  VMStatus.mk (Timed.mk (Some 10) (Some 20)) vm1 [] Completed None None
              [cnd ty "True" "" 20].

(** A plan of three VMs that all completed: one succeeded, one failed, one
    was canceled; its snapshot is executing. *)
Definition planMixed : Plan.t :=
  Plan.mk [vm1]
    (Plan.mkMigrationStatus (Timed.mk (Some 1) None)
       (Plan.mkSnapshot [cnd Executing "True" "" 1]) []
       [doneWith Succeeded; doneWith Failed; doneWith Canceled]).

(** Collaborators as in [env0], but the destination namespace cannot be
    created. *)
Definition envNoNamespace : Env :=
  mkEnv 100 [] VSphere (fun ref => inl ref) None
        (Some (Err.Other "namespaces is forbidden")) (fun _ => None) (fun _ => None)
        (inl {[ "vm-1" := impDone ]}) (fun _ => inl [disk1]) DvName
        (fun vm => (VMStatus.Pipeline vm, None)) (fun _ => inl None)
        (fun _ _ => 0) (fun _ _ => 0) (reflectTimed 100).

(** The plan [plan0] as a [begin] that could not create the namespace
    leaves it. *)
Definition planStuck : Plan.t :=
  match begin envNoNamespace plan0 with
  | Some (p, _) => p
  | None => plan0
  end.

(** The [DiskTransfer] step of [vm1] as [buildPipeline] makes it. *)
Definition stepDisk : Step.t :=
  Step.mk (Task.mk Timed.zero DiskTransfer "Transfer disks." "" ""
                   (libitr.mkProgress 10 0) [("unit", "MB")] None) [disk1].

(** A status of [vm1] with that step only, its import created. *)
Definition vmDisk : VMStatus.t :=
  VMStatus.mk (Timed.mk (Some 1) None) vm1 [stepDisk] ImportCreated None None [].

(** An import whose data volume is ready and bears no other condition. *)
Definition impReadyOnly : VmImport :=
  mkVmImport false (mkWarmImportStatus 0 0 0 None) [] [dvReadyOnly].

(** *** A plan executed twice

    The plan of [vm1] is begun and its VM stepped through the itinerary
    until it has succeeded; the VM is stepped once more after the user has
    canceled it; the migration is cleaned up and ended.  A second migration
    of the same plan is then begun under a fresh snapshot, and the import
    of the VM is refused. *)

Definition stepFirst (e : Env) (p : Plan.t) : Plan.t := fst (stepAt e p 0).

Definition planBegun : Plan.t :=
  match begin env0 plan0 with Some (p, _) => p | None => plan0 end.

(** Started, then CreateImport, then ImportCreated. *)
Definition planImporting : Plan.t := stepFirst env0 (stepFirst env0 planBegun).

(** The import is done: the VM is in phase Completed, with Succeeded. *)
Definition planSucceeded : Plan.t := stepFirst env0 planImporting.

(** The VM is stepped again, the user having canceled it. *)
Definition planCanceled : Plan.t := stepFirst envCanceled planSucceeded.

Definition planCleaned : Plan.t := fst (fst (Cancel envCanceled planCanceled)).

Definition planEnded : Plan.t := fst (fst (fst (end_ envCanceled planCleaned))).

(** The second migration of the plan. *)
Definition planRebegun : Plan.t :=
  match begin env0 (Plan.NewSnapshot planEnded) with
  | Some (p, _) => p
  | None => planEnded
  end.

Definition planRefused : Plan.t := stepFirst envRefused (stepFirst env0 planRebegun).

(** What a VM status shows of its outcome. *)
Definition outcomeOf (vm : VMStatus.t) : string * bool * bool :=
  (VMStatus.Phase vm, VMStatus.HasCondition vm Succeeded, VMStatus.HasCondition vm Failed).


(** A second disk, and the [DiskTransfer] step of a VM with both disks. *)
Definition disk2 : Task.t :=
  Task.mk Timed.zero "disk-2" "" "" "" (libitr.mkProgress 10 0) [] None.

Definition stepTwoDisks : Step.t :=
  Step.mk (Task.mk Timed.zero DiskTransfer "Transfer disks." "" ""
                   (libitr.mkProgress 20 0) [("unit", "MB")] None) [disk1; disk2].

Definition vmTwoDisks : VMStatus.t :=
  VMStatus.mk (Timed.mk (Some 1) None) vm1 [stepTwoDisks] ImportCreated None None [].

(** An import that lists two data volumes resolved to the first disk. *)
Definition impTwice : VmImport :=
  mkVmImport false (mkWarmImportStatus 0 0 0 None) [] [dvReady; dvReady].

(** Collaborators as in [env0], but the inventory of the provider is not
    ready when the import is ensured. *)
Definition envNotReady : Env :=
  mkEnv 100 [] VSphere (fun ref => inl ref) None None
        (fun _ => Some (Err.ProviderNotReady "provider not ready"))
        (fun _ => None)
        (inl {[ "vm-1" := impDone ]}) (fun _ => inl [disk1]) DvName
        (fun vm => (VMStatus.Pipeline vm, None)) (fun _ => inl None)
        (fun _ _ => 0) (fun _ _ => 0) (reflectTimed 100).

(** Collaborators as in [env0], but no import is found for any VM. *)
Definition envNoImport : Env :=
  mkEnv 100 [] VSphere (fun ref => inl ref) None None (fun _ => None) (fun _ => None)
        (inl ∅) (fun _ => inl [disk1]) DvName
        (fun vm => (VMStatus.Pipeline vm, None)) (fun _ => inl None)
        (fun _ _ => 0) (fun _ _ => 0) (reflectTimed 100).

(** Collaborators as in [env0], but no import can be deleted. *)
Definition envNoDelete : Env :=
  mkEnv 100 [] VSphere (fun ref => inl ref) None None (fun _ => None)
        (fun _ => Some (Err.Other "imports is forbidden"))
        (inl {[ "vm-1" := impDone ]}) (fun _ => inl [disk1]) DvName
        (fun vm => (VMStatus.Pipeline vm, None)) (fun _ => inl None)
        (fun _ _ => 0) (fun _ _ => 0) (reflectTimed 100).

(** A VM with a hook bound to PreHook, and its status in that phase: the
    step of the hook is in the pipeline and the hook has not run. *)
Definition vmHooked : VM.t := VM.mk ref1 [VM.mkHookRef PreHook "hook-1"].

Definition vmPreHook : VMStatus.t :=
  VMStatus.mk (Timed.mk (Some 1) None) vmHooked
              [unitStep PreHook "Run pre-migration hook."; stepDisk] PreHook None None [].

(** *** An inventory

    A datacenter with a folder of hosts, a cluster in the folder and a
    host in the cluster; a folder that is its own parent; and a host
    whose cluster is not in the database.  The kinds are named as the
    types of the model are. *)

Definition kinds1 : inventory.Kinds :=
  inventory.mkKinds "Folder" "Datacenter" "Cluster" "Host" "Network" "Datastore".

Definition datacenter1 : vsphere.Base :=
  vsphere.mkBase "datacenter-2" "lab" (vsphere.mkRef "" "") 1.

Definition folder1 : vsphere.Base :=
  vsphere.mkBase "group-h4" "host" (vsphere.mkRef "Datacenter" "datacenter-2") 1.

Definition cluster1 : vsphere.Base :=
  vsphere.mkBase "domain-c7" "prod" (vsphere.mkRef "Folder" "group-h4") 1.

Definition host1 : vsphere.Base :=
  vsphere.mkBase "host-9" "esx1" (vsphere.mkRef "Cluster" "domain-c7") 1.

Definition folderLoop : vsphere.Base :=
  vsphere.mkBase "group-v3" "loop" (vsphere.mkRef "Folder" "group-v3") 1.

Definition orphan : vsphere.Base :=
  vsphere.mkBase "host-10" "esx2" (vsphere.mkRef "Cluster" "domain-c8") 1.

Definition db1 : inventory.DB := fun kind id =>
  if String.eqb kind "Datacenter" && String.eqb id "datacenter-2" then inl datacenter1
  else if String.eqb kind "Folder" && String.eqb id "group-h4" then inl folder1
  else if String.eqb kind "Cluster" && String.eqb id "domain-c7" then inl cluster1
  else if String.eqb kind "Folder" && String.eqb id "group-v3" then inl folderLoop
  else inr "not found".

(** The network of a host with two switches of the same key. *)
Definition network1 : inventory.HostNetwork :=
  inventory.mkHostNetwork
    [inventory.mkPNIC "key-vim.host.PhysicalNic-vmnic0" 10000]
    [inventory.mkVNIC "key-vim.host.VirtualNic-vmk0" "Management Network" "" "10.0.0.5"
                      "255.255.255.0" 1500]
    [inventory.mkPortGroup "key-vim.host.PortGroup-VM Network" "VM Network"
                           "key-vim.host.VirtualSwitch-vSwitch0"]
    [inventory.mkSwitch "key-vim.host.VirtualSwitch-vSwitch0" "vSwitch0" [] [];
     inventory.mkSwitch "key-vim.host.VirtualSwitch-vSwitch0" "vSwitch0-bis" [] []].

End Scenario.

(* ===================================================================== *)
(** * Notions used to state the properties *)
(* ===================================================================== *)

(** The body of the loop of [ReflectPipeline]. *)
Definition reflectStep (r : VMStatus.t) (s : Step.t) : VMStatus.t :=
  match Step.Error s with
  | Some e => VMStatus.AddError (Error.Reasons e) r
  | None => r
  end.

(** A condition of type [ty] is present on the VM status, whatever its
    status. *)
Definition present (vm : VMStatus.t) (ty : string) : Prop :=
  is_Some (libcnd.FindCondition (VMStatus.Conditions vm) ty).

(** The phase names the [switch] of [step] knows, those of the itinerary. *)
Definition knownPhase (phase : string) : bool :=
  existsb (fun s => String.eqb phase (libitr.Name s)) (libitr.ItPipeline itinerary).

(** The pre-copy intervals of a VM ([vm.Warm.Precopies]); none before the
    warm state exists. *)
Definition precopies (vm : VMStatus.t) : list Warm.Precopy :=
  match VMStatus.Warm vm with
  | Some w => Warm.Precopies w
  | None => []
  end.

(** An interval is open while its end is nil. *)
Definition isOpen (p : Warm.Precopy) : bool :=
  match Warm.End p with Some _ => false | None => true end.

Definition openIntervals (l : list Warm.Precopy) : nat := length (List.filter isOpen l).

(** The list is empty or its last interval is closed. *)
Definition lastClosed (l : list Warm.Precopy) : Prop :=
  l = [] \/ exists pre p, l = pre ++ [p] /\ isOpen p = false.

(** The last interval of the list is [p], and it is open. *)
Definition lastOpen (l pre : list Warm.Precopy) (p : Warm.Precopy) : Prop :=
  l = pre ++ [p] /\ isOpen p = true.

(** Every interval but the last is closed. *)
Definition onlyLastOpen (l : list Warm.Precopy) : Prop :=
  forall pre p, l = pre ++ [p] -> Forall (fun q => isOpen q = false) pre.

(** What one observation of the [Processing] condition, with reason
    [reason] and last-transition-time [at_], may do to the intervals. *)
Inductive precopyStep (reason : string) (at_ : Time)
  : list Warm.Precopy -> list Warm.Precopy -> Prop :=
| precopy_opened l :
    reason = vmio.CopyingStage -> lastClosed l ->
    precopyStep reason at_ l (l ++ [Warm.mkPrecopy (Some at_) None])
| precopy_closed pre p :
    reason = vmio.CopyingPaused -> isOpen p = true ->
    precopyStep reason at_ (pre ++ [p]) (pre ++ [Warm.mkPrecopy (Warm.Start p) (Some at_)])
| precopy_unchanged l :
    ~ (reason = vmio.CopyingStage /\ lastClosed l) ->
    ~ (reason = vmio.CopyingPaused /\ exists pre p, lastOpen l pre p) ->
    precopyStep reason at_ l l.

(** The outcome of a plan whose VMs all completed: failed if a VM failed,
    else succeeded if a VM succeeded, else canceled. *)
Definition outcome (vms : list VMStatus.t) : string :=
  if existsb (fun vm => VMStatus.HasCondition vm Failed) vms then Failed
  else if existsb (fun vm => VMStatus.HasCondition vm Succeeded) vms then Succeeded
  else Canceled.

(** The entry [slot] of the list built by [begin] holds a status of the
    VM [vm] of the plan. *)
Definition slotFor (kept : list VMStatus.t) (slot : Slot) (vm : VM.t) : Prop :=
  exists s, slotStatus kept slot = Some s /\ VMStatus.ID s = Ref.ID (VM.Ref vm).

(** How the [DiskTransfer] case of [updatePipeline] takes a data volume,
    given the tasks of the step: the data volume is matched to a task by
    name and ... *)

(** ... its [Bound] condition is False: it blocks the task; *)
Definition dvBlocks (e : Env) (tasks : list Task.t) (dv : DataVolume) : bool :=
  bool_decide (is_Some (Step.findIndex (ResolveDataVolumeIdentifier e dv) tasks))
  && bool_decide (is_Some (boundFalse (DvConditions dv))).

(** ... its [Bound] condition is not False and it has a [Running]
    condition: it runs the task; *)
Definition dvRuns (e : Env) (tasks : list Task.t) (dv : DataVolume) : bool :=
  bool_decide (is_Some (Step.findIndex (ResolveDataVolumeIdentifier e dv) tasks))
  && negb (bool_decide (is_Some (boundFalse (DvConditions dv))))
  && bool_decide (is_Some (libcnd.FindCondition (DvConditions dv) "Running")).

(** ... it runs the task and its [Ready] condition is True: it completes
    the task. *)
Definition dvCompletes (e : Env) (tasks : list Task.t) (dv : DataVolume) : bool :=
  dvRuns e tasks dv && libcnd.HasCondition (DvConditions dv) ["Ready"].

Definition count {A} (f : A -> bool) (l : list A) : nat := length (List.filter f l).




(** The part of a VM status that decides its outcome is kept from [vm] to
    [vm']: the conditions [Succeeded] and [Failed] are the same, and an
    error list that exists still does. *)
Definition keeps (vm vm' : VMStatus.t) : Prop :=
  libcnd.FindCondition (VMStatus.Conditions vm') Succeeded
  = libcnd.FindCondition (VMStatus.Conditions vm) Succeeded
  /\ libcnd.FindCondition (VMStatus.Conditions vm') Failed
     = libcnd.FindCondition (VMStatus.Conditions vm) Failed
  /\ (is_Some (VMStatus.Error vm) -> is_Some (VMStatus.Error vm')).

(** ** Notions of the further properties *)

(** The VM has a hook bound to the pipeline step [step]. *)
Definition hasHook (vm : VM.t) (step : string) : bool :=
  existsb (fun h => String.eqb (VM.HookStep h) step) (VM.Hooks vm).

(** The pipeline step of a hook, for a VM that has the hook. *)
Definition hookSteps (vm : VM.t) (name description : string) : list Step.t :=
  if hasHook vm name then [unitStep name description] else [].

(** The disk-transfer step made of the tasks of the builder: its total is
    the sum of theirs. *)
Definition diskStep (tasks : list Task.t) : Step.t :=
  Step.mk (Task.mk Timed.zero DiskTransfer "Transfer disks." "" ""
             (libitr.mkProgress
                (fold_left (fun total task => wrap64 (total + libitr.Total (Task.Progress task)))
                           tasks 0) 0)
             [("unit", "MB")] None) tasks.

(** The place of a phase in a list of itinerary entries, its length when
    the phase is not there. *)
Fixpoint indexOf (phase : string) (l : libitr.Pipeline) : nat :=
  match l with
  | [] => 0
  | s :: tl => if String.eqb (libitr.Name s) phase then 0 else S (indexOf phase tl)
  end.

Definition phaseRank (phase : string) : nat := indexOf phase (libitr.ItPipeline itinerary).

(** A time stamp that is set in [t] is the same in [t']. *)
Definition stampsKept (t t' : Timed.t) : Prop :=
  (forall x, Timed.Started t = Some x -> Timed.Started t' = Some x)
  /\ (forall x, Timed.Completed t = Some x -> Timed.Completed t' = Some x).

(** The errors recorded on [vm] are still recorded on [vm'], first and in
    the same order. *)
Definition errorsKept (vm vm' : VMStatus.t) : Prop :=
  forall err, VMStatus.Error vm = Some err ->
  exists more, VMStatus.Error vm' = Some (Error.mk (Error.Reasons err ++ more)).

(** What the derivation of the status from the import leaves of a VM
    status: its time stamps, its VM and its phase; errors are only added. *)
Definition derived (vm vm' : VMStatus.t) : Prop :=
  VMStatus.Timed vm' = VMStatus.Timed vm
  /\ VMStatus.VM vm' = VMStatus.VM vm
  /\ VMStatus.Phase vm' = VMStatus.Phase vm
  /\ errorsKept vm vm'.

(** What the derivation of the status keeps of a task: its name, its
    description, its total and its annotations, and the time stamps that
    are set. *)
Definition taskEvolves (t t' : Task.t) : Prop :=
  Task.Name t' = Task.Name t
  /\ Task.Description t' = Task.Description t
  /\ libitr.Total (Task.Progress t') = libitr.Total (Task.Progress t)
  /\ Task.Annotations t' = Task.Annotations t
  /\ stampsKept (Task.Timed t) (Task.Timed t').

(** What it keeps of a step: that of the step as a task and of each of its
    tasks, in their order; and all of a step that is marked completed. *)
Definition stepEvolves (s s' : Step.t) : Prop :=
  taskEvolves (Step.Task s) (Step.Task s')
  /\ Forall2 taskEvolves (Step.Tasks s) (Step.Tasks s')
  /\ (Step.MarkedCompleted s = true -> s' = s).

(** The closed intervals of a list of pre-copies, in their order. *)
Definition closedIntervals (l : list Warm.Precopy) : list Warm.Precopy :=
  List.filter (fun p => negb (isOpen p)) l.

(** The VMs that [Cancel] cleans up: those with a condition Canceled or
    Failed that is true. *)
Definition toCancel (vm : VMStatus.t) : bool :=
  VMStatus.HasAnyCondition vm [Canceled; Failed].

(** A step of such a VM, before and after [Cancel]: a step that was not
    started is the same; a step that was started is marked completed, and
    differs by its time stamps only, of which those that were set are the
    same. *)
Definition stepClosed (s s' : Step.t) : Prop :=
  (Step.MarkedStarted s = false -> s' = s)
  /\ (Step.MarkedStarted s = true -> Step.MarkedCompleted s' = true)
  /\ Step.on_Task (Task.set_Timed (Task.Timed (Step.Task s))) s' = s
  /\ stampsKept (Task.Timed (Step.Task s)) (Task.Timed (Step.Task s')).

(** Such a VM, before and after [Cancel]: it is marked completed, and
    differs by its time stamps and those of its steps only. *)
Definition cleanedUp (vm vm' : VMStatus.t) : Prop :=
  VMStatus.MarkedCompleted vm' = true
  /\ stampsKept (VMStatus.Timed vm) (VMStatus.Timed vm')
  /\ VMStatus.set_Timed (VMStatus.Timed vm) (VMStatus.set_Pipeline (VMStatus.Pipeline vm) vm')
     = vm
  /\ Forall2 stepClosed (VMStatus.Pipeline vm) (VMStatus.Pipeline vm').

(** A status that [begin] has reset, for a VM of the plan: it is in phase
    Started with the pipeline built for that VM, with no time stamp, no
    error, no warm state and no condition Canceled or Failed. *)
Definition startedAnew (e : Env) (p : Plan.t) (s : VMStatus.t) : Prop :=
  VMStatus.Phase s = Started
  /\ VMStatus.Timed s = Timed.zero
  /\ VMStatus.Error s = None
  /\ VMStatus.Warm s = None
  /\ libcnd.FindCondition (VMStatus.Conditions s) Canceled = None
  /\ libcnd.FindCondition (VMStatus.Conditions s) Failed = None
  /\ exists vm, In vm (Plan.SpecVMs p)
                /\ VMStatus.ID s = Ref.ID (VM.Ref vm)
                /\ buildPipeline e vm = Some (VMStatus.Pipeline s, None).

(** The status [s0] with its reference resolved by the inventory. *)
Definition resolved (e : Env) (s0 s : VMStatus.t) : Prop :=
  exists ref, InventoryVM e (VMStatus.Ref s0) = inl ref /\ s = set_Ref ref s0.

(** A status that [begin] has carried over from the previous migration:
    a status of the plan, its reference resolved, that is in phase
    Completed with no true condition Canceled or Failed. *)
Definition carriedOver (e : Env) (p : Plan.t) (s : VMStatus.t) : Prop :=
  VMStatus.Phase s = Completed
  /\ VMStatus.HasAnyCondition s [Canceled; Failed] = false
  /\ exists s0, In s0 (Plan.StatusVMs p) /\ resolved e s0 s.

(** The step whose completion lets a VM leave the phase ImportCreated:
    the image-conversion step or, without one, the disk-transfer step. *)
Definition importGate (vm : VMStatus.t) : option Step.t :=
  match VMStatus.FindStep vm ImageConversion with
  | Some step => Some step
  | None => VMStatus.FindStep vm DiskTransfer
  end.

(** While [begin] goes through the VMs of the plan, a status kept from
    the previous migration is reset or as the inventory resolved it ... *)
Definition keptOk (e : Env) (p : Plan.t) (s : VMStatus.t) : Prop :=
  startedAnew e p s \/ exists s0, In s0 (Plan.StatusVMs p) /\ resolved e s0 s.

(** ... and the status of an entry of the list that [begin] builds is
    reset or carried over. *)
Definition slotOk (e : Env) (p : Plan.t) (kept : list VMStatus.t) (slot : Slot) : Prop :=
  forall s, slotStatus kept slot = Some s -> startedAnew e p s \/ carriedOver e p s.

(** The kinds of the parents that the walk of [Path] goes through, and
    all the kinds it tells apart. *)
Definition walkedKinds (K : inventory.Kinds) : list string :=
  [inventory.FolderKind K; inventory.ClusterKind K; inventory.HostKind K;
   inventory.NetKind K; inventory.DsKind K].

Definition treeKinds (K : inventory.Kinds) : list string :=
  inventory.DatacenterKind K :: walkedKinds K.

(* ===================================================================== *)
(** * Properties *)
(* ===================================================================== *)

(** ** Conditions *)

Section ConditionFacts.
Import libcnd.

Lemma Update_Type now old new :
  Type_ old = Type_ new -> Type_ (Update now old new) = Type_ new.
Proof. unfold Update. destruct (Equal old new); simpl; auto. Qed.

Lemma Update_Status now old new : Status (Update now old new) = Status new.
Proof.
  unfold Update. destruct (Equal old new) eqn:E; simpl; auto.
  unfold Equal in E. repeat (apply andb_prop in E; destruct E as [E ?]).
  now apply String.eqb_eq.
Qed.

Lemma FindCondition_SetCondition_eq now l c :
  exists c', FindCondition (SetCondition now l c) (Type_ c) = Some c'
             /\ Type_ c' = Type_ c /\ Status c' = Status c.
Proof.
  induction l as [|x tl IH]; simpl.
  - rewrite String.eqb_refl. eexists; split; [reflexivity|]. split; reflexivity.
  - destruct (String.eqb (Type_ x) (Type_ c)) eqn:E; simpl.
    + apply String.eqb_eq in E.
      rewrite (Update_Type now x c E), String.eqb_refl.
      eexists; split; [reflexivity|]. split; [now apply Update_Type | apply Update_Status].
    + rewrite E. exact IH.
Qed.

Lemma FindCondition_SetCondition_ne now l c t :
  t <> Type_ c -> FindCondition (SetCondition now l c) t = FindCondition l t.
Proof.
  intros Hne. induction l as [|x tl IH]; simpl.
  - destruct (String.eqb_spec (Type_ c) t); [congruence | reflexivity].
  - destruct (String.eqb (Type_ x) (Type_ c)) eqn:E; simpl.
    + apply String.eqb_eq in E.
      rewrite (Update_Type now x c E), E.
      destruct (String.eqb_spec (Type_ c) t); [congruence | reflexivity].
    + destruct (String.eqb (Type_ x) t); [reflexivity | exact IH].
Qed.

Lemma HasCondition_single l t :
  HasCondition l [t] = match FindCondition l t with
                       | Some c => String.eqb (Status c) True_
                       | None => false
                       end.
Proof. unfold HasCondition. simpl. now rewrite !andb_true_r. Qed.

Lemma HasCondition_SetCondition_eq now l c :
  HasCondition (SetCondition now l c) [Type_ c] = String.eqb (Status c) True_.
Proof.
  rewrite HasCondition_single.
  destruct (FindCondition_SetCondition_eq now l c) as (c' & -> & _ & ->). reflexivity.
Qed.

Lemma HasCondition_SetCondition_ne now l c t :
  t <> Type_ c -> HasCondition (SetCondition now l c) [t] = HasCondition l [t].
Proof.
  intros Hne. now rewrite !HasCondition_single, FindCondition_SetCondition_ne.
Qed.

Lemma FindCondition_filter_ne l t u :
  t <> u ->
  FindCondition (List.filter (fun c => negb (String.eqb (Type_ c) u)) l) t = FindCondition l t.
Proof.
  intros Hne. induction l as [|x tl IH]; simpl; [reflexivity|].
  destruct (String.eqb_spec (Type_ x) u) as [Hu|Hu]; simpl.
  - destruct (String.eqb_spec (Type_ x) t); [congruence | exact IH].
  - destruct (String.eqb (Type_ x) t); [reflexivity | exact IH].
Qed.

Lemma FindCondition_filter_eq l t :
  FindCondition (List.filter (fun c => negb (String.eqb (Type_ c) t)) l) t = None.
Proof.
  induction l as [|x tl IH]; simpl; [reflexivity|].
  destruct (String.eqb (Type_ x) t) eqn:E; simpl; [exact IH|]. now rewrite E.
Qed.

Lemma FindCondition_DeleteCondition_ne l types t :
  ~ In t types -> FindCondition (DeleteCondition l types) t = FindCondition l t.
Proof.
  unfold DeleteCondition. revert l. induction types as [|u tl IH]; intros l Hni; simpl.
  - reflexivity.
  - rewrite IH by (intros ?; apply Hni; now right).
    apply FindCondition_filter_ne. intros ->. apply Hni. now left.
Qed.

Lemma FindCondition_filter_None l t u :
  FindCondition l t = None ->
  FindCondition (List.filter (fun c => negb (String.eqb (Type_ c) u)) l) t = None.
Proof.
  induction l as [|x tl IH]; simpl; [reflexivity|].
  destruct (String.eqb (Type_ x) t) eqn:E; [discriminate|]. intros H.
  destruct (negb (String.eqb (Type_ x) u)); simpl; [rewrite E|]; auto.
Qed.

Lemma FindCondition_DeleteCondition_in l types t :
  In t types -> FindCondition (DeleteCondition l types) t = None.
Proof.
  unfold DeleteCondition. revert l. induction types as [|u tl IH]; intros l Hin; simpl.
  - destruct Hin.
  - destruct (in_dec string_dec t tl) as [Htl|Htl].
    + now apply IH.
    + destruct Hin as [->|]; [|contradiction].
      change (FindCondition (DeleteCondition
                (List.filter (fun c => negb (String.eqb (Type_ c) t)) l) tl) t = None).
      rewrite FindCondition_DeleteCondition_ne by assumption.
      apply FindCondition_filter_eq.
Qed.

End ConditionFacts.

(** ** The REST resource of a cluster *)

(** C10. The resource built by [Cluster.With] carries the model's
    [DasVms] in its [DrsVms] field, whatever the model's [DrsVms]:
    changing only the [DrsVms] of the model leaves the resource built
    from it unchanged. *)
Theorem Cluster_With_DrsVms_from_DasVms
  (Resource : Type) (Resource_With : Resource -> vsphere.Base -> Resource)
  (r : vsphere.Cluster Resource) (m : vsphere.model.Cluster) (vms : list vsphere.Ref) :
  vsphere.DrsVms _ (vsphere.With _ Resource_With r m) = vsphere.model.DasVms m
  /\ vsphere.With _ Resource_With r (vsphere.model.set_DrsVms vms m)
     = vsphere.With _ Resource_With r m.
Proof. split; reflexivity. Qed.

(** ** The error list of a VM *)

Lemma ReflectPipeline_fold marks r :
  VMStatus.ReflectPipeline marks r
  = VMStatus.set_Timed (marks (fold_left reflectStep (VMStatus.Pipeline r) r))
                       (fold_left reflectStep (VMStatus.Pipeline r) r).
Proof. reflexivity. Qed.

Lemma ReflectPipeline_Error marks r :
  VMStatus.Error (VMStatus.ReflectPipeline marks r)
  = VMStatus.Error (fold_left reflectStep (VMStatus.Pipeline r) r).
Proof. reflexivity. Qed.

Lemma reflect_frame l r :
  let r' := fold_left reflectStep l r in
  VMStatus.Timed r' = VMStatus.Timed r /\ VMStatus.VM r' = VMStatus.VM r
  /\ VMStatus.Pipeline r' = VMStatus.Pipeline r /\ VMStatus.Phase r' = VMStatus.Phase r
  /\ VMStatus.Warm r' = VMStatus.Warm r /\ VMStatus.Conditions r' = VMStatus.Conditions r.
Proof.
  revert r. induction l as [|s tl IH]; intros r; simpl; [tauto|].
  specialize (IH (reflectStep r s)). simpl in IH.
  unfold reflectStep in *. destruct (Step.Error s); simpl in *; exact IH.
Qed.

Lemma ReflectPipeline_frame marks r :
  let r' := VMStatus.ReflectPipeline marks r in
  VMStatus.VM r' = VMStatus.VM r
  /\ VMStatus.Pipeline r' = VMStatus.Pipeline r /\ VMStatus.Phase r' = VMStatus.Phase r
  /\ VMStatus.Warm r' = VMStatus.Warm r /\ VMStatus.Conditions r' = VMStatus.Conditions r.
Proof.
  destruct (reflect_frame (VMStatus.Pipeline r) r) as (_ & A & B & C & D & E).
  cbv zeta. rewrite ReflectPipeline_fold. auto.
Qed.

Lemma reflect_Error_Some l r err :
  VMStatus.Error r = Some err ->
  exists more, VMStatus.Error (fold_left reflectStep l r)
               = Some (Error.mk (Error.Reasons err ++ more)).
Proof.
  revert r err. induction l as [|s tl IH]; intros r err H; simpl.
  - exists []. rewrite app_nil_r, H. now destruct err.
  - unfold reflectStep at 2. destruct (Step.Error s) as [e|].
    + destruct (IH (VMStatus.AddError (Error.Reasons e) r)
                   (Error.mk (Error.Reasons err ++ Error.Reasons e))) as [more Hm].
      { simpl. now rewrite H. }
      exists (Error.Reasons e ++ more). rewrite Hm. simpl. now rewrite app_assoc.
    + now apply IH.
Qed.

Lemma reflect_Error_None l r :
  VMStatus.Error (fold_left reflectStep l r) = None <->
  VMStatus.Error r = None /\ Forall (fun s => Step.Error s = None) l.
Proof.
  revert r. induction l as [|s tl IH]; intros r; simpl.
  - split; [intros H; split; [exact H | constructor] | tauto].
  - rewrite IH. unfold reflectStep. destruct (Step.Error s) as [e|] eqn:E; simpl.
    + split; [intros [H _]; discriminate|].
      intros [_ H]. inversion H; subst. congruence.
    + split; intros [H1 H2]; split; auto. now inversion H2.
Qed.

Lemma AddError_In reason (r : VMStatus.t) msg :
  In msg reason ->
  exists err, VMStatus.Error (VMStatus.AddError reason r) = Some err
              /\ In msg (Error.Reasons err).
Proof.
  intros H. eexists; split; [reflexivity|]. simpl. apply in_or_app. now right.
Qed.

(** ** The outcome stamped by [step] *)

Lemma Succeeded_ne_Failed : Succeeded <> Failed.
Proof. discriminate. Qed.

Lemma conclude_failed e vm err :
  VMStatus.Error vm = Some err ->
  let vm' := conclude e vm in
  VMStatus.Phase vm' = Completed
  /\ VMStatus.HasCondition vm' Failed = true
  /\ (exists more, VMStatus.Error vm' = Some (Error.mk (Error.Reasons err ++ more)))
  /\ (forall t, t <> Failed ->
        libcnd.FindCondition (VMStatus.Conditions vm') t
        = libcnd.FindCondition (VMStatus.Conditions vm) t).
Proof.
  intros H. unfold conclude. cbv zeta. rewrite ReflectPipeline_Error, ReflectPipeline_fold.
  destruct (reflect_Error_Some (VMStatus.Pipeline vm) vm err H) as [more Hm].
  destruct (reflect_frame (VMStatus.Pipeline vm) vm) as (_ & _ & _ & _ & _ & Hc).
  rewrite Hm. simpl. rewrite Hm. repeat split.
  - unfold VMStatus.HasCondition. simpl.
    apply (HasCondition_SetCondition_eq (now e) _ (durable Failed "" _)).
  - now exists more.
  - intros t Ht. rewrite FindCondition_SetCondition_ne by exact Ht. now rewrite Hc.
Qed.

Lemma conclude_succeeded e vm :
  VMStatus.Phase vm = Completed ->
  VMStatus.Error (VMStatus.ReflectPipeline (ReflectTimed e) vm) = None ->
  let vm' := conclude e vm in
  VMStatus.Phase vm' = Completed
  /\ VMStatus.Error vm' = None
  /\ VMStatus.HasCondition vm' Succeeded = true
  /\ (forall t, t <> Succeeded ->
        libcnd.FindCondition (VMStatus.Conditions vm') t
        = libcnd.FindCondition (VMStatus.Conditions vm) t).
Proof.
  intros Hp He. unfold conclude. cbv zeta. rewrite He.
  destruct (ReflectPipeline_frame (ReflectTimed e) vm) as (_ & _ & Hph & _ & Hc).
  set (r := VMStatus.ReflectPipeline (ReflectTimed e) vm) in *.
  rewrite Hph, Hp. change (String.eqb Completed Completed) with true.
  cbv iota. cbn [VMStatus.Phase VMStatus.Error VMStatus.SetCondition VMStatus.set_Conditions
                 VMStatus.Conditions VMStatus.HasCondition].
  split; [congruence|]. split; [exact He|]. split.
  - apply (HasCondition_SetCondition_eq (now e) _ (durable Succeeded "" _)).
  - intros t Ht. rewrite FindCondition_SetCondition_ne by exact Ht. now rewrite Hc.
Qed.

Lemma Equal_stamp now c : libcnd.Equal (libcnd.stamp now c) c = true.
Proof.
  unfold libcnd.Equal, libcnd.stamp. simpl.
  rewrite !String.eqb_refl. now destruct (libcnd.Durable c).
Qed.

Lemma SetCondition_found now l c :
  exists c', libcnd.FindCondition (libcnd.SetCondition now l c) (libcnd.Type_ c) = Some c'
             /\ libcnd.Equal c' c = true.
Proof.
  induction l as [|x tl IH]; simpl.
  - rewrite String.eqb_refl. eexists; split; [reflexivity | apply Equal_stamp].
  - destruct (String.eqb (libcnd.Type_ x) (libcnd.Type_ c)) eqn:E; simpl.
    + apply String.eqb_eq in E.
      rewrite (Update_Type now x c E), String.eqb_refl.
      eexists; split; [reflexivity|]. unfold libcnd.Update.
      destruct (libcnd.Equal x c) eqn:Q; [exact Q | apply Equal_stamp].
    + rewrite E. exact IH.
Qed.

Lemma Equal_durable c' c : libcnd.Equal c' c = true -> libcnd.Durable c' = libcnd.Durable c.
Proof.
  unfold libcnd.Equal. intros E. repeat (apply andb_prop in E; destruct E as [E ?]).
  now apply Bool.eqb_prop.
Qed.

(** ** Cancellation *)

(** C6. For a VM whose ref is in the cancel set of the migration, [step]
    returns no error, sets the durable [Canceled] condition (status True)
    and the phase [Completed], and leaves the rest of the status as it
    was: the conditions of every other type (so neither [Succeeded] nor
    [Failed] is stamped), the error list, the pipeline steps, the time
    stamps, the VM and the warm state. *)
Theorem step_canceled_frame (e : Env) (vm : VMStatus.t) :
  Canceled_ref (Cancel_refs e) (VMStatus.Ref vm) = true ->
  exists vm',
    step e vm = (vm', None)
    /\ VMStatus.Phase vm' = Completed
    /\ VMStatus.HasCondition vm' Canceled = true
    /\ (exists c, libcnd.FindCondition (VMStatus.Conditions vm') Canceled = Some c
                  /\ libcnd.Durable c = true)
    /\ (forall t, t <> Canceled ->
          libcnd.FindCondition (VMStatus.Conditions vm') t
          = libcnd.FindCondition (VMStatus.Conditions vm) t)
    /\ VMStatus.Error vm' = VMStatus.Error vm
    /\ VMStatus.Pipeline vm' = VMStatus.Pipeline vm
    /\ VMStatus.Timed vm' = VMStatus.Timed vm
    /\ VMStatus.VM vm' = VMStatus.VM vm
    /\ VMStatus.Warm vm' = VMStatus.Warm vm.
Proof.
  intros Hc. unfold step. rewrite Hc. eexists. split; [reflexivity|]. simpl.
  split; [reflexivity|]. split.
  { apply (HasCondition_SetCondition_eq (now e) _ (durable Canceled UserRequested _)). }
  split.
  { destruct (SetCondition_found (now e) (VMStatus.Conditions vm)
                (durable Canceled UserRequested "The migration has been canceled."))
      as (c & Hf & Heq).
    exists c. split; [exact Hf | exact (Equal_durable _ _ Heq)]. }
  split.
  { intros t Ht. now apply FindCondition_SetCondition_ne. }
  repeat split.
Qed.

(** The hypothesis of C6 is met by the VM of the scenario once the user
    canceled it. *)
Lemma step_canceled_frame_witness :
  exists vm',
    step Scenario.envCanceled (Scenario.inPhase ImportCreated) = (vm', None)
    /\ VMStatus.Phase vm' = Completed
    /\ VMStatus.HasCondition vm' Canceled = true
    /\ (exists c, libcnd.FindCondition (VMStatus.Conditions vm') Canceled = Some c
                  /\ libcnd.Durable c = true)
    /\ (forall t, t <> Canceled ->
          libcnd.FindCondition (VMStatus.Conditions vm') t
          = libcnd.FindCondition (VMStatus.Conditions (Scenario.inPhase ImportCreated)) t)
    /\ VMStatus.Error vm' = VMStatus.Error (Scenario.inPhase ImportCreated)
    /\ VMStatus.Pipeline vm' = VMStatus.Pipeline (Scenario.inPhase ImportCreated)
    /\ VMStatus.Timed vm' = VMStatus.Timed (Scenario.inPhase ImportCreated)
    /\ VMStatus.VM vm' = VMStatus.VM (Scenario.inPhase ImportCreated)
    /\ VMStatus.Warm vm' = VMStatus.Warm (Scenario.inPhase ImportCreated).
Proof.
  apply (step_canceled_frame Scenario.envCanceled (Scenario.inPhase ImportCreated)).
  reflexivity.
Defined.

(** ** Failure of [EnsureImport] *)

Lemma dispatch_ensureImport_failure e vm msg :
  VMStatus.Phase vm = CreateImport \/ VMStatus.Phase vm = ImportCreated ->
  EnsureImport e vm = Some (Err.Other msg) ->
  dispatch e vm = (VMStatus.AddError [msg] vm, Fallthrough).
Proof.
  intros Hp He. unfold dispatch, ensureImport.
  destruct Hp as [Hp|Hp]; rewrite Hp, He; reflexivity.
Qed.

(** C1 (as the code has it). For a VM that is not canceled and whose phase
    is [CreateImport] or [ImportCreated], when [EnsureImport] fails with an
    error that is not [ProviderNotReady], [step] returns no error and
    records the error's message on the error list of the VM; in that same
    call the VM becomes terminal: its phase is [Completed] and it carries
    the [Failed] condition, while no [Succeeded] condition is stamped. *)
Theorem step_ensureImport_failure_terminal (e : Env) (vm : VMStatus.t) (msg : string) :
  Canceled_ref (Cancel_refs e) (VMStatus.Ref vm) = false ->
  VMStatus.Phase vm = CreateImport \/ VMStatus.Phase vm = ImportCreated ->
  EnsureImport e vm = Some (Err.Other msg) ->
  exists vm',
    step e vm = (vm', None)
    /\ (exists err, VMStatus.Error vm' = Some err /\ In msg (Error.Reasons err))
    /\ VMStatus.Phase vm' = Completed
    /\ VMStatus.HasCondition vm' Failed = true
    /\ libcnd.FindCondition (VMStatus.Conditions vm') Succeeded
       = libcnd.FindCondition (VMStatus.Conditions vm) Succeeded.
Proof.
  intros Hc Hp He. unfold step. rewrite Hc.
  rewrite (dispatch_ensureImport_failure e vm msg Hp He).
  eexists. split; [reflexivity|].
  destruct (AddError_In [msg] vm msg) as (err & Herr & Hin); [now left|].
  destruct (conclude_failed e _ err Herr) as (Hph & Hf & (more & Hm) & Hfr).
  split. { eexists. split; [exact Hm|]. simpl. apply in_or_app. now left. }
  split; [exact Hph|]. split; [exact Hf|].
  rewrite Hfr by exact Succeeded_ne_Failed. reflexivity.
Qed.

(** The hypotheses of C1 are met when the import operator refuses the
    import of the VM of the scenario. *)
Lemma step_ensureImport_failure_terminal_witness :
  exists vm',
    step Scenario.envRefused (Scenario.inPhase CreateImport) = (vm', None)
    /\ (exists err, VMStatus.Error vm' = Some err
                    /\ In "admission webhook denied the request" (Error.Reasons err))
    /\ VMStatus.Phase vm' = Completed
    /\ VMStatus.HasCondition vm' Failed = true
    /\ libcnd.FindCondition (VMStatus.Conditions vm') Succeeded
       = libcnd.FindCondition (VMStatus.Conditions (Scenario.inPhase CreateImport)) Succeeded.
Proof.
  apply (step_ensureImport_failure_terminal Scenario.envRefused
           (Scenario.inPhase CreateImport) "admission webhook denied the request").
  - reflexivity.
  - left. reflexivity.
  - reflexivity.
Defined.

(** C1 (as stated) fails: the import of a VM in phase [CreateImport] is
    refused with an error that is not [ProviderNotReady]; [step] returns
    no error, and the VM is in phase [Completed] with the [Failed]
    condition at the end of that call. *)
Lemma step_ensureImport_failure_counterexample :
  VMStatus.Phase (Scenario.inPhase CreateImport) = CreateImport
  /\ Canceled_ref (Cancel_refs Scenario.envRefused)
                  (VMStatus.Ref (Scenario.inPhase CreateImport)) = false
  /\ EnsureImport Scenario.envRefused (Scenario.inPhase CreateImport)
     = Some (Err.Other "admission webhook denied the request")
  /\ snd (step Scenario.envRefused (Scenario.inPhase CreateImport)) = None
  /\ VMStatus.Phase (fst (step Scenario.envRefused (Scenario.inPhase CreateImport)))
     = Completed
  /\ VMStatus.HasCondition (fst (step Scenario.envRefused (Scenario.inPhase CreateImport)))
                           Failed = true.
Proof. repeat split; vm_compute; reflexivity. Qed.

(** ** Unknown phases and hooks without a step *)

Lemma reflect_no_errors l r :
  Forall (fun s => Step.Error s = None) l -> fold_left reflectStep l r = r.
Proof.
  revert r. induction l as [|s tl IH]; intros r H; simpl; [reflexivity|].
  inversion H as [|? ? Hs Htl]; subst. unfold reflectStep at 2. rewrite Hs. now apply IH.
Qed.

Lemma conclude_Error e vm :
  VMStatus.Error (conclude e vm) = VMStatus.Error (VMStatus.ReflectPipeline (ReflectTimed e) vm).
Proof.
  unfold conclude. destruct (VMStatus.Error (VMStatus.ReflectPipeline (ReflectTimed e) vm)) eqn:E.
  - simpl. exact E.
  - destruct (String.eqb _ Completed); simpl; exact E.
Qed.

Lemma knownPhase_false phase :
  knownPhase phase = false ->
  String.eqb phase Started = false /\ String.eqb phase PreHook = false
  /\ String.eqb phase CreateImport = false /\ String.eqb phase ImportCreated = false
  /\ String.eqb phase PostHook = false /\ String.eqb phase Completed = false.
Proof.
  unfold knownPhase. simpl. intros H.
  repeat (apply orb_false_elim in H; destruct H as [? H]). tauto.
Qed.

Lemma dispatch_unknown e vm :
  knownPhase (VMStatus.Phase vm) = false ->
  dispatch e vm
  = (VMStatus.AddError ["Phase [Completed] unknown"] (VMStatus.set_Phase Completed vm),
     Fallthrough).
Proof.
  intros H. apply knownPhase_false in H.
  destruct H as (H1 & H2 & H3 & H4 & H5 & H6).
  unfold dispatch. rewrite H1, H2, H3, H4, H5, H6. reflexivity.
Qed.

(** C2 (what the code does). For a VM that is not canceled and whose phase
    is none of the itinerary's, [step] sets the phase to [Completed] and
    records the message built from the phase after it was overwritten,
    "Phase [Completed] unknown", whatever the phase was; when the VM and
    its steps had no error before, that message is the whole error list,
    so the original phase is recorded nowhere in it. *)
Theorem step_unknown_phase_message (e : Env) (vm : VMStatus.t) :
  Canceled_ref (Cancel_refs e) (VMStatus.Ref vm) = false ->
  knownPhase (VMStatus.Phase vm) = false ->
  exists vm' err,
    step e vm = (vm', None)
    /\ VMStatus.Phase vm' = Completed
    /\ VMStatus.Error vm' = Some err
    /\ In "Phase [Completed] unknown" (Error.Reasons err)
    /\ (VMStatus.Error vm = None ->
        Forall (fun s => Step.Error s = None) (VMStatus.Pipeline vm) ->
        Error.Reasons err = ["Phase [Completed] unknown"]).
Proof.
  intros Hc Hk. unfold step. rewrite Hc, (dispatch_unknown e vm Hk).
  set (vm1 := VMStatus.AddError _ _).
  destruct (AddError_In ["Phase [Completed] unknown"] (VMStatus.set_Phase Completed vm)
              "Phase [Completed] unknown") as (err & Herr & Hin); [now left|].
  fold vm1 in Herr.
  destruct (conclude_failed e vm1 err Herr) as (Hph & _ & (more & Hm) & _).
  eexists. eexists. split; [reflexivity|]. split; [exact Hph|]. split; [exact Hm|].
  split. { simpl. apply in_or_app. now left. }
  intros He Hs. rewrite conclude_Error, ReflectPipeline_Error in Hm.
  rewrite reflect_no_errors in Hm by exact Hs.
  rewrite Herr in Hm. injection Hm as Hm. rewrite <- Hm.
  unfold vm1 in Herr. simpl in Herr. rewrite He in Herr. injection Herr as <-. reflexivity.
Qed.

(** C2 at a VM whose phase is "Migrating": the message names [Completed]. *)
Lemma step_unknown_phase_message_witness :
  exists vm' err,
    step Scenario.env0 (Scenario.inPhase "Migrating") = (vm', None)
    /\ VMStatus.Phase vm' = Completed
    /\ VMStatus.Error vm' = Some err
    /\ In "Phase [Completed] unknown" (Error.Reasons err)
    /\ (VMStatus.Error (Scenario.inPhase "Migrating") = None ->
        Forall (fun s => Step.Error s = None)
               (VMStatus.Pipeline (Scenario.inPhase "Migrating")) ->
        Error.Reasons err = ["Phase [Completed] unknown"]).
Proof.
  apply (step_unknown_phase_message Scenario.env0 (Scenario.inPhase "Migrating"));
    reflexivity.
Defined.

Lemma dispatch_hook_no_step e vm pipeline :
  VMStatus.Phase vm = PreHook \/ VMStatus.Phase vm = PostHook ->
  HookRun e vm = (pipeline, None) ->
  VMStatus.FindStep (VMStatus.set_Pipeline pipeline vm) (VMStatus.Phase vm) = None ->
  dispatch e vm
  = (VMStatus.set_Phase Completed (VMStatus.set_Pipeline pipeline vm), Fallthrough).
Proof.
  intros Hp Hr Hf. unfold dispatch. cbv zeta. rewrite Hr. cbv beta iota zeta.
  change (VMStatus.Phase (VMStatus.set_Pipeline pipeline vm)) with (VMStatus.Phase vm).
  rewrite Hf. destruct Hp as [Hp|Hp]; rewrite Hp; reflexivity.
Qed.

(** C9. For a VM that is not canceled, in phase [PreHook] or [PostHook],
    when the hook runner returns no error and the pipeline has no step
    named by the phase, [step] returns no error and sets the phase to
    [Completed]; the switch appends no error (the error list is the VM's
    own, unless a step of the pipeline carries an error, which is then
    reflected), and a VM left with an empty error list is stamped
    [Succeeded]. *)
Theorem step_hook_without_step (e : Env) (vm : VMStatus.t) (pipeline : list Step.t) :
  Canceled_ref (Cancel_refs e) (VMStatus.Ref vm) = false ->
  VMStatus.Phase vm = PreHook \/ VMStatus.Phase vm = PostHook ->
  HookRun e vm = (pipeline, None) ->
  VMStatus.FindStep (VMStatus.set_Pipeline pipeline vm) (VMStatus.Phase vm) = None ->
  exists vm',
    step e vm = (vm', None)
    /\ VMStatus.Phase vm' = Completed
    /\ (Forall (fun s => Step.Error s = None) pipeline ->
        VMStatus.Error vm' = VMStatus.Error vm)
    /\ (VMStatus.Error vm' = None -> VMStatus.HasCondition vm' Succeeded = true).
Proof.
  intros Hc Hp Hr Hf. unfold step. rewrite Hc.
  rewrite (dispatch_hook_no_step e vm pipeline Hp Hr Hf).
  set (vm1 := VMStatus.set_Phase Completed (VMStatus.set_Pipeline pipeline vm)).
  eexists. split; [reflexivity|].
  destruct (VMStatus.Error (VMStatus.ReflectPipeline (ReflectTimed e) vm1)) as [err|] eqn:E.
  - (* an error is reflected from a step *)
    assert (Hcf : VMStatus.Phase (conclude e vm1) = Completed).
    { unfold conclude. rewrite E. reflexivity. }
    split; [exact Hcf|]. split.
    + intros Hs. rewrite conclude_Error, ReflectPipeline_Error.
      change (VMStatus.Pipeline vm1) with pipeline.
      now rewrite (reflect_no_errors pipeline vm1 Hs).
    + rewrite conclude_Error, E. discriminate.
  - destruct (conclude_succeeded e vm1 eq_refl E) as (Hph & He & Hs & _).
    split; [exact Hph|]. split.
    + intros Hs'. rewrite conclude_Error, ReflectPipeline_Error.
      change (VMStatus.Pipeline vm1) with pipeline.
      now rewrite (reflect_no_errors pipeline vm1 Hs').
    + intros _. exact Hs.
Qed.

(** The hypotheses of C9 are met by a VM in phase [PreHook] with an empty
    pipeline. *)
Lemma step_hook_without_step_witness :
  exists vm',
    step Scenario.env0 (Scenario.inPhase PreHook) = (vm', None)
    /\ VMStatus.Phase vm' = Completed
    /\ (Forall (fun s => Step.Error s = None) [] ->
        VMStatus.Error vm' = VMStatus.Error (Scenario.inPhase PreHook))
    /\ (VMStatus.Error vm' = None -> VMStatus.HasCondition vm' Succeeded = true).
Proof.
  apply (step_hook_without_step Scenario.env0 (Scenario.inPhase PreHook) []).
  - reflexivity.
  - left. reflexivity.
  - reflexivity.
  - reflexivity.
Defined.

(** ** Warm imports: the pre-copy intervals *)

Lemma isOpen_true p : isOpen p = true <-> Warm.End p = None.
Proof. unfold isOpen. destruct (Warm.End p); split; congruence. Qed.

Lemma insert_last {A} (pre : list A) (p q : A) :
  <[Nat.pred (length (pre ++ [p])) := q]> (pre ++ [p]) = pre ++ [q].
Proof.
  rewrite length_app. simpl. rewrite Nat.add_1_r. simpl.
  induction pre as [|x tl IH]; simpl; [reflexivity|]. now rewrite IH.
Qed.

Lemma lastClosed_not_open l pre p : lastClosed l -> lastOpen l pre p -> False.
Proof.
  intros [->|(pre' & p' & -> & Hc)] [Heq Ho].
  - now destruct pre.
  - apply app_inj_tail in Heq. destruct Heq as [_ ->]. congruence.
Qed.

Lemma updatePrecopies_step cnd l :
  precopyStep (libcnd.Reason cnd) (libcnd.LastTransitionTime cnd) l (updatePrecopies cnd l).
Proof.
  unfold updatePrecopies.
  destruct (String.eqb_spec (libcnd.Reason cnd) vmio.CopyingStage) as [Hs|Hs].
  - destruct (last l) as [p|] eqn:Hl.
    + apply last_Some in Hl. destruct Hl as [pre ->].
      destruct (Warm.End p) as [t|] eqn:He.
      * apply precopy_opened; [exact Hs|]. right. exists pre, p. split; [reflexivity|].
        unfold isOpen. now rewrite He.
      * apply precopy_unchanged.
        -- intros [_ Hc]. apply (lastClosed_not_open _ pre p Hc).
           split; [reflexivity | now apply isOpen_true].
        -- intros [Hp _]. rewrite Hs in Hp. discriminate.
    + apply last_None in Hl. subst l. apply precopy_opened; [exact Hs | now left].
  - destruct (String.eqb_spec (libcnd.Reason cnd) vmio.CopyingPaused) as [Hp|Hp].
    + destruct (last l) as [p|] eqn:Hl.
      * apply last_Some in Hl. destruct Hl as [pre ->].
        destruct (Warm.End p) as [t|] eqn:He.
        -- apply precopy_unchanged; [tauto|].
           intros [_ (pre' & p' & Heq & Ho)]. apply app_inj_tail in Heq.
           destruct Heq as [_ <-]. apply isOpen_true in Ho. congruence.
        -- rewrite insert_last. apply precopy_closed; [exact Hp | now apply isOpen_true].
      * apply last_None in Hl. subst l. apply precopy_unchanged; [tauto|].
        intros [_ (pre & p & Heq & _)]. now destruct pre.
    + apply precopy_unchanged; tauto.
Qed.

Lemma updateWarmStatus_precopies vm imp :
  precopies (updateWarmStatus vm imp)
  = match libcnd.FindCondition (ImpConditions imp) vmio.Processing with
    | Some cnd => updatePrecopies cnd (precopies vm)
    | None => precopies vm
    end.
Proof.
  unfold updateWarmStatus, precopies. simpl.
  destruct (VMStatus.Warm vm); destruct (libcnd.FindCondition _ _); reflexivity.
Qed.

Lemma precopyStep_onlyLastOpen reason at_ l l' :
  precopyStep reason at_ l l' -> onlyLastOpen l -> onlyLastOpen l'.
Proof.
  intros Hs Hinv. destruct Hs as [l _ Hc | pre p _ _ | l _ _].
  - intros pre' p' Heq. apply app_inj_tail in Heq. destruct Heq as [<- _].
    destruct Hc as [->|(pre & p & -> & Hp)]; [constructor|].
    apply Forall_app. split; [now apply (Hinv pre p) | now repeat constructor].
  - intros pre' p' Heq. apply app_inj_tail in Heq. destruct Heq as [<- _].
    now apply (Hinv pre p).
  - exact Hinv.
Qed.

Lemma onlyLastOpen_count l : onlyLastOpen l -> (openIntervals l <= 1)%nat.
Proof.
  intros Hinv. unfold openIntervals.
  destruct (last l) as [p|] eqn:Hl.
  - apply last_Some in Hl. destruct Hl as [pre ->].
    specialize (Hinv pre p eq_refl). rewrite List.filter_app, length_app.
    replace (List.filter isOpen pre) with (@nil Warm.Precopy).
    + simpl. destruct (isOpen p); simpl; lia.
    + symmetry. induction Hinv as [|q tl Hq _ IH]; simpl; [reflexivity|]. now rewrite Hq.
  - apply last_None in Hl. subst l. simpl. lia.
Qed.

Lemma updateWarmStatus_onlyLastOpen vm imp :
  onlyLastOpen (precopies vm) -> onlyLastOpen (precopies (updateWarmStatus vm imp)).
Proof.
  rewrite updateWarmStatus_precopies.
  destruct (libcnd.FindCondition _ _) as [cnd|]; [|tauto].
  apply precopyStep_onlyLastOpen with (1 := updatePrecopies_step cnd _).
Qed.

(** C8. Starting from a VM with no pre-copy interval recorded (as [begin]
    leaves it), after any sequence of [updateWarmStatus] calls the list of
    pre-copy intervals has at most one open interval.  Each call changes the list only as follows: with
    a [Processing] condition of reason [CopyingStage] it appends an open
    interval starting at the condition's last-transition-time when the
    list is empty or its last interval is closed; with reason
    [CopyingPaused] it sets the end of the last interval to that time when
    that interval is open; in every other case, and without a
    [Processing] condition, the list is unchanged. *)
Theorem updateWarmStatus_precopy_intervals (vm : VMStatus.t) (imps : list VmImport) :
  precopies vm = [] ->
  (openIntervals (precopies (fold_left updateWarmStatus imps vm)) <= 1)%nat
  /\ (forall (vm0 : VMStatus.t) (imp : VmImport),
        match libcnd.FindCondition (ImpConditions imp) vmio.Processing with
        | Some cnd =>
            precopyStep (libcnd.Reason cnd) (libcnd.LastTransitionTime cnd)
                        (precopies vm0) (precopies (updateWarmStatus vm0 imp))
        | None => precopies (updateWarmStatus vm0 imp) = precopies vm0
        end).
Proof.
  intros Hw. split.
  - apply onlyLastOpen_count.
    assert (H0 : onlyLastOpen (precopies vm)).
    { rewrite Hw. intros pre p Heq. now destruct pre. }
    clear Hw. revert vm H0. induction imps as [|imp tl IH]; intros vm H0; simpl.
    + exact H0.
    + apply IH. now apply updateWarmStatus_onlyLastOpen.
  - intros vm0 imp. rewrite updateWarmStatus_precopies.
    destruct (libcnd.FindCondition _ _) as [cnd|]; [|reflexivity].
    apply updatePrecopies_step.
Qed.

(** The hypothesis of C8 is met by a VM that has no warm state yet; the
    sequence is the one of two pre-copies. *)
Lemma updateWarmStatus_precopy_intervals_witness :
  (openIntervals
     (precopies (fold_left updateWarmStatus Scenario.warmImports
                           (Scenario.inPhase ImportCreated))) <= 1)%nat
  /\ (forall (vm0 : VMStatus.t) (imp : VmImport),
        match libcnd.FindCondition (ImpConditions imp) vmio.Processing with
        | Some cnd =>
            precopyStep (libcnd.Reason cnd) (libcnd.LastTransitionTime cnd)
                        (precopies vm0) (precopies (updateWarmStatus vm0 imp))
        | None => precopies (updateWarmStatus vm0 imp) = precopies vm0
        end).
Proof.
  apply (updateWarmStatus_precopy_intervals (Scenario.inPhase ImportCreated)
           Scenario.warmImports).
  reflexivity.
Defined.

(** The two pre-copies of the scenario are recorded as two closed
    intervals. *)
Example warm_interval_tracking :
  precopies (fold_left updateWarmStatus Scenario.warmImports (Scenario.inPhase ImportCreated))
  = [Warm.mkPrecopy (Some 1) (Some 2); Warm.mkPrecopy (Some 3) (Some 4)].
Proof. reflexivity. Qed.

(** ** The end of the migration *)

Lemma countCondition_pos ty vms :
  Nat.ltb 0 (countCondition ty vms) = existsb (fun vm => VMStatus.HasCondition vm ty) vms.
Proof.
  unfold countCondition. induction vms as [|vm tl IH]; simpl; [reflexivity|].
  destruct (VMStatus.HasCondition vm ty); simpl; [reflexivity | exact IH].
Qed.

Lemma Cancel_snapshot e p :
  let '(p', _, _) := Cancel e p in
  Plan.set_VMs (Plan.StatusVMs p) p' = p.
Proof.
  unfold Cancel. destruct p as [spec [timed active hist vms]].
  destruct (Init e); [reflexivity|].
  destruct (cancelVMs e _) as [[vms' deleted] err]. reflexivity.
Qed.

(** The outcome [end] stamps on the snapshot. *)
Lemma stamped_outcome now conds ty msg t :
  ty <> Executing ->
  let conds' := libcnd.SetCondition now (libcnd.DeleteCondition conds [Executing])
                                    (durable ty "" msg) in
  libcnd.HasCondition conds' [ty] = true
  /\ libcnd.FindCondition conds' Executing = None
  /\ (t <> ty -> t <> Executing ->
      libcnd.FindCondition conds' t = libcnd.FindCondition conds t).
Proof.
  intros Hne. cbv zeta. split; [|split].
  - apply (HasCondition_SetCondition_eq now _ (durable ty "" msg)).
  - rewrite FindCondition_SetCondition_ne by (simpl; congruence).
    apply FindCondition_DeleteCondition_in. now left.
  - intros H1 H2. rewrite FindCondition_SetCondition_ne by exact H1.
    apply FindCondition_DeleteCondition_ne. simpl. intuition congruence.
Qed.

Lemma outcome_ne_Executing vms : outcome vms <> Executing.
Proof.
  unfold outcome. destruct (existsb _ vms); [discriminate|].
  destruct (existsb _ vms); discriminate.
Qed.

(** C4. When every VM of the plan status is marked completed, [end]
    reports completed and stamps the active snapshot with the outcome
    (present with status True): [Failed] if a VM has the [Failed]
    condition, else [Succeeded] if a VM has the [Succeeded] condition, else
    [Canceled]; the [Executing] condition is gone from the snapshot, and
    the conditions of every other type are as they were, so the outcome is
    the one condition stamped.  In the [Failed] case the result is the one
    of [Cancel] run on the stamped plan; in the other two cases the VMs
    are untouched and no error is returned.  When some VM is not marked
    completed, [end] reports not completed and changes nothing. *)
Theorem end_outcome (e : Env) (p : Plan.t) :
  let vms := Plan.StatusVMs p in
  let conds := Plan.Conditions (Plan.ActiveSnapshot p) in
  if forallb VMStatus.MarkedCompleted vms then
    exists p' deleted err,
      end_ e p = (p', true, deleted, err)
      /\ libcnd.HasCondition (Plan.Conditions (Plan.ActiveSnapshot p')) [outcome vms] = true
      /\ libcnd.FindCondition (Plan.Conditions (Plan.ActiveSnapshot p')) Executing = None
      /\ (forall t, t <> outcome vms -> t <> Executing ->
            libcnd.FindCondition (Plan.Conditions (Plan.ActiveSnapshot p')) t
            = libcnd.FindCondition conds t)
      /\ (if String.eqb (outcome vms) Failed
          then exists cerr, Cancel e (Plan.set_VMs vms p') = (p', deleted, cerr)
                            /\ err = option_map Err.Wrap cerr
          else Plan.StatusVMs p' = vms /\ deleted = [] /\ err = None)
  else end_ e p = (p, false, [], None).
Proof.
  cbv zeta. unfold end_.
  destruct (forallb VMStatus.MarkedCompleted (Plan.StatusVMs p)) eqn:Hall; simpl;
    [|reflexivity].
  rewrite !countCondition_pos. unfold outcome.
  set (p1 := Plan.set_Timed _ p).
  change (Plan.StatusVMs p1) with (Plan.StatusVMs p).
  change (Plan.Conditions (Plan.ActiveSnapshot p1))
    with (Plan.Conditions (Plan.ActiveSnapshot p)).
  destruct (existsb (fun vm => VMStatus.HasCondition vm Failed) (Plan.StatusVMs p)).
  - (* failed *)
    set (p2 := Plan.set_Active _ p1).
    pose proof (Cancel_snapshot e p2) as Hsnap.
    destruct (Cancel e p2) as [[p' deleted] cerr] eqn:HC.
    change (Plan.StatusVMs p2) with (Plan.StatusVMs p) in Hsnap.
    assert (Hact : Plan.ActiveSnapshot p' = Plan.ActiveSnapshot p2).
    { rewrite <- Hsnap. reflexivity. }
    exists p', deleted, (option_map Err.Wrap cerr). split; [reflexivity|].
    rewrite Hact. unfold p2. simpl.
    destruct (stamped_outcome (now e) (Plan.Conditions (Plan.ActiveSnapshot p)) Failed
                "The plan execution has FAILED." Failed) as (H1 & H2 & _);
      [discriminate|].
    split; [exact H1|]. split; [exact H2|]. split.
    + intros t Ht1 Ht2.
      now apply (stamped_outcome (now e) _ Failed "The plan execution has FAILED." t).
    + exists cerr. split; [|reflexivity]. rewrite Hsnap. exact HC.
  - destruct (existsb (fun vm => VMStatus.HasCondition vm Succeeded) (Plan.StatusVMs p)).
    + eexists _, _, _. split; [reflexivity|]. simpl.
      destruct (stamped_outcome (now e) (Plan.Conditions (Plan.ActiveSnapshot p)) Succeeded
                  "The plan execution has SUCCEEDED." Succeeded) as (H1 & H2 & _);
        [discriminate|].
      split; [exact H1|]. split; [exact H2|]. split; [|repeat split].
      intros t Ht1 Ht2.
      now apply (stamped_outcome (now e) _ Succeeded "The plan execution has SUCCEEDED." t).
    + eexists _, _, _. split; [reflexivity|]. simpl.
      destruct (stamped_outcome (now e) (Plan.Conditions (Plan.ActiveSnapshot p)) Canceled
                  "The plan execution has been CANCELED." Canceled) as (H1 & H2 & _);
        [discriminate|].
      split; [exact H1|]. split; [exact H2|]. split; [|repeat split].
      intros t Ht1 Ht2.
      now apply (stamped_outcome (now e) _ Canceled
                   "The plan execution has been CANCELED." t).
Qed.

(** [end] on the plan of the scenario, one VM succeeded, one failed and
    one canceled: the snapshot is stamped [Failed], [Executing] is gone,
    and the imports of the failed and the canceled VM are deleted. *)
Example end_mixed_outcome :
  let '(p', completed, deleted, err) := end_ Scenario.env0 Scenario.planMixed in
  completed = true
  /\ List.map libcnd.Type_ (Plan.Conditions (Plan.ActiveSnapshot p')) = [Failed]
  /\ length deleted = 2%nat
  /\ err = None.
Proof. vm_compute. repeat split. Qed.

(** ** The itinerary *)

Lemma admissible_free ev n : libitr.admissible ev (libitr.mkStep n 0 0) = true.
Proof. reflexivity. Qed.

Lemma admissible_pre ev n :
  libitr.admissible ev (libitr.mkStep n HasPreHook 0) = ev HasPreHook.
Proof.
  cbv. destruct (ev 1); reflexivity.
Qed.

Lemma admissible_post ev n :
  libitr.admissible ev (libitr.mkStep n HasPostHook 0) = ev HasPostHook.
Proof.
  cbv. destruct (ev 2); reflexivity.
Qed.

(** The itinerary is Started, PreHook if the VM has a pre-hook,
    CreateImport, ImportCreated, PostHook if the VM has a post-hook,
    Completed. *)
Lemma Next_itinerary ev :
  libitr.Next ev itinerary Started
  = libitr.NextStep (if ev HasPreHook then libitr.mkStep PreHook HasPreHook 0
                     else libitr.mkStep CreateImport 0 0)
  /\ libitr.Next ev itinerary PreHook = libitr.NextStep (libitr.mkStep CreateImport 0 0)
  /\ libitr.Next ev itinerary CreateImport = libitr.NextStep (libitr.mkStep ImportCreated 0 0)
  /\ libitr.Next ev itinerary ImportCreated
     = libitr.NextStep (if ev HasPostHook then libitr.mkStep PostHook HasPostHook 0
                        else libitr.mkStep Completed 0 0)
  /\ libitr.Next ev itinerary PostHook = libitr.NextStep (libitr.mkStep Completed 0 0)
  /\ libitr.Next ev itinerary Completed = libitr.NextDone.
Proof.
  unfold libitr.Next, itinerary.
  cbn [libitr.after libitr.ItPipeline libitr.Name String.eqb Ascii.eqb Bool.eqb
       Started PreHook CreateImport ImportCreated PostHook Completed List.find].
  rewrite !admissible_free, ?admissible_pre, ?admissible_post.
  destruct (ev HasPreHook), (ev HasPostHook); repeat split.
Qed.

Lemma First_itinerary ev : libitr.First ev itinerary = Some (libitr.mkStep Started 0 0).
Proof. reflexivity. Qed.

(** ** [buildPipeline] comes to an end *)

Lemma buildLoop_S turns e vm step pipeline :
  buildLoop (S turns) e vm step pipeline
  = match buildEntry e vm (libitr.Name step) pipeline with
    | inr err => Some (pipeline, Some err)
    | inl pipeline =>
        match libitr.Next (Evaluate vm) itinerary (libitr.Name step) with
        | libitr.NextStep nx => buildLoop turns e vm nx pipeline
        | libitr.NextErr => buildLoop turns e vm libitr.zeroStep pipeline
        | libitr.NextDone => Some (pipeline, None)
        end
    end.
Proof. reflexivity. Qed.

Lemma buildLoop_Completed n e vm pipeline :
  exists r, buildLoop (1 + n) e vm (libitr.mkStep Completed 0 0) pipeline = Some r.
Proof.
  simpl plus. rewrite buildLoop_S. cbn [libitr.Name].
  destruct (buildEntry e vm _ pipeline); [|eauto].
  destruct (Next_itinerary (Evaluate vm)) as (_ & _ & _ & _ & _ & ->). eauto.
Qed.

Lemma buildLoop_PostHook n e vm pipeline :
  exists r, buildLoop (2 + n) e vm (libitr.mkStep PostHook HasPostHook 0) pipeline = Some r.
Proof.
  simpl plus. rewrite buildLoop_S. cbn [libitr.Name].
  destruct (buildEntry e vm _ pipeline); [|eauto].
  destruct (Next_itinerary (Evaluate vm)) as (_ & _ & _ & _ & -> & _).
  apply (buildLoop_Completed n).
Qed.

Lemma buildLoop_ImportCreated n e vm pipeline :
  exists r, buildLoop (3 + n) e vm (libitr.mkStep ImportCreated 0 0) pipeline = Some r.
Proof.
  simpl plus. rewrite buildLoop_S. cbn [libitr.Name].
  destruct (buildEntry e vm _ pipeline); [|eauto].
  destruct (Next_itinerary (Evaluate vm)) as (_ & _ & _ & -> & _ & _).
  destruct (Evaluate vm HasPostHook);
    [apply (buildLoop_PostHook n) | apply (buildLoop_Completed (1 + n))].
Qed.

Lemma buildLoop_CreateImport n e vm pipeline :
  exists r, buildLoop (4 + n) e vm (libitr.mkStep CreateImport 0 0) pipeline = Some r.
Proof.
  simpl plus. rewrite buildLoop_S. cbn [libitr.Name].
  destruct (buildEntry e vm _ pipeline); [|eauto].
  destruct (Next_itinerary (Evaluate vm)) as (_ & _ & -> & _ & _ & _).
  apply (buildLoop_ImportCreated n).
Qed.

Lemma buildLoop_PreHook n e vm pipeline :
  exists r, buildLoop (5 + n) e vm (libitr.mkStep PreHook HasPreHook 0) pipeline = Some r.
Proof.
  simpl plus. rewrite buildLoop_S. cbn [libitr.Name].
  destruct (buildEntry e vm _ pipeline); [|eauto].
  destruct (Next_itinerary (Evaluate vm)) as (_ & -> & _ & _ & _ & _).
  apply (buildLoop_CreateImport n).
Qed.

(** The loop of [buildPipeline] breaks within the turns given to it. *)
Lemma buildPipeline_returns e vm : exists r, buildPipeline e vm = Some r.
Proof.
  unfold buildPipeline. rewrite First_itinerary. simpl default. simpl length.
  rewrite buildLoop_S. cbn [libitr.Name].
  destruct (buildEntry e vm _ []); [|eauto].
  destruct (Next_itinerary (Evaluate vm)) as (-> & _ & _ & _ & _ & _).
  destruct (Evaluate vm HasPreHook);
    [apply (buildLoop_PreHook 1) | apply (buildLoop_CreateImport 2)].
Qed.

(** ** [begin] and the VMs of the plan *)

Lemma findIndex_Some id l i :
  Plan.findIndex id l = Some i -> exists s, l !! i = Some s /\ VMStatus.ID s = id.
Proof.
  revert i. induction l as [|x tl IH]; intros i; simpl; [discriminate|].
  destruct (String.eqb_spec (VMStatus.ID x) id) as [Hx|Hx].
  - intros [= <-]. exists x. split; [reflexivity | exact Hx].
  - destruct (Plan.findIndex id tl) as [j|]; simpl; [|discriminate].
    intros [= <-]. exact (IH j eq_refl).
Qed.

Lemma map_insert_same {A B} (f : A -> B) (l : list A) i x y :
  l !! i = Some y -> f x = f y -> List.map f (<[i := x]> l) = List.map f l.
Proof.
  revert i. induction l as [|z tl IH]; intros i Hl Hf; [reflexivity|].
  destruct i as [|i]; simpl in *.
  - injection Hl as ->. now rewrite Hf.
  - f_equal. now apply IH.
Qed.

Lemma map_eq_lookup {A B} (f : A -> B) (l l' : list A) i x :
  List.map f l' = List.map f l -> l !! i = Some x ->
  exists x', l' !! i = Some x' /\ f x' = f x.
Proof.
  revert l' i. induction l as [|z tl IH]; intros l' i Hm Hl; [discriminate|].
  destruct l' as [|z' tl']; [discriminate|]. simpl in Hm. injection Hm as Hz Htl.
  destruct i as [|i]; simpl in *.
  - injection Hl as ->. exists z'. split; [reflexivity | exact Hz].
  - now apply IH.
Qed.

Lemma slotFor_stable kept kept' slot vm :
  List.map VMStatus.ID kept' = List.map VMStatus.ID kept ->
  slotFor kept slot vm -> slotFor kept' slot vm.
Proof.
  intros Hm (s & Hs & Hid). destruct slot as [i|status]; simpl in *.
  - destruct (map_eq_lookup VMStatus.ID kept kept' i s Hm Hs) as (s' & Hs' & Hid').
    exists s'. split; [exact Hs' | congruence].
  - exists s. split; [exact Hs | exact Hid].
Qed.

Lemma resetStatus_ID pipeline phase status :
  VMStatus.ID (resetStatus pipeline phase status) = VMStatus.ID status.
Proof. reflexivity. Qed.

Lemma putSlot_ok kept slot vm s status kept' slot' :
  slotStatus kept slot = Some s ->
  VMStatus.ID s = Ref.ID (VM.Ref vm) ->
  VMStatus.ID status = VMStatus.ID s ->
  putSlot kept slot status = (kept', slot') ->
  List.map VMStatus.ID kept' = List.map VMStatus.ID kept /\ slotFor kept' slot' vm.
Proof.
  intros Hs Hid Hst Hput. destruct slot as [i|st]; simpl in *; injection Hput as <- <-.
  - split; [now apply map_insert_same with (y := s)|].
    exists status. split; [|congruence]. simpl.
    apply list_lookup_insert_eq. now apply lookup_lt_Some with (x := s).
  - split; [reflexivity|]. exists status. split; [reflexivity | congruence].
Qed.

Lemma beginVM_returns e kept vm : exists r, beginVM e kept vm = Some r.
Proof.
  unfold beginVM. destruct (slotStatus kept _) as [status|]; [|eauto].
  destruct (negb _ || _); [|eauto].
  destruct (buildPipeline_returns e vm) as [[pipeline [err|]] ->]; [eauto|].
  destruct (putSlot kept _ _). eauto.
Qed.

Lemma beginVM_ok e kept vm kept' slot :
  beginVM e kept vm = Some (kept', inl slot) ->
  List.map VMStatus.ID kept' = List.map VMStatus.ID kept /\ slotFor kept' slot vm.
Proof.
  unfold beginVM.
  set (slot0 := match Plan.StatusFindVM kept (VM.Ref vm) with
                | Some i => Kept i
                | None => New (VMStatus.fresh vm)
                end).
  assert (H0 : slotStatus kept slot0 = None \/ slotFor kept slot0 vm).
  { unfold slot0, Plan.StatusFindVM.
    destruct (Plan.findIndex _ kept) as [i|] eqn:Hf.
    - right. destruct (findIndex_Some _ _ _ Hf) as (s & Hs & Hid). now exists s.
    - right. exists (VMStatus.fresh vm). split; reflexivity. }
  destruct (slotStatus kept slot0) as [status|] eqn:Hs.
  - destruct H0 as [H0|(s & Hs' & Hid)]; [discriminate|].
    rewrite Hs in Hs'. injection Hs' as ->.
    destruct (negb _ || _).
    + destruct (buildPipeline e vm) as [[pipeline [err|]]|]; try discriminate.
      destruct (putSlot kept slot0 _) as [k sl] eqn:Hput. intros [= <- <-].
      apply (putSlot_ok kept slot0 vm s _ k sl Hs Hid (resetStatus_ID _ _ _) Hput).
    + intros [= <- <-]. split; [reflexivity|]. now exists s.
  - intros [= <- <-]. split; [reflexivity|].
    destruct H0 as [H0|(s & Hs' & _)]; [|congruence].
    unfold slot0, Plan.StatusFindVM in Hs.
    destruct (Plan.findIndex _ kept) as [i|] eqn:Hf; [|discriminate].
    destruct (findIndex_Some _ _ _ Hf) as (s & Hs' & _). simpl in Hs. congruence.
Qed.

Lemma beginVMs_returns e vms kept added : exists r, beginVMs e kept vms added = Some r.
Proof.
  revert kept added. induction vms as [|vm tl IH]; intros kept added; simpl; [eauto|].
  destruct (beginVM_returns e kept vm) as [[kept1 [slot|err]] ->]; [apply IH | eauto].
Qed.

Lemma beginVMs_ok e vms kept added done kept' added' :
  beginVMs e kept vms added = Some (kept', inl added') ->
  Forall2 (slotFor kept) added done ->
  Forall2 (slotFor kept') added' (done ++ vms).
Proof.
  revert kept added done. induction vms as [|vm tl IH]; intros kept added done; simpl.
  - intros [= <- <-]. now rewrite app_nil_r.
  - destruct (beginVM e kept vm) as [[kept1 [slot|err]]|] eqn:Hb; try discriminate.
    destruct (beginVM_ok _ _ _ _ _ Hb) as [Hm Hslot].
    intros Hrec Hdone.
    replace (done ++ vm :: tl) with ((done ++ [vm]) ++ tl) by now rewrite <- app_assoc.
    apply (IH kept1 (added ++ [slot]) (done ++ [vm]) Hrec).
    apply Forall2_app; [|now repeat constructor].
    eapply Forall2_impl; [exact Hdone|].
    intros sl v Hsl. now apply slotFor_stable with (kept := kept).
Qed.

Lemma slots_IDs kept added vms :
  Forall2 (slotFor kept) added vms ->
  List.map VMStatus.ID (omap (slotStatus kept) added)
  = List.map (fun vm => Ref.ID (VM.Ref vm)) vms.
Proof.
  induction 1 as [|slot vm added vms (s & Hs & Hid) _ IH]; [reflexivity|].
  change (omap (slotStatus kept) (slot :: added))
    with (match slotStatus kept slot with
          | Some y => y :: omap (slotStatus kept) added
          | None => omap (slotStatus kept) added
          end).
  rewrite Hs. cbn [List.map]. now rewrite IH, Hid.
Qed.

(** [begin] always comes to an end. *)
Lemma begin_returns e p : exists r, begin e p = Some r.
Proof.
  unfold begin. destruct (libcnd.HasAnyCondition _ _); [eauto|].
  destruct (EnsureNamespace e); [eauto|].
  destruct (resolveRefs e _) as [vms [err|]]; [eauto|].
  match goal with
  | |- context [beginVMs e ?k ?v ?a] =>
      destruct (beginVMs_returns e v k a) as [[kept [added|err]] ->]
  end; eauto.
Qed.

(** C3 (as the code has it). [begin] always returns.  When the active
    snapshot carries none of the conditions [Executing], [Succeeded],
    [Failed], [Canceled] and [begin] returns no error, the status list of
    the plan holds exactly one VM status per VM of the plan spec, in the
    order of the spec: the list of the VM identifiers of the statuses is
    the list of the VM identifiers of the spec.  When the snapshot carries
    one of those conditions, [begin] returns no error and leaves the plan,
    and so the status list, as it is. *)
Theorem begin_statuses_follow_spec (e : Env) (p : Plan.t) :
  if libcnd.HasAnyCondition (Plan.Conditions (Plan.ActiveSnapshot p))
                            [Executing; Succeeded; Failed; Canceled]
  then begin e p = Some (p, None)
  else
    exists p' err,
      begin e p = Some (p', err)
      /\ (err = None ->
          List.map VMStatus.ID (Plan.StatusVMs p')
          = List.map (fun vm => Ref.ID (VM.Ref vm)) (Plan.SpecVMs p)).
Proof.
  unfold begin. destruct (libcnd.HasAnyCondition _ _); [reflexivity|].
  destruct (EnsureNamespace e) as [err|].
  { eexists _, _. split; [reflexivity | discriminate]. }
  destruct (resolveRefs e _) as [vms [err|]].
  { eexists _, _. split; [reflexivity | discriminate]. }
  match goal with
  | |- context [beginVMs e ?k ?v ?a] =>
      destruct (beginVMs_returns e v k a) as [[kept [added|err]] Hb]; rewrite Hb
  end.
  - eexists _, _. split; [reflexivity|]. intros _.
    apply (beginVMs_ok e _ _ [] [] kept added) in Hb; [|constructor].
    simpl in Hb. destruct p as [spec [timed active hist vms0]]. simpl in *.
    now apply slots_IDs.
  - eexists _, _. split; [reflexivity | discriminate].
Qed.

(** C3 at the plan of the scenario, never executed: its snapshot carries
    no condition. *)
Lemma begin_statuses_follow_spec_witness :
  exists p' err,
    begin Scenario.env0 Scenario.plan0 = Some (p', err)
    /\ (err = None ->
        List.map VMStatus.ID (Plan.StatusVMs p')
        = List.map (fun vm => Ref.ID (VM.Ref vm)) (Plan.SpecVMs Scenario.plan0)).
Proof.
  exact (begin_statuses_follow_spec Scenario.env0 Scenario.plan0).
Defined.

(** C3 (as stated) fails.  A first [begin] stamps the snapshot [Executing]
    and then fails to create the namespace; on the plan it leaves, the
    next [begin] returns no error at once, and the status list is empty
    while the spec lists a VM. *)
Lemma begin_statuses_counterexample :
  begin Scenario.envNoNamespace Scenario.plan0
  = Some (Scenario.planStuck, Some (Err.Other "namespaces is forbidden"))
  /\ begin Scenario.env0 Scenario.planStuck = Some (Scenario.planStuck, None)
  /\ Plan.StatusVMs Scenario.planStuck = []
  /\ Plan.SpecVMs Scenario.planStuck = [Scenario.vm1].
Proof. repeat split. Qed.

(** ** Status derivation: the [DiskTransfer] step *)

Lemma Step_findIndex_lookup name l i :
  Step.findIndex name l = Some i -> exists t, l !! i = Some t /\ Task.Name t = name.
Proof.
  revert i. induction l as [|x tl IH]; intros i; simpl; [discriminate|].
  destruct (String.eqb_spec (Task.Name x) name) as [Hx|Hx].
  - intros [= <-]. exists x. split; [reflexivity | exact Hx].
  - destruct (Step.findIndex name tl) as [j|]; simpl; [|discriminate].
    intros [= <-]. exact (IH j eq_refl).
Qed.

Lemma Step_findIndex_names name l l' :
  List.map Task.Name l' = List.map Task.Name l ->
  Step.findIndex name l' = Step.findIndex name l.
Proof.
  revert l'. induction l as [|x tl IH]; intros [|x' tl'] H; try discriminate; [reflexivity|].
  simpl in *. injection H as Hx Htl. now rewrite Hx, (IH tl' Htl).
Qed.

Lemma FindTask_findIndex st name :
  Step.FindTask st name
  = match Step.findIndex name (Step.Tasks st) with
    | Some i => option_map (fun x => (i, x)) (Step.Tasks st !! i)
    | None => None
    end.
Proof. reflexivity. Qed.

Lemma FindTask_Some st name i task :
  Step.FindTask st name = Some (i, task) ->
  Step.findIndex name (Step.Tasks st) = Some i /\ Step.Tasks st !! i = Some task.
Proof.
  rewrite FindTask_findIndex. destruct (Step.findIndex _ _) as [j|]; [|discriminate].
  destruct (Step.Tasks st !! j) as [t|] eqn:E; simpl; [|discriminate].
  intros [= <- <-]. split; [reflexivity | exact E].
Qed.

(** What one turn of the [nextDv] loop does to the step and the counters. *)
Lemma updateDv_tally e st n dv :
  let '(st', n') := updateDv e (st, n) dv in
  Step.Task st' = Step.Task st
  /\ List.map Task.Name (Step.Tasks st') = List.map Task.Name (Step.Tasks st)
  /\ tasksBlocked n'
     = (tasksBlocked n + if dvBlocks e (Step.Tasks st) dv then 1 else 0)%nat
  /\ tasksCompleted n'
     = (tasksCompleted n + if dvCompletes e (Step.Tasks st) dv then 1 else 0)%nat
  /\ tasksRunning n'
     = (tasksRunning n + if dvRuns e (Step.Tasks st) dv then 1 else 0)%nat.
Proof.
  unfold updateDv, dvCompletes, dvRuns, dvBlocks.
  destruct (Step.FindTask st _) as [[i task]|] eqn:Hf.
  - destruct (FindTask_Some _ _ _ _ Hf) as [Hi Ht]. rewrite Hi.
    assert (Hn : forall t', Task.Name t' = Task.Name task ->
                 List.map Task.Name (Step.Tasks (putTask i t' st))
                 = List.map Task.Name (Step.Tasks st)).
    { intros t' Hname. simpl. now apply map_insert_same with (y := task). }
    destruct (boundFalse (DvConditions dv)) as [cnd|]; simpl.
    + repeat split; [now apply Hn | lia..].
    + destruct (libcnd.FindCondition (DvConditions dv) "Running") as [cnd|]; simpl.
      * destruct (libcnd.HasCondition (DvConditions dv) ["Ready"]); simpl;
          (repeat split; [now apply Hn | lia..]).
      * repeat split; lia.
  - rewrite FindTask_findIndex in Hf.
    destruct (Step.findIndex _ (Step.Tasks st)) as [i|] eqn:Hi.
    + destruct (Step_findIndex_lookup _ _ _ Hi) as (t & Ht & _). rewrite Ht in Hf.
      discriminate.
    + simpl. repeat split; lia.
Qed.

Lemma count_names {A} (f g : A -> bool) (l : list A) :
  (forall x, f x = g x) -> count f l = count g l.
Proof.
  intros H. unfold count. induction l as [|x tl IH]; simpl; [reflexivity|].
  rewrite H. destruct (g x); simpl; now rewrite IH.
Qed.

Lemma updateDvs_tally e dvs st n :
  let '(st', n') := fold_left (updateDv e) dvs (st, n) in
  Step.Task st' = Step.Task st
  /\ List.map Task.Name (Step.Tasks st') = List.map Task.Name (Step.Tasks st)
  /\ tasksBlocked n' = (tasksBlocked n + count (dvBlocks e (Step.Tasks st)) dvs)%nat
  /\ tasksCompleted n' = (tasksCompleted n + count (dvCompletes e (Step.Tasks st)) dvs)%nat
  /\ tasksRunning n' = (tasksRunning n + count (dvRuns e (Step.Tasks st)) dvs)%nat.
Proof.
  revert st n. induction dvs as [|dv tl IH]; intros st n; cbn [fold_left].
  - unfold count. simpl. repeat split; lia.
  - pose proof (updateDv_tally e st n dv) as H1.
    destruct (updateDv e (st, n) dv) as [st1 n1].
    destruct H1 as (Ht & Hn & Hb & Hc & Hr).
    specialize (IH st1 n1). destruct (fold_left (updateDv e) tl (st1, n1)) as [st' n'].
    destruct IH as (Ht' & Hl' & Hb' & Hc' & Hr').
    assert (Hcount : forall (f : Env -> list Task.t -> DataVolume -> bool),
               (forall dv0, f e (Step.Tasks st1) dv0 = f e (Step.Tasks st) dv0) ->
               count (f e (Step.Tasks st)) (dv :: tl)
               = ((if f e (Step.Tasks st) dv then 1 else 0)
                  + count (f e (Step.Tasks st1)) tl)%nat).
    { intros f Hf. rewrite (count_names _ _ tl Hf). unfold count. simpl.
      destruct (f e (Step.Tasks st) dv); reflexivity. }
    assert (Hidx : forall name, Step.findIndex name (Step.Tasks st1)
                                = Step.findIndex name (Step.Tasks st)).
    { intros name. now apply Step_findIndex_names. }
    cbv beta iota. split; [congruence|]. split; [congruence|].
    split; [|split].
    + rewrite (Hcount dvBlocks); [lia|]. intros dv0. unfold dvBlocks. now rewrite Hidx.
    + rewrite (Hcount dvCompletes); [lia|].
      intros dv0. unfold dvCompletes, dvRuns. now rewrite Hidx.
    + rewrite (Hcount dvRuns); [lia|]. intros dv0. unfold dvRuns. now rewrite Hidx.
Qed.

Lemma updateDiskTransfer_Phase e imp step :
  Step.Phase (updateDiskTransfer e imp step)
  = if Nat.eqb (count (dvCompletes e (Step.Tasks step)) (DataVolumes imp))
               (length (Step.Tasks step)) then Completed
    else if Nat.ltb 0 (count (dvBlocks e (Step.Tasks step)) (DataVolumes imp)) then Blocked
    else if Nat.ltb 0 (count (dvRuns e (Step.Tasks step)) (DataVolumes imp)) then Running
    else Step.Phase step.
Proof.
  unfold updateDiskTransfer.
  pose proof (updateDvs_tally e (DataVolumes imp) step (mkTally 0 0 0)) as H.
  destruct (fold_left (updateDv e) (DataVolumes imp) (step, mkTally 0 0 0)) as [st n].
  destruct H as (Ht & Hl & Hb & Hc & Hr). simpl in Hb, Hc, Hr.
  apply (f_equal (@length string)) in Hl. rewrite !length_map in Hl.
  rewrite Hb, Hc, Hr, Hl.
  assert (Hp : Step.Phase st = Step.Phase step) by (unfold Step.Phase; now rewrite Ht).
  repeat match goal with |- context [if ?b then _ else _] => destruct b end;
    try reflexivity; exact Hp.
Qed.

Lemma AddError_reflect_Phase (l : list Task.t) (r : Step.t) :
  Step.Phase (fold_left (fun r x => match Task.Error x with
                                    | Some e => Step.AddError (Error.Reasons e) r
                                    | None => r
                                    end) l r) = Step.Phase r
  /\ Step.Tasks (fold_left (fun r x => match Task.Error x with
                                       | Some e => Step.AddError (Error.Reasons e) r
                                       | None => r
                                       end) l r) = Step.Tasks r.
Proof.
  revert r. induction l as [|x tl IH]; intros r; simpl; [split; reflexivity|].
  destruct (IH (match Task.Error x with
                | Some e => Step.AddError (Error.Reasons e) r
                | None => r
                end)) as [H1 H2].
  rewrite H1, H2. destruct (Task.Error x); split; reflexivity.
Qed.

Lemma ReflectTasks_Phase now step :
  Step.Phase (Step.ReflectTasks now step) = Step.Phase step.
Proof.
  unfold Step.ReflectTasks. destruct (Step.Tasks step) as [|t tl] eqn:Ht; [reflexivity|].
  rewrite <- Ht.
  match goal with
  | |- context [fold_left ?f (Step.Tasks step) step] =>
      destruct (AddError_reflect_Phase (Step.Tasks step) step) as [H1 H2];
      set (r := fold_left f (Step.Tasks step) step) in *
  end.
  repeat match goal with |- context [if ?b then _ else _] => destruct b end;
    simpl; exact H1.
Qed.

Lemma Timed_MarkStarted_Completed now r :
  Timed.Completed (Timed.MarkStarted now r) = Timed.Completed r.
Proof. unfold Timed.MarkStarted. now destruct (Timed.Started r). Qed.

Lemma Timed_MarkCompleted_marked now r :
  Timed.MarkedCompleted (Timed.MarkCompleted now r) = true.
Proof.
  unfold Timed.MarkCompleted, Timed.MarkedCompleted.
  destruct (Timed.Completed (Timed.MarkStarted now r)) eqn:E; simpl; rewrite ?E;
    reflexivity.
Qed.

(** A data volume that completes its task: the task found for it gets
    [completed = total] and is marked completed, and both counters of
    running and of completed tasks go up by one. *)
Lemma updateDv_ready e st n dv i task cnd :
  Step.FindTask st (ResolveDataVolumeIdentifier e dv) = Some (i, task) ->
  boundFalse (DvConditions dv) = None ->
  libcnd.FindCondition (DvConditions dv) "Running" = Some cnd ->
  libcnd.HasCondition (DvConditions dv) ["Ready"] = true ->
  exists task',
    updateDv e (st, n) dv
    = (putTask i task' st,
       mkTally (tasksBlocked n) (S (tasksCompleted n)) (S (tasksRunning n)))
    /\ Step.Tasks (putTask i task' st) !! i = Some task'
    /\ libitr.Completed (Task.Progress task') = libitr.Total (Task.Progress task)
    /\ libitr.Total (Task.Progress task') = libitr.Total (Task.Progress task)
    /\ Task.MarkedCompleted task' = true
    /\ Task.Name task' = Task.Name task.
Proof.
  intros Hf Hb Hr Hy. unfold updateDv. rewrite Hf, Hb, Hr, Hy.
  eexists. split; [reflexivity|].
  destruct (FindTask_Some _ _ _ _ Hf) as [_ Ht].
  split. { simpl. apply list_lookup_insert_eq. now apply lookup_lt_Some with (x := task). }
  split; [reflexivity|]. split; [reflexivity|]. split; [|reflexivity].
  unfold Task.MarkedCompleted, Task.MarkCompleted. simpl. apply Timed_MarkCompleted_marked.
Qed.

(** A task marked completed stays so through a turn of the loop. *)
Lemma updateDv_keeps_completed e st n dv j t :
  Step.Tasks st !! j = Some t -> Task.MarkedCompleted t = true ->
  exists t', Step.Tasks (fst (updateDv e (st, n) dv)) !! j = Some t'
             /\ Task.MarkedCompleted t' = true.
Proof.
  intros Hj Hc. unfold updateDv.
  destruct (Step.FindTask st _) as [[i task]|] eqn:Hf; [|now exists t].
  destruct (FindTask_Some _ _ _ _ Hf) as [_ Ht].
  assert (Hput : forall task', (i = j -> Task.MarkedCompleted task' = true) ->
             exists t', Step.Tasks (putTask i task' st) !! j = Some t'
                        /\ Task.MarkedCompleted t' = true).
  { intros task' Hm. simpl. destruct (Nat.eq_dec i j) as [->|Hne].
    - exists task'. split; [|now apply Hm].
      apply list_lookup_insert_eq. now apply lookup_lt_Some with (x := t).
    - exists t. split; [|exact Hc]. now rewrite list_lookup_insert_ne. }
  assert (Hkeep : i = j -> Timed.MarkedCompleted
                             (Timed.MarkStarted (now e) (Task.Timed task)) = true).
  { intros ->. rewrite Ht in Hj. injection Hj as ->.
    unfold Timed.MarkedCompleted. rewrite Timed_MarkStarted_Completed. exact Hc. }
  destruct (boundFalse (DvConditions dv)) as [cnd|].
  - simpl. apply Hput. intros ->. rewrite Ht in Hj. injection Hj as ->. exact Hc.
  - destruct (libcnd.FindCondition (DvConditions dv) "Running") as [cnd|];
      [|now exists t].
    destruct (libcnd.HasCondition (DvConditions dv) ["Ready"]); simpl; apply Hput.
    + intros _. unfold Task.MarkedCompleted, Task.MarkCompleted. simpl.
      apply Timed_MarkCompleted_marked.
    + exact Hkeep.
Qed.

Lemma updateDvs_keep_completed e dvs st n j t :
  Step.Tasks st !! j = Some t -> Task.MarkedCompleted t = true ->
  exists t', Step.Tasks (fst (fold_left (updateDv e) dvs (st, n))) !! j = Some t'
             /\ Task.MarkedCompleted t' = true.
Proof.
  revert st n t. induction dvs as [|dv tl IH]; intros st n t Hj Hc; cbn [fold_left].
  - now exists t.
  - destruct (updateDv_keeps_completed e st n dv j t Hj Hc) as (t1 & Hj1 & Hc1).
    destruct (updateDv e (st, n) dv) as [st1 n1]. now apply (IH st1 n1 t1).
Qed.

(** A data volume of the import that completes a task of the step leaves
    that task marked completed at the end of the loop. *)
Lemma updateDvs_completes e pre dv post st n i :
  Step.findIndex (ResolveDataVolumeIdentifier e dv) (Step.Tasks st) = Some i ->
  dvCompletes e (Step.Tasks st) dv = true ->
  exists t', Step.Tasks (fst (fold_left (updateDv e) (pre ++ dv :: post) (st, n))) !! i
             = Some t'
             /\ Task.MarkedCompleted t' = true.
Proof.
  intros Hi Hc. rewrite fold_left_app. cbn [fold_left].
  pose proof (updateDvs_tally e pre st n) as Hpre.
  destruct (fold_left (updateDv e) pre (st, n)) as [st1 n1].
  destruct Hpre as (_ & Hn1 & _).
  rewrite <- (Step_findIndex_names _ _ _ Hn1) in Hi.
  destruct (Step_findIndex_lookup _ _ _ Hi) as (task & Ht & _).
  assert (Hf : Step.FindTask st1 (ResolveDataVolumeIdentifier e dv) = Some (i, task)).
  { rewrite FindTask_findIndex, Hi, Ht. reflexivity. }
  unfold dvCompletes, dvRuns in Hc.
  apply andb_prop in Hc. destruct Hc as [Hc Hy].
  apply andb_prop in Hc. destruct Hc as [Hc Hr].
  apply andb_prop in Hc. destruct Hc as [_ Hb].
  assert (Hb' : boundFalse (DvConditions dv) = None).
  { destruct (boundFalse (DvConditions dv)); [|reflexivity].
    rewrite bool_decide_eq_true_2 in Hb by eauto. discriminate. }
  apply bool_decide_eq_true_1 in Hr. destruct Hr as [cnd Hr].
  destruct (updateDv_ready e st1 n1 dv i task cnd Hf Hb' Hr Hy)
    as (task' & -> & Hl & _ & _ & Hm & _).
  now apply (updateDvs_keep_completed e post _ _ i task').
Qed.

Lemma ReflectTasks_Tasks now step :
  Step.Tasks (Step.ReflectTasks now step) = Step.Tasks step.
Proof.
  unfold Step.ReflectTasks. destruct (Step.Tasks step) as [|t tl] eqn:Ht; [exact Ht|].
  rewrite <- Ht.
  match goal with
  | |- context [fold_left ?f (Step.Tasks step) step] =>
      destruct (AddError_reflect_Phase (Step.Tasks step) step) as [H1 H2];
      set (r := fold_left f (Step.Tasks step) step) in *
  end.
  repeat match goal with |- context [if ?b then _ else _] => destruct b end;
    simpl; exact H2.
Qed.

Lemma updateStep_DiskTransfer e imp vm step :
  Step.MarkedCompleted step = false ->
  Step.Name step = DiskTransfer ->
  snd (updateStep e imp vm step) = Step.ReflectTasks (now e) (updateDiskTransfer e imp step).
Proof.
  intros Hm Hn. unfold updateStep. rewrite Hm, Hn. cbn [String.eqb Ascii.eqb Bool.eqb DiskTransfer].
  cbv beta iota zeta.
  destruct (Step.Error (Step.ReflectTasks (now e) (updateDiskTransfer e imp step)));
    reflexivity.
Qed.

Lemma updateDiskTransfer_Tasks e imp step :
  Step.Tasks (updateDiskTransfer e imp step)
  = Step.Tasks (fst (fold_left (updateDv e) (DataVolumes imp) (step, mkTally 0 0 0))).
Proof.
  unfold updateDiskTransfer.
  destruct (fold_left (updateDv e) (DataVolumes imp) (step, mkTally 0 0 0)) as [st n].
  repeat match goal with |- context [if ?b then _ else _] => destruct b end; reflexivity.
Qed.

(** A data volume that is not bound, or that is not running, completes
    no task, whatever its [Ready] condition. *)
Lemma updateDv_not_ready e st n dv :
  is_Some (boundFalse (DvConditions dv))
  \/ libcnd.FindCondition (DvConditions dv) "Running" = None ->
  dvCompletes e (Step.Tasks st) dv = false
  /\ tasksCompleted (snd (updateDv e (st, n) dv)) = tasksCompleted n
  /\ List.map (fun t => (Task.Timed t, Task.Progress t))
              (Step.Tasks (fst (updateDv e (st, n) dv)))
     = List.map (fun t => (Task.Timed t, Task.Progress t)) (Step.Tasks st).
Proof.
  intros H. split.
  { unfold dvCompletes, dvRuns.
    destruct H as [[c Hc] | Hr]; [rewrite Hc | rewrite Hr]; simpl;
      now rewrite ?andb_false_r. }
  unfold updateDv.
  destruct (Step.FindTask st (ResolveDataVolumeIdentifier e dv)) as [[i task]|] eqn:Ef;
    [|split; reflexivity].
  apply FindTask_Some in Ef as [_ Hi]. cbv zeta.
  destruct (boundFalse (DvConditions dv)) as [cnd|] eqn:Eb.
  { split; [reflexivity|]. cbn [fst putTask Step.Tasks Step.set_Tasks].
    now apply (map_insert_same _ _ i _ task). }
  destruct H as [[c Hc] | Hr]; [discriminate|]. rewrite Hr. split; reflexivity.
Qed.

(** C7 (as the code has it). When [updatePipeline] processes a
    [DiskTransfer] step that is not yet completed:
    - the phase of the step becomes [Completed] if the number of data
      volumes that complete a task equals the number of tasks of the step,
      else [Blocked] if a data volume blocks a task, else [Running] if a
      data volume runs a task, else it is left as it was;
    - a task completed by a data volume of the import is marked completed
      when the step has been processed;
    - in the loop, a data volume matched to a task, whose [Bound] condition
      is not False, that has a [Running] condition and whose [Ready]
      condition is True, sets the task's [completed] to its [total], marks
      it completed and counts it as running and completed;
    - a data volume whose [Bound] condition is False, or that has no
      [Running] condition, completes no task, also when its [Ready]
      condition is True: it is not counted as completing, and it changes
      the progress and the time stamps of no task. *)
Theorem updatePipeline_DiskTransfer (e : Env) (imp : VmImport) (vm : VMStatus.t)
  (step : Step.t) :
  Step.MarkedCompleted step = false ->
  Step.Name step = DiskTransfer ->
  let step' := snd (updateStep e imp vm step) in
  let dvs := DataVolumes imp in
  let tasks := Step.Tasks step in
  Step.Phase step'
  = (if Nat.eqb (count (dvCompletes e tasks) dvs) (length tasks) then Completed
     else if Nat.ltb 0 (count (dvBlocks e tasks) dvs) then Blocked
     else if Nat.ltb 0 (count (dvRuns e tasks) dvs) then Running
     else Step.Phase step)
  /\ (forall dv i,
        In dv dvs ->
        Step.findIndex (ResolveDataVolumeIdentifier e dv) tasks = Some i ->
        dvCompletes e tasks dv = true ->
        exists task', Step.Tasks step' !! i = Some task'
                      /\ Task.MarkedCompleted task' = true)
  /\ (forall st n dv i task cnd,
        Step.FindTask st (ResolveDataVolumeIdentifier e dv) = Some (i, task) ->
        boundFalse (DvConditions dv) = None ->
        libcnd.FindCondition (DvConditions dv) "Running" = Some cnd ->
        libcnd.HasCondition (DvConditions dv) ["Ready"] = true ->
        exists task',
          updateDv e (st, n) dv
          = (putTask i task' st,
             mkTally (tasksBlocked n) (S (tasksCompleted n)) (S (tasksRunning n)))
          /\ Step.Tasks (putTask i task' st) !! i = Some task'
          /\ libitr.Completed (Task.Progress task') = libitr.Total (Task.Progress task)
          /\ libitr.Total (Task.Progress task') = libitr.Total (Task.Progress task)
          /\ Task.MarkedCompleted task' = true
          /\ Task.Name task' = Task.Name task)
  /\ (forall st n dv,
        is_Some (boundFalse (DvConditions dv))
        \/ libcnd.FindCondition (DvConditions dv) "Running" = None ->
        dvCompletes e (Step.Tasks st) dv = false
        /\ tasksCompleted (snd (updateDv e (st, n) dv)) = tasksCompleted n
        /\ List.map (fun t => (Task.Timed t, Task.Progress t))
                    (Step.Tasks (fst (updateDv e (st, n) dv)))
           = List.map (fun t => (Task.Timed t, Task.Progress t)) (Step.Tasks st)).
Proof.
  intros Hm Hn. cbv zeta. rewrite (updateStep_DiskTransfer e imp vm step Hm Hn).
  split; [|split; [|split]].
  - rewrite ReflectTasks_Phase. apply updateDiskTransfer_Phase.
  - intros dv i Hin Hi Hc. rewrite ReflectTasks_Tasks, updateDiskTransfer_Tasks.
    apply in_split in Hin. destruct Hin as (pre & post & ->).
    now apply updateDvs_completes.
  - intros st n dv i task cnd. apply updateDv_ready.
  - intros st n dv. apply updateDv_not_ready.
Qed.

(** The hypotheses of C7 are met by the [DiskTransfer] step of the
    scenario and the import whose data volume is bound, running and
    ready. *)
Lemma updatePipeline_DiskTransfer_witness :
  let e := Scenario.env0 in
  let step := Scenario.stepDisk in
  let step' := snd (updateStep e Scenario.impDone Scenario.vmDisk step) in
  let dvs := DataVolumes Scenario.impDone in
  let tasks := Step.Tasks step in
  Step.Phase step'
  = (if Nat.eqb (count (dvCompletes e tasks) dvs) (length tasks) then Completed
     else if Nat.ltb 0 (count (dvBlocks e tasks) dvs) then Blocked
     else if Nat.ltb 0 (count (dvRuns e tasks) dvs) then Running
     else Step.Phase step)
  /\ (forall dv i,
        In dv dvs ->
        Step.findIndex (ResolveDataVolumeIdentifier e dv) tasks = Some i ->
        dvCompletes e tasks dv = true ->
        exists task', Step.Tasks step' !! i = Some task'
                      /\ Task.MarkedCompleted task' = true)
  /\ (forall st n dv i task cnd,
        Step.FindTask st (ResolveDataVolumeIdentifier e dv) = Some (i, task) ->
        boundFalse (DvConditions dv) = None ->
        libcnd.FindCondition (DvConditions dv) "Running" = Some cnd ->
        libcnd.HasCondition (DvConditions dv) ["Ready"] = true ->
        exists task',
          updateDv e (st, n) dv
          = (putTask i task' st,
             mkTally (tasksBlocked n) (S (tasksCompleted n)) (S (tasksRunning n)))
          /\ Step.Tasks (putTask i task' st) !! i = Some task'
          /\ libitr.Completed (Task.Progress task') = libitr.Total (Task.Progress task)
          /\ libitr.Total (Task.Progress task') = libitr.Total (Task.Progress task)
          /\ Task.MarkedCompleted task' = true
          /\ Task.Name task' = Task.Name task)
  /\ (forall st n dv,
        is_Some (boundFalse (DvConditions dv))
        \/ libcnd.FindCondition (DvConditions dv) "Running" = None ->
        dvCompletes e (Step.Tasks st) dv = false
        /\ tasksCompleted (snd (updateDv e (st, n) dv)) = tasksCompleted n
        /\ List.map (fun t => (Task.Timed t, Task.Progress t))
                    (Step.Tasks (fst (updateDv e (st, n) dv)))
           = List.map (fun t => (Task.Timed t, Task.Progress t)) (Step.Tasks st)).
Proof.
  apply (updatePipeline_DiskTransfer Scenario.env0 Scenario.impDone Scenario.vmDisk
           Scenario.stepDisk); reflexivity.
Defined.

(** On the scenario the data volume completes the only task of the step:
    the task has [completed = total], the step is [Completed]. *)
Example disk_transfer_completed :
  List.map (fun s => (Step.Phase s, Step.MarkedCompleted s,
                      List.map (fun t => (libitr.Completed (Task.Progress t),
                                          Task.MarkedCompleted t)) (Step.Tasks s)))
           (VMStatus.Pipeline (updatePipeline Scenario.env0 Scenario.vmDisk Scenario.impDone))
  = [(Completed, true, [(10, true)])].
Proof. reflexivity. Qed.

(** C7 (as stated) fails.  First, the data volume of the import is
    matched to the task "disk-1" of the step and its [Ready] condition is
    True, but it has no [Running] condition: [updatePipeline] leaves the
    status as it was, the task with nothing completed out of 10 and not
    marked completed.  Second, two data volumes of the import complete the
    task "disk-1" of a step of two tasks: the phase of the step becomes
    [Completed] while the task "disk-2" is not completed. *)
Lemma updatePipeline_Ready_counterexample :
  (Step.FindTask Scenario.stepDisk
                 (ResolveDataVolumeIdentifier Scenario.env0 Scenario.dvReadyOnly)
   = Some (0%nat, Scenario.disk1)
   /\ libcnd.HasCondition (DvConditions Scenario.dvReadyOnly) ["Ready"] = true
   /\ Step.MarkedCompleted Scenario.stepDisk = false
   /\ updatePipeline Scenario.env0 Scenario.vmDisk Scenario.impReadyOnly = Scenario.vmDisk
   /\ List.map (fun t => (libitr.Completed (Task.Progress t),
                          libitr.Total (Task.Progress t), Task.MarkedCompleted t))
               (Step.Tasks Scenario.stepDisk)
      = [(0, 10, false)])
  /\ (Step.MarkedCompleted Scenario.stepTwoDisks = false
      /\ List.map (fun s => (Step.Phase s,
                             List.map (fun t => (Task.Name t, Task.MarkedCompleted t))
                                      (Step.Tasks s)))
                  (VMStatus.Pipeline
                     (updatePipeline Scenario.env0 Scenario.vmTwoDisks Scenario.impTwice))
         = [(Completed, [("disk-1", true); ("disk-2", false)])]).
Proof. repeat split. Qed.

(** ** [Succeeded] and [Failed] on a VM *)

Lemma keeps_refl vm : keeps vm vm.
Proof. repeat split; auto. Qed.

Lemma keeps_trans vm1 vm2 vm3 : keeps vm1 vm2 -> keeps vm2 vm3 -> keeps vm1 vm3.
Proof. intros (A & B & C) (A' & B' & C'). repeat split; try congruence. auto. Qed.

Lemma keeps_same vm vm' :
  VMStatus.Conditions vm' = VMStatus.Conditions vm ->
  VMStatus.Error vm' = VMStatus.Error vm -> keeps vm vm'.
Proof. intros Hc He. unfold keeps. rewrite Hc, He. auto. Qed.

Lemma keeps_AddError reason vm : keeps vm (VMStatus.AddError reason vm).
Proof. repeat split; simpl; eauto. Qed.

Lemma keeps_SetCondition now c vm :
  libcnd.Type_ c <> Succeeded -> libcnd.Type_ c <> Failed ->
  keeps vm (VMStatus.SetCondition now c vm).
Proof.
  intros H1 H2. repeat split; simpl; auto;
    apply FindCondition_SetCondition_ne; congruence.
Qed.

(** What the [ImageConversion] case does to the VM: a condition at most. *)
Lemma updateImageConversion_vm e imp vm step :
  fst (updateImageConversion e imp vm step)
  = match libcnd.FindCondition (ImpConditions imp) "Processing" with
    | Some cnd =>
        if String.eqb (libcnd.Reason cnd) vmio.Pending then
          VMStatus.SetCondition (now e) (advisory Pending "The VM migration is PENDING.") vm
        else if String.eqb (libcnd.Reason cnd) vmio.CopyingPaused then
          VMStatus.SetCondition (now e) (advisory Paused "The VM migration is PAUSED.") vm
        else vm
    | None => vm
    end.
Proof.
  unfold updateImageConversion.
  destruct (libcnd.FindCondition (ImpConditions imp) "Processing") as [cnd|];
    [destruct (String.eqb (libcnd.Reason cnd) vmio.Pending);
     [|destruct (String.eqb (libcnd.Reason cnd) vmio.CopyingPaused);
       [|destruct (String.eqb (libcnd.Reason cnd) vmio.ConvertingGuest)]]|];
    cbv beta iota zeta;
    (destruct (libcnd.FindCondition (ImpConditions imp) "Succeeded") as [c|];
     [destruct (negb (String.eqb (libcnd.Status c) libcnd.True_))|]); reflexivity.
Qed.

Lemma updateImageConversion_keeps e imp vm step :
  keeps vm (fst (updateImageConversion e imp vm step))
  /\ VMStatus.Pipeline (fst (updateImageConversion e imp vm step)) = VMStatus.Pipeline vm.
Proof.
  rewrite updateImageConversion_vm.
  destruct (libcnd.FindCondition (ImpConditions imp) "Processing") as [cnd|];
    [|split; [apply keeps_refl | reflexivity]].
  destruct (String.eqb (libcnd.Reason cnd) vmio.Pending).
  { split; [now apply keeps_SetCondition | reflexivity]. }
  destruct (String.eqb (libcnd.Reason cnd) vmio.CopyingPaused).
  { split; [now apply keeps_SetCondition | reflexivity]. }
  split; [apply keeps_refl | reflexivity].
Qed.

Lemma updateStep_keeps e imp vm step :
  keeps vm (fst (updateStep e imp vm step)).
Proof.
  unfold updateStep. destruct (Step.MarkedCompleted step); [apply keeps_refl|].
  assert (H : forall vm' st, keeps vm vm' ->
            keeps vm (fst (match Step.Error st with
                           | Some err => (VMStatus.AddError (Error.Reasons err) vm', st)
                           | None => (vm', st)
                           end))).
  { intros vm' st Hk. destruct (Step.Error st); [|exact Hk].
    exact (keeps_trans _ _ _ Hk (keeps_AddError _ _)). }
  destruct (String.eqb (Step.Name step) DiskTransfer).
  { apply H, keeps_refl. }
  destruct (String.eqb (Step.Name step) ImageConversion).
  - pose proof (updateImageConversion_keeps e imp vm step) as [Hk _].
    destruct (updateImageConversion e imp vm step) as [vm' st]. now apply H.
  - apply H, keeps_refl.
Qed.

Lemma updatePipeline_keeps e vm imp : keeps vm (updatePipeline e vm imp).
Proof.
  unfold updatePipeline.
  assert (H : forall l vm0 done,
            keeps vm vm0 ->
            keeps vm (fst (fold_left (fun '(vm, done) step =>
                 let '(vm, step) := updateStep e imp vm step in (vm, done ++ [step]))
                 l (vm0, done)))).
  { induction l as [|s tl IH]; intros vm0 done Hk; cbn [fold_left]; [exact Hk|].
    pose proof (updateStep_keeps e imp vm0 s) as Hs.
    destruct (updateStep e imp vm0 s) as [vm1 s1]. apply IH.
    exact (keeps_trans _ _ _ Hk Hs). }
  specialize (H (VMStatus.Pipeline vm) vm [] (keeps_refl vm)).
  destruct (fold_left _ (VMStatus.Pipeline vm) (vm, [])) as [vm' steps].
  exact (keeps_trans _ _ _ H (keeps_same _ _ eq_refl eq_refl)).
Qed.

Lemma updateVM_keeps e vm : keeps vm (fst (updateVM e vm)).
Proof.
  unfold updateVM. destruct (ImportMap e) as [importMap|err]; [|apply keeps_refl].
  destruct (importMap !! VMStatus.ID vm) as [imp|]; [|apply keeps_AddError].
  simpl. destruct (ImpWarm imp); [|apply updatePipeline_keeps].
  exact (keeps_trans _ _ _ (updatePipeline_keeps e vm imp) (keeps_same _ _ eq_refl eq_refl)).
Qed.

Lemma afterStep_keeps vm step : keeps vm (afterStep vm step).
Proof.
  unfold afterStep. destruct (Step.MarkedCompleted step); [|apply keeps_refl].
  destruct (Step.Error step); now apply keeps_same.
Qed.

(** The switch of [step] keeps the outcome conditions and an existing
    error list. *)
Lemma dispatch_keeps e vm : keeps vm (fst (dispatch e vm)).
Proof.
  unfold dispatch, ensureImport. cbv zeta.
  destruct (String.eqb (VMStatus.Phase vm) Started); [now apply keeps_same|].
  destruct (String.eqb (VMStatus.Phase vm) PreHook || String.eqb (VMStatus.Phase vm) PostHook).
  { destruct (HookRun e vm) as [pipeline [err|]]; [now apply keeps_same|].
    destruct (VMStatus.FindStep _ _) as [step|]; [|now apply keeps_same].
    destruct (_ && _); now apply keeps_same. }
  destruct (String.eqb (VMStatus.Phase vm) CreateImport).
  { destruct (EnsureImport e vm) as [err|]; [|now apply keeps_same].
    destruct (negb _); [apply keeps_AddError | apply keeps_refl]. }
  destruct (String.eqb (VMStatus.Phase vm) ImportCreated).
  { destruct (EnsureImport e vm) as [err|].
    { destruct (negb _); [apply keeps_AddError | apply keeps_refl]. }
    pose proof (updateVM_keeps e vm) as Hu.
    destruct (updateVM e vm) as [vm1 [rErr|]]; [exact Hu|]. simpl in Hu.
    destruct (VMStatus.FindStep vm1 ImageConversion) as [step|].
    { exact (keeps_trans _ _ _ Hu (afterStep_keeps vm1 step)). }
    destruct (VMStatus.FindStep vm1 DiskTransfer) as [step|]; [|exact Hu].
    exact (keeps_trans _ _ _ Hu (afterStep_keeps vm1 step)). }
  destruct (String.eqb (VMStatus.Phase vm) Completed); [now apply keeps_same|].
  exact (keeps_trans _ _ _ (keeps_same vm (VMStatus.set_Phase Completed vm) eq_refl eq_refl)
                     (keeps_AddError _ _)).
Qed.

Lemma dispatch_Completed e vm :
  VMStatus.Phase vm = Completed ->
  dispatch e vm = (VMStatus.MarkCompleted (now e) vm, Fallthrough).
Proof. intros H. unfold dispatch. rewrite H. reflexivity. Qed.

Lemma present_SetCondition_eq now c vm : present (VMStatus.SetCondition now c vm) (libcnd.Type_ c).
Proof.
  unfold present. simpl.
  destruct (FindCondition_SetCondition_eq now (VMStatus.Conditions vm) c) as (c' & -> & _).
  eauto.
Qed.

(** The three ways [step] concludes: failed, succeeded, or still under
    way. *)
Lemma conclude_cases e vm :
  let vm' := conclude e vm in
  VMStatus.Pipeline vm' = VMStatus.Pipeline vm
  /\ ((is_Some (VMStatus.Error (VMStatus.ReflectPipeline (ReflectTimed e) vm))
       /\ VMStatus.Phase vm' = Completed
       /\ is_Some (VMStatus.Error vm')
       /\ present vm' Failed
       /\ libcnd.FindCondition (VMStatus.Conditions vm') Succeeded
          = libcnd.FindCondition (VMStatus.Conditions vm) Succeeded)
      \/ (VMStatus.Error (VMStatus.ReflectPipeline (ReflectTimed e) vm) = None
          /\ VMStatus.Phase vm = Completed
          /\ VMStatus.Phase vm' = Completed
          /\ VMStatus.Error vm' = None
          /\ present vm' Succeeded
          /\ libcnd.FindCondition (VMStatus.Conditions vm') Failed
             = libcnd.FindCondition (VMStatus.Conditions vm) Failed)
      \/ (VMStatus.Error (VMStatus.ReflectPipeline (ReflectTimed e) vm) = None
          /\ VMStatus.Phase vm <> Completed
          /\ VMStatus.Phase vm' = VMStatus.Phase vm
          /\ VMStatus.Error vm' = None
          /\ VMStatus.Conditions vm' = VMStatus.Conditions vm)).
Proof.
  cbv zeta. unfold conclude. cbv zeta.
  destruct (ReflectPipeline_frame (ReflectTimed e) vm) as (_ & Hpl & Hph & _ & Hc).
  set (r := VMStatus.ReflectPipeline (ReflectTimed e) vm) in *. clearbody r.
  destruct (VMStatus.Error r) as [err|] eqn:E.
  - split; [exact Hpl|]. left. split; [eauto|]. split; [reflexivity|].
    split; [simpl; rewrite E; eauto|]. split.
    + apply (present_SetCondition_eq (now e) (durable Failed "" _)).
    + simpl. rewrite FindCondition_SetCondition_ne by discriminate. now rewrite Hc.
  - rewrite Hph. destruct (String.eqb_spec (VMStatus.Phase vm) Completed) as [Hp|Hp].
    + split; [exact Hpl|]. right. left. split; [reflexivity|]. split; [exact Hp|].
      split; [simpl; congruence|]. split; [exact E|]. split.
      * apply (present_SetCondition_eq (now e) (durable Succeeded "" _)).
      * simpl. rewrite FindCondition_SetCondition_ne by discriminate. now rewrite Hc.
    + split; [exact Hpl|]. right. right. repeat split; auto.
Qed.

Lemma reflect_clean marks vm :
  VMStatus.Error vm = None ->
  Forall (fun s => Step.Error s = None) (VMStatus.Pipeline vm) ->
  VMStatus.Error (VMStatus.ReflectPipeline marks vm) = None.
Proof. intros He Hs. rewrite ReflectPipeline_Error. now apply reflect_Error_None. Qed.



(** ** The invariant of the plan *)








Lemma HasAny_outcome l ty :
  In ty [Executing; Succeeded; Failed; Canceled] ->
  libcnd.HasCondition l [ty] = true ->
  libcnd.HasAnyCondition l [Executing; Succeeded; Failed; Canceled] = true.
Proof.
  intros Hin Hh. unfold libcnd.HasAnyCondition. apply existsb_exists.
  exists ty. split; [exact Hin | exact Hh].
Qed.











(** A second migration of a plan, begun under a fresh snapshot, is not one
    of the five calls above, and the exclusion does not extend to it.  The
    VM succeeds, is stepped again once canceled, and the first migration
    ends; the [begin] of the second migration resets the VM, which carried
    [Canceled], to the phase [Started] and deletes [Canceled] and [Failed]
    only, so the VM is still [Succeeded]; when its import is then refused,
    the VM carries both [Succeeded] and [Failed]. *)
Example second_migration_keeps_Succeeded :
  begin Scenario.env0 Scenario.plan0 = Some (Scenario.planBegun, None)
  /\ List.map Scenario.outcomeOf (Plan.StatusVMs Scenario.planSucceeded)
     = [(Completed, true, false)]
  /\ List.map (fun vm => VMStatus.HasCondition vm Canceled)
              (Plan.StatusVMs Scenario.planCanceled) = [true]
  /\ List.map libcnd.Type_ (Plan.Conditions (Plan.ActiveSnapshot Scenario.planEnded))
     = [Succeeded]
  /\ begin Scenario.env0 (Plan.NewSnapshot Scenario.planEnded)
     = Some (Scenario.planRebegun, None)
  /\ List.map Scenario.outcomeOf (Plan.StatusVMs Scenario.planRebegun)
     = [(Started, true, false)]
  /\ List.map Scenario.outcomeOf (Plan.StatusVMs Scenario.planRefused)
     = [(Completed, true, true)].
Proof.
  split; [vm_compute; reflexivity|]. split; [vm_compute; reflexivity|].
  split; [vm_compute; reflexivity|]. split; [vm_compute; reflexivity|].
  split; [vm_compute; reflexivity|]. split; vm_compute; reflexivity.
Qed.

(* ===================================================================== *)
(** * Further properties of the engine *)
(* ===================================================================== *)

(** ** The itinerary of a VM *)

Lemma find_existsb {A} (f : A -> bool) (l : list A) :
  bool_decide (is_Some (List.find f l)) = existsb f l.
Proof.
  induction l as [|x l IH]; simpl; [reflexivity|].
  destruct (f x); simpl; [reflexivity | exact IH].
Qed.

Lemma Evaluate_hasHook vm :
  Evaluate vm HasPreHook = hasHook vm PreHook
  /\ Evaluate vm HasPostHook = hasHook vm PostHook.
Proof.
  unfold Evaluate, hasHook, VM.FindHook.
  destruct (VM.Hooks vm) as [|h l] eqn:E; [split; reflexivity|].
  change (Nat.eqb (length (h :: l)) 0) with false. cbv iota.
  change (Z.eqb HasPreHook HasPreHook) with true.
  change (Z.eqb HasPostHook HasPreHook) with false.
  change (Z.eqb HasPostHook HasPostHook) with true. cbv iota.
  split; apply find_existsb.
Qed.

Lemma next_unknown vm phase : knownPhase phase = false -> next vm phase = Completed.
Proof.
  intros H. apply knownPhase_false in H as (H1 & H2 & H3 & H4 & H5 & H6).
  unfold next, libitr.Next, itinerary. cbn [libitr.after libitr.ItPipeline libitr.Name].
  rewrite (String.eqb_sym Started), H1, (String.eqb_sym PreHook), H2,
    (String.eqb_sym CreateImport), H3, (String.eqb_sym ImportCreated), H4,
    (String.eqb_sym PostHook), H5, (String.eqb_sym Completed), H6.
  reflexivity.
Qed.

Lemma next_known vm :
  next vm Started = (if hasHook vm PreHook then PreHook else CreateImport)
  /\ next vm PreHook = CreateImport
  /\ next vm CreateImport = ImportCreated
  /\ next vm ImportCreated = (if hasHook vm PostHook then PostHook else Completed)
  /\ next vm PostHook = Completed
  /\ next vm Completed = Completed.
Proof.
  destruct (Next_itinerary (Evaluate vm)) as (H1 & H2 & H3 & H4 & H5 & H6).
  destruct (Evaluate_hasHook vm) as [Hpre Hpost].
  unfold next. rewrite H1, H2, H3, H4, H5, H6, Hpre, Hpost.
  repeat split.
  - destruct (hasHook vm PreHook); reflexivity.
  - destruct (hasHook vm PostHook); reflexivity.
Qed.

(** X1. The itinerary of a VM, as [next] walks it: after Started comes
    PreHook if a hook of the VM is bound to PreHook, else CreateImport;
    then ImportCreated; then PostHook if a hook is bound to it, else
    Completed.  After Completed, and after a phase that the itinerary
    does not know, [next] answers Completed. *)
Theorem next_walks_itinerary (vm : VM.t) :
  next vm Started = (if hasHook vm PreHook then PreHook else CreateImport)
  /\ next vm PreHook = CreateImport
  /\ next vm CreateImport = ImportCreated
  /\ next vm ImportCreated = (if hasHook vm PostHook then PostHook else Completed)
  /\ next vm PostHook = Completed
  /\ next vm Completed = Completed
  /\ (forall phase, knownPhase phase = false -> next vm phase = Completed).
Proof.
  destruct (next_known vm) as (H1 & H2 & H3 & H4 & H5 & H6).
  repeat split; try assumption. apply next_unknown.
Qed.

(** ** The pipeline that [buildPipeline] builds *)

Lemma buildEntry_none e vm name pipeline :
  name = Started \/ name = ImportCreated \/ name = Completed ->
  buildEntry e vm name pipeline = inl pipeline.
Proof. intros [-> | [-> | ->]]; reflexivity. Qed.

Lemma buildLoop_from_Completed n e vm pipeline :
  buildLoop (1 + n) e vm (libitr.mkStep Completed 0 0) pipeline = Some (pipeline, None).
Proof.
  simpl plus. rewrite buildLoop_S. cbn [libitr.Name].
  rewrite buildEntry_none by auto.
  destruct (Next_itinerary (Evaluate vm)) as (_ & _ & _ & _ & _ & ->). reflexivity.
Qed.

Lemma buildLoop_from_ImportCreated n e vm pipeline :
  buildLoop (3 + n) e vm (libitr.mkStep ImportCreated 0 0) pipeline
  = Some (pipeline ++ hookSteps vm PostHook "Run post-migration hook.", None).
Proof.
  simpl plus. rewrite buildLoop_S. cbn [libitr.Name].
  rewrite buildEntry_none by auto.
  destruct (Next_itinerary (Evaluate vm)) as (_ & _ & _ & -> & H5 & _).
  unfold hookSteps. rewrite <- (proj2 (Evaluate_hasHook vm)).
  destruct (Evaluate vm HasPostHook).
  - rewrite buildLoop_S. cbn [libitr.Name].
    change (buildEntry e vm PostHook pipeline)
      with (@inl (list Step.t) Err.t
              (pipeline ++ [unitStep PostHook "Run post-migration hook."])).
    cbv iota. rewrite H5. apply (buildLoop_from_Completed n).
  - rewrite app_nil_r. apply (buildLoop_from_Completed (1 + n)).
Qed.

Lemma buildLoop_from_CreateImport n e vm pipeline :
  buildLoop (4 + n) e vm (libitr.mkStep CreateImport 0 0) pipeline
  = Some (match BuilderTasks e (VM.Ref vm) with
          | inr err => (pipeline, Some err)
          | inl tasks =>
              (pipeline ++ [diskStep tasks]
               ++ (if String.eqb (ProviderType e) VSphere
                   then [unitStep ImageConversion "Convert image to kubevirt."] else [])
               ++ hookSteps vm PostHook "Run post-migration hook.", None)
          end).
Proof.
  simpl plus. rewrite buildLoop_S. cbn [libitr.Name].
  change (buildEntry e vm CreateImport pipeline)
    with (match BuilderTasks e (VM.Ref vm) with
          | inr pErr => @inr (list Step.t) Err.t (Err.Wrap pErr)
          | inl tasks =>
              if String.eqb (ProviderType e) VSphere
              then inl ((pipeline ++ [diskStep tasks])
                        ++ [unitStep ImageConversion "Convert image to kubevirt."])
              else inl (pipeline ++ [diskStep tasks])
          end).
  destruct (BuilderTasks e (VM.Ref vm)) as [tasks | err]; [|reflexivity].
  destruct (Next_itinerary (Evaluate vm)) as (_ & _ & H3 & _ & _ & _).
  destruct (String.eqb (ProviderType e) VSphere); cbv iota; rewrite H3;
    rewrite (buildLoop_from_ImportCreated n); rewrite <- ?app_assoc; reflexivity.
Qed.

(** X2. The pipeline of a VM is built in this order: the pre-hook step if
    a hook of the VM is bound to PreHook; the disk-transfer step, which
    holds the tasks of the builder and whose total is the sum of theirs;
    the image-conversion step if the provider is vSphere; the post-hook
    step if a hook is bound to PostHook.  When the builder fails, its
    error is returned with the steps built before it. *)
Theorem buildPipeline_steps (e : Env) (vm : VM.t) :
  buildPipeline e vm
  = Some (match BuilderTasks e (VM.Ref vm) with
          | inr err => (hookSteps vm PreHook "Run pre-migration hook.", Some err)
          | inl tasks =>
              (hookSteps vm PreHook "Run pre-migration hook."
               ++ [diskStep tasks]
               ++ (if String.eqb (ProviderType e) VSphere
                   then [unitStep ImageConversion "Convert image to kubevirt."] else [])
               ++ hookSteps vm PostHook "Run post-migration hook.", None)
          end).
Proof.
  unfold buildPipeline. rewrite First_itinerary. simpl default. simpl length.
  rewrite buildLoop_S. cbn [libitr.Name]. rewrite buildEntry_none by auto.
  destruct (Next_itinerary (Evaluate vm)) as (-> & H2 & _).
  rewrite (proj1 (Evaluate_hasHook vm)).
  change (hookSteps vm PreHook "Run pre-migration hook.")
    with (if hasHook vm PreHook then [unitStep PreHook "Run pre-migration hook."] else []).
  destruct (hasHook vm PreHook).
  - rewrite buildLoop_S. cbn [libitr.Name].
    change (buildEntry e vm PreHook [])
      with (@inl (list Step.t) Err.t ([] ++ [unitStep PreHook "Run pre-migration hook."])).
    cbv iota. rewrite H2. apply (buildLoop_from_CreateImport 1).
  - apply (buildLoop_from_CreateImport 2).
Qed.

(** ** What a step leaves of a VM status *)

Lemma errorsKept_refl vm : errorsKept vm vm.
Proof. intros err H. exists []. rewrite app_nil_r. destruct err. exact H. Qed.

Lemma errorsKept_trans vm1 vm2 vm3 :
  errorsKept vm1 vm2 -> errorsKept vm2 vm3 -> errorsKept vm1 vm3.
Proof.
  intros H12 H23 err H. destruct (H12 err H) as [more H2].
  destruct (H23 _ H2) as [more' H3]. exists (more ++ more').
  rewrite H3. simpl. now rewrite app_assoc.
Qed.

Lemma errorsKept_same vm vm' : VMStatus.Error vm' = VMStatus.Error vm -> errorsKept vm vm'.
Proof.
  intros E err H. exists []. rewrite app_nil_r, E. destruct err. exact H.
Qed.

Lemma errorsKept_AddError reason vm : errorsKept vm (VMStatus.AddError reason vm).
Proof. intros err H. exists reason. simpl. now rewrite H. Qed.

Lemma derived_refl vm : derived vm vm.
Proof. repeat split. apply errorsKept_refl. Qed.

Lemma derived_trans vm1 vm2 vm3 : derived vm1 vm2 -> derived vm2 vm3 -> derived vm1 vm3.
Proof.
  intros (A & B & C & D) (A' & B' & C' & D').
  repeat split; try congruence. exact (errorsKept_trans _ _ _ D D').
Qed.

Lemma derived_same vm vm' :
  VMStatus.Timed vm' = VMStatus.Timed vm -> VMStatus.VM vm' = VMStatus.VM vm ->
  VMStatus.Phase vm' = VMStatus.Phase vm -> VMStatus.Error vm' = VMStatus.Error vm ->
  derived vm vm'.
Proof. intros A B C D. repeat split; auto. now apply errorsKept_same. Qed.

Lemma derived_AddError reason vm : derived vm (VMStatus.AddError reason vm).
Proof. repeat split. apply errorsKept_AddError. Qed.

Lemma updateStep_derived e imp vm step : derived vm (fst (updateStep e imp vm step)).
Proof.
  unfold updateStep. destruct (Step.MarkedCompleted step); [apply derived_refl|].
  assert (H : forall vm' st, derived vm vm' ->
            derived vm (fst (match Step.Error st with
                             | Some err => (VMStatus.AddError (Error.Reasons err) vm', st)
                             | None => (vm', st)
                             end))).
  { intros vm' st Hk. destruct (Step.Error st); [|exact Hk].
    exact (derived_trans _ _ _ Hk (derived_AddError _ _)). }
  destruct (String.eqb (Step.Name step) DiskTransfer).
  { apply H, derived_refl. }
  destruct (String.eqb (Step.Name step) ImageConversion).
  - assert (Hk : derived vm (fst (updateImageConversion e imp vm step))).
    { rewrite updateImageConversion_vm.
      destruct (libcnd.FindCondition (ImpConditions imp) "Processing") as [cnd|];
        [|apply derived_refl].
      destruct (String.eqb (libcnd.Reason cnd) vmio.Pending); [now apply derived_same|].
      destruct (String.eqb (libcnd.Reason cnd) vmio.CopyingPaused);
        [now apply derived_same | apply derived_refl]. }
    destruct (updateImageConversion e imp vm step) as [vm' st]. now apply H.
  - apply H, derived_refl.
Qed.

Lemma updatePipeline_derived e vm imp : derived vm (updatePipeline e vm imp).
Proof.
  unfold updatePipeline.
  assert (H : forall l vm0 done,
            derived vm vm0 ->
            derived vm (fst (fold_left (fun '(vm, done) step =>
                 let '(vm, step) := updateStep e imp vm step in (vm, done ++ [step]))
                 l (vm0, done)))).
  { induction l as [|s tl IH]; intros vm0 done Hk; cbn [fold_left]; [exact Hk|].
    pose proof (updateStep_derived e imp vm0 s) as Hs.
    destruct (updateStep e imp vm0 s) as [vm1 s1]. apply IH.
    exact (derived_trans _ _ _ Hk Hs). }
  specialize (H (VMStatus.Pipeline vm) vm [] (derived_refl vm)).
  destruct (fold_left _ (VMStatus.Pipeline vm) (vm, [])) as [vm' steps].
  exact (derived_trans _ _ _ H (derived_same _ _ eq_refl eq_refl eq_refl eq_refl)).
Qed.

Lemma updateVM_derived e vm : derived vm (fst (updateVM e vm)).
Proof.
  unfold updateVM. destruct (ImportMap e) as [importMap|err]; [|apply derived_refl].
  destruct (importMap !! VMStatus.ID vm) as [imp|]; [|apply derived_AddError].
  simpl. destruct (ImpWarm imp); [|apply updatePipeline_derived].
  exact (derived_trans _ _ _ (updatePipeline_derived e vm imp)
                       (derived_same _ _ eq_refl eq_refl eq_refl eq_refl)).
Qed.

Lemma updateVM_error e vm vm' err : updateVM e vm = (vm', Some err) -> vm' = vm.
Proof.
  unfold updateVM. destruct (ImportMap e) as [importMap|err']; [|congruence].
  destruct (importMap !! VMStatus.ID vm); discriminate.
Qed.

Lemma knownPhase_true phase :
  knownPhase phase = true ->
  phase = Started \/ phase = PreHook \/ phase = CreateImport \/ phase = ImportCreated
  \/ phase = PostHook \/ phase = Completed.
Proof.
  unfold knownPhase, itinerary. cbn [existsb libitr.ItPipeline libitr.Name].
  rewrite !orb_true_iff, !String.eqb_eq. intuition discriminate.
Qed.

Lemma afterStep_shape vm step :
  let vm' := afterStep vm step in
  VMStatus.Timed vm' = VMStatus.Timed vm /\ VMStatus.VM vm' = VMStatus.VM vm
  /\ VMStatus.Error vm' = VMStatus.Error vm
  /\ (VMStatus.Phase vm' = VMStatus.Phase vm
      \/ VMStatus.Phase vm' = next (VMStatus.VM vm) (VMStatus.Phase vm)
      \/ VMStatus.Phase vm' = Completed).
Proof.
  unfold afterStep. cbv zeta. destruct (Step.MarkedCompleted step); [|now auto].
  destruct (Step.Error step); simpl; repeat split; auto.
Qed.

Ltac known_absurd P :=
  let H := fresh in intros H; rewrite P in H; vm_compute in H; discriminate H.

(** The switch of [step], case by case: what it leaves of the VM status. *)
Lemma dispatch_shape e vm :
  let vm1 := fst (dispatch e vm) in
  VMStatus.VM vm1 = VMStatus.VM vm
  /\ errorsKept vm vm1
  /\ VMStatus.Timed vm1
     = (if String.eqb (VMStatus.Phase vm) Started
        then Timed.MarkStarted (now e) (VMStatus.Timed vm)
        else if String.eqb (VMStatus.Phase vm) Completed
             then Timed.MarkCompleted (now e) (VMStatus.Timed vm)
             else VMStatus.Timed vm)
  /\ (VMStatus.Phase vm1 = VMStatus.Phase vm
      \/ VMStatus.Phase vm1 = next (VMStatus.VM vm) (VMStatus.Phase vm)
      \/ VMStatus.Phase vm1 = Completed)
  /\ (knownPhase (VMStatus.Phase vm) = false -> VMStatus.Phase vm1 = Completed)
  /\ (forall err, snd (dispatch e vm) = Return err ->
      vm1 = vm
      \/ ((VMStatus.Phase vm = PreHook \/ VMStatus.Phase vm = PostHook)
          /\ vm1 = VMStatus.set_Pipeline (fst (HookRun e vm)) vm)).
Proof.
  cbv zeta. destruct (String.eqb (VMStatus.Phase vm) Started) eqn:E1.
  { pose proof (proj1 (String.eqb_eq _ _) E1) as P.
    unfold dispatch. rewrite E1. simpl.
    repeat split; auto using errorsKept_same; try discriminate. known_absurd P. }
  destruct (String.eqb (VMStatus.Phase vm) Completed) eqn:E6.
  { pose proof (proj1 (String.eqb_eq _ _) E6) as P.
    rewrite (dispatch_Completed e vm P). simpl.
    repeat split; auto using errorsKept_same; try discriminate. }
  unfold dispatch, ensureImport. cbv zeta. rewrite E1, E6.
  destruct (String.eqb (VMStatus.Phase vm) PreHook || String.eqb (VMStatus.Phase vm) PostHook)
    eqn:E2.
  { assert (Hp : VMStatus.Phase vm = PreHook \/ VMStatus.Phase vm = PostHook).
    { apply orb_true_iff in E2. rewrite !String.eqb_eq in E2. exact E2. }
    assert (Hk : knownPhase (VMStatus.Phase vm) = true).
    { destruct Hp as [-> | ->]; reflexivity. }
    destruct (HookRun e vm) as [pipeline [err|]].
    { simpl. repeat split; auto using errorsKept_same; congruence. }
    destruct (VMStatus.FindStep _ _) as [step|].
    - destruct (_ && _); simpl; repeat split; auto using errorsKept_same;
        try discriminate; congruence.
    - simpl. repeat split; auto using errorsKept_same; discriminate. }
  destruct (String.eqb (VMStatus.Phase vm) CreateImport) eqn:E3.
  { pose proof (proj1 (String.eqb_eq _ _) E3) as P.
    destruct (EnsureImport e vm) as [err|].
    - destruct (negb _); simpl;
        repeat split; auto using errorsKept_same, errorsKept_AddError;
        try discriminate; known_absurd P.
    - simpl. repeat split; auto using errorsKept_same; try discriminate. known_absurd P. }
  destruct (String.eqb (VMStatus.Phase vm) ImportCreated) eqn:E4.
  { pose proof (proj1 (String.eqb_eq _ _) E4) as P.
    destruct (EnsureImport e vm) as [err|].
    { destruct (negb _); simpl;
        repeat split; auto using errorsKept_same, errorsKept_AddError;
        try discriminate; known_absurd P. }
    pose proof (updateVM_derived e vm) as (Ht & Hv & Hph & He).
    pose proof (updateVM_error e vm) as Hu.
    destruct (updateVM e vm) as [vm1 [rErr|]].
    { simpl in *. rewrite (Hu _ _ eq_refl).
      repeat split; auto using errorsKept_refl. known_absurd P. }
    simpl in Ht, Hv, Hph, He.
    assert (Ha : forall step, let vm' := afterStep vm1 step in
              VMStatus.VM vm' = VMStatus.VM vm /\ errorsKept vm vm'
              /\ VMStatus.Timed vm' = VMStatus.Timed vm
              /\ (VMStatus.Phase vm' = VMStatus.Phase vm
                  \/ VMStatus.Phase vm' = next (VMStatus.VM vm) (VMStatus.Phase vm)
                  \/ VMStatus.Phase vm' = Completed)).
    { intros step. destruct (afterStep_shape vm1 step) as (A & B & C & D).
      cbv zeta. rewrite A, B, <- Hv, <- Hph. repeat split; auto.
      exact (errorsKept_trans _ _ _ He (errorsKept_same _ _ C)). }
    destruct (VMStatus.FindStep vm1 ImageConversion) as [step|].
    { simpl. destruct (Ha step) as (A & B & C & D).
      repeat split; auto; try discriminate. known_absurd P. }
    destruct (VMStatus.FindStep vm1 DiskTransfer) as [step|].
    { simpl. destruct (Ha step) as (A & B & C & D).
      repeat split; auto; try discriminate. known_absurd P. }
    simpl. repeat split; auto; try discriminate. known_absurd P. }
  simpl. repeat split; auto; try discriminate.
  exact (errorsKept_AddError _ (VMStatus.set_Phase Completed vm)).
Qed.

Lemma conclude_frame e vm :
  VMStatus.Timed (conclude e vm)
  = ReflectTimed e (fold_left reflectStep (VMStatus.Pipeline vm) vm)
  /\ VMStatus.VM (conclude e vm) = VMStatus.VM vm
  /\ errorsKept vm (conclude e vm)
  /\ (VMStatus.Phase (conclude e vm) = VMStatus.Phase vm
      \/ VMStatus.Phase (conclude e vm) = Completed).
Proof.
  assert (He : errorsKept vm (conclude e vm)).
  { intros err H. rewrite conclude_Error, ReflectPipeline_Error.
    exact (reflect_Error_Some _ _ _ H). }
  revert He. unfold conclude. cbv zeta. rewrite ReflectPipeline_fold.
  destruct (reflect_frame (VMStatus.Pipeline vm) vm) as (A & B & _ & D & _).
  cbv zeta in A, B, D.
  cbn [VMStatus.Error VMStatus.Phase VMStatus.set_Timed].
  destruct (VMStatus.Error _); [|destruct (String.eqb _ Completed)]; simpl; auto.
Qed.

(** The phase a step leaves. *)
Lemma step_phase e vm :
  let vm' := fst (step e vm) in
  (VMStatus.Phase vm' = VMStatus.Phase vm
   \/ VMStatus.Phase vm' = next (VMStatus.VM vm) (VMStatus.Phase vm)
   \/ VMStatus.Phase vm' = Completed)
  /\ (knownPhase (VMStatus.Phase vm) = false -> VMStatus.Phase vm' = Completed).
Proof.
  cbv zeta. unfold step.
  destruct (Canceled_ref _ _); [simpl; auto|].
  destruct (dispatch_shape e vm) as (_ & _ & _ & Hp & Hu & _).
  destruct (dispatch e vm) as [vm1 [|err]]; simpl in *; [|auto].
  destruct (conclude_frame e vm1) as (_ & _ & _ & [-> | ->]); auto.
Qed.

Lemma phaseRank_next vm phase :
  knownPhase phase = true ->
  knownPhase (next vm phase) = true
  /\ (phaseRank phase <= phaseRank (next vm phase))%nat
  /\ (phaseRank phase <= phaseRank Completed)%nat.
Proof.
  intros H. destruct (next_known vm) as (H1 & H2 & H3 & H4 & H5 & H6).
  apply knownPhase_true in H as [-> | [-> | [-> | [-> | [-> | ->]]]]].
  - rewrite H1. destruct (hasHook vm PreHook); vm_compute; repeat split; lia.
  - rewrite H2. vm_compute; repeat split; lia.
  - rewrite H3. vm_compute; repeat split; lia.
  - rewrite H4. destruct (hasHook vm PostHook); vm_compute; repeat split; lia.
  - rewrite H5. vm_compute; repeat split; lia.
  - rewrite H6. vm_compute; repeat split; lia.
Qed.

(** X3. A step never takes a VM backwards: the phase it leaves is the
    phase it found, the next phase of the itinerary of the VM, or
    Completed.  It is always a phase of the itinerary, and when the phase
    found is one too, its place in the itinerary is not before it. *)
Theorem step_phase_progress (e : Env) (vm : VMStatus.t) :
  let vm' := fst (step e vm) in
  (VMStatus.Phase vm' = VMStatus.Phase vm
   \/ VMStatus.Phase vm' = next (VMStatus.VM vm) (VMStatus.Phase vm)
   \/ VMStatus.Phase vm' = Completed)
  /\ knownPhase (VMStatus.Phase vm') = true
  /\ (knownPhase (VMStatus.Phase vm) = true ->
      (phaseRank (VMStatus.Phase vm) <= phaseRank (VMStatus.Phase vm'))%nat).
Proof.
  cbv zeta. destruct (step_phase e vm) as [Hp Hu]. split; [exact Hp|].
  destruct (knownPhase (VMStatus.Phase vm)) eqn:Hk.
  - destruct (phaseRank_next (VMStatus.VM vm) _ Hk) as (A & B & C).
    destruct Hp as [-> | [-> | ->]]; auto.
  - rewrite (Hu eq_refl). split; [reflexivity | discriminate].
Qed.

Lemma stampsKept_refl t : stampsKept t t.
Proof. split; auto. Qed.

Lemma stampsKept_trans t1 t2 t3 : stampsKept t1 t2 -> stampsKept t2 t3 -> stampsKept t1 t3.
Proof. intros [A B] [A' B']. split; auto. Qed.

Lemma stampsKept_MarkStarted now t : stampsKept t (Timed.MarkStarted now t).
Proof.
  unfold Timed.MarkStarted. destruct (Timed.Started t) eqn:E; [apply stampsKept_refl|].
  split; simpl; [congruence | auto].
Qed.

Lemma stampsKept_MarkCompleted now t : stampsKept t (Timed.MarkCompleted now t).
Proof.
  unfold Timed.MarkCompleted. cbv zeta.
  destruct (Timed.Completed (Timed.MarkStarted now t)) eqn:E;
    [apply stampsKept_MarkStarted|].
  destruct (stampsKept_MarkStarted now t) as [A B]. split; simpl; [exact A|].
  intros x Hx. rewrite (B x Hx) in E. discriminate.
Qed.

Lemma step_VM e vm : VMStatus.VM (fst (step e vm)) = VMStatus.VM vm.
Proof.
  unfold step. destruct (Canceled_ref _ _); [reflexivity|].
  destruct (dispatch_shape e vm) as (Hv & _).
  destruct (dispatch e vm) as [vm1 [|err]]; simpl in *; [|auto].
  destruct (conclude_frame e vm1) as (_ & -> & _). auto.
Qed.

(** X4. The switch of a step changes the time stamps of a VM in two
    cases only: it marks the VM started when it finds it in phase
    Started, and completed when it finds it in phase Completed.  A step
    of a canceled VM leaves the time stamps as they were, and a step that
    returns an error as the switch left them.  Any other step ends by
    reflecting the pipeline: the time stamps are then what the reflection
    makes of the status that the switch left, the errors of its steps
    merged; when the reflection changes no time stamp that is set,
    neither does the step.  A step never changes the VM of the status,
    its reference and its hooks. *)
Theorem step_time_stamps (e : Env) (vm : VMStatus.t) :
  let vm' := fst (step e vm) in
  let switched :=
    if String.eqb (VMStatus.Phase vm) Started
    then Timed.MarkStarted (now e) (VMStatus.Timed vm)
    else if String.eqb (VMStatus.Phase vm) Completed
         then Timed.MarkCompleted (now e) (VMStatus.Timed vm)
         else VMStatus.Timed vm in
  VMStatus.VM vm' = VMStatus.VM vm
  /\ (if Canceled_ref (Cancel_refs e) (VMStatus.Ref vm)
      then VMStatus.Timed vm' = VMStatus.Timed vm
      else match snd (step e vm) with
           | Some _ => VMStatus.Timed vm' = switched
           | None =>
               exists v, VMStatus.Timed v = switched
                         /\ VMStatus.VM v = VMStatus.VM vm
                         /\ VMStatus.Pipeline v = VMStatus.Pipeline vm'
                         /\ VMStatus.Error v = VMStatus.Error vm'
                         /\ VMStatus.Timed vm' = ReflectTimed e v
           end)
  /\ ((forall v, stampsKept (VMStatus.Timed v) (ReflectTimed e v)) ->
      stampsKept (VMStatus.Timed vm) (VMStatus.Timed vm')).
Proof.
  cbv zeta. split; [apply step_VM|].
  assert (Hsw : stampsKept (VMStatus.Timed vm)
                  (if String.eqb (VMStatus.Phase vm) Started
                   then Timed.MarkStarted (now e) (VMStatus.Timed vm)
                   else if String.eqb (VMStatus.Phase vm) Completed
                        then Timed.MarkCompleted (now e) (VMStatus.Timed vm)
                        else VMStatus.Timed vm)).
  { destruct (String.eqb _ Started); [apply stampsKept_MarkStarted|].
    destruct (String.eqb _ Completed);
      [apply stampsKept_MarkCompleted | apply stampsKept_refl]. }
  unfold step. destruct (Canceled_ref _ _).
  { split; [reflexivity | intros _; apply stampsKept_refl]. }
  destruct (dispatch_shape e vm) as (Hv & _ & Ht & _).
  destruct (dispatch e vm) as [vm1 [|err]]; cbn [fst snd] in *.
  - destruct (conclude_frame e vm1) as (T & _).
    destruct (conclude_cases e vm1) as (Hpl & _). cbv zeta in Hpl.
    destruct (reflect_frame (VMStatus.Pipeline vm1) vm1) as (A & B & C & _).
    cbv zeta in A, B, C.
    assert (Hm : VMStatus.Timed (fold_left reflectStep (VMStatus.Pipeline vm1) vm1)
                 = if String.eqb (VMStatus.Phase vm) Started
                   then Timed.MarkStarted (now e) (VMStatus.Timed vm)
                   else if String.eqb (VMStatus.Phase vm) Completed
                        then Timed.MarkCompleted (now e) (VMStatus.Timed vm)
                        else VMStatus.Timed vm) by congruence.
    split.
    + exists (fold_left reflectStep (VMStatus.Pipeline vm1) vm1).
      repeat split; [exact Hm | congruence | congruence | | exact T].
      now rewrite conclude_Error, ReflectPipeline_Error.
    + intros Hr. rewrite T. eapply stampsKept_trans; [|apply Hr]. now rewrite Hm.
  - split; [exact Ht|]. intros _. now rewrite Ht.
Qed.

(** X5. A step only adds to the errors of a VM: the errors recorded
    before it are still recorded after it, first and in the same order. *)
Theorem step_errors_append (e : Env) (vm : VMStatus.t) (err : Error.t) :
  VMStatus.Error vm = Some err ->
  exists more,
    VMStatus.Error (fst (step e vm)) = Some (Error.mk (Error.Reasons err ++ more)).
Proof.
  revert err. change (errorsKept vm (fst (step e vm))). unfold step.
  destruct (Canceled_ref _ _); [now apply errorsKept_same|].
  destruct (dispatch_shape e vm) as (_ & He & _).
  destruct (dispatch e vm) as [vm1 [|rErr]]; simpl in *; [|exact He].
  destruct (conclude_frame e vm1) as (_ & _ & Hc & _).
  exact (errorsKept_trans _ _ _ He Hc).
Qed.

Lemma step_errors_append_witness :
  exists more,
    VMStatus.Error (fst (step Scenario.env0 (VMStatus.AddError ["disk is locked"]
                                               (Scenario.inPhase CreateImport))))
    = Some (Error.mk (["disk is locked"] ++ more)).
Proof.
  exact (step_errors_append Scenario.env0
           (VMStatus.AddError ["disk is locked"] (Scenario.inPhase CreateImport))
           (Error.mk ["disk is locked"]) eq_refl).
Defined.

(** X6. A step that returns an error has changed nothing of the VM
    status; in a hook phase, nothing but the pipeline, which is as the
    hook runner left it. *)
Theorem step_error_changes_nothing (e : Env) (vm vm' : VMStatus.t) (err : Err.t) :
  step e vm = (vm', Some err) ->
  vm' = vm
  \/ ((VMStatus.Phase vm = PreHook \/ VMStatus.Phase vm = PostHook)
      /\ vm' = VMStatus.set_Pipeline (fst (HookRun e vm)) vm).
Proof.
  unfold step. destruct (Canceled_ref _ _); [discriminate|].
  destruct (dispatch_shape e vm) as (_ & _ & _ & _ & _ & Hr).
  destruct (dispatch e vm) as [vm1 [|rErr]]; [discriminate|].
  intros [= <- _]. exact (Hr rErr eq_refl).
Qed.

Lemma step_error_changes_nothing_witness :
  Scenario.inPhase ImportCreated = Scenario.inPhase ImportCreated
  \/ ((VMStatus.Phase (Scenario.inPhase ImportCreated) = PreHook
       \/ VMStatus.Phase (Scenario.inPhase ImportCreated) = PostHook)
      /\ Scenario.inPhase ImportCreated
         = VMStatus.set_Pipeline
             (fst (HookRun Scenario.envNotReady (Scenario.inPhase ImportCreated)))
             (Scenario.inPhase ImportCreated)).
Proof.
  exact (step_error_changes_nothing Scenario.envNotReady (Scenario.inPhase ImportCreated)
           (Scenario.inPhase ImportCreated) (Err.ProviderNotReady "provider not ready")
           eq_refl).
Defined.

(** X7. When the import cannot be ensured because the provider is not
    ready, in phase CreateImport or ImportCreated, the step returns that
    error and leaves the VM status as it was: the phase is the same, and
    no error and no condition is recorded. *)
Theorem step_provider_not_ready (e : Env) (vm : VMStatus.t) (msg : string) :
  Canceled_ref (Cancel_refs e) (VMStatus.Ref vm) = false ->
  VMStatus.Phase vm = CreateImport \/ VMStatus.Phase vm = ImportCreated ->
  EnsureImport e vm = Some (Err.ProviderNotReady msg) ->
  step e vm = (vm, Some (Err.ProviderNotReady msg)).
Proof.
  intros Hc Hp He. unfold step. rewrite Hc. unfold dispatch, ensureImport.
  destruct Hp as [Hp | Hp]; rewrite Hp; cbn [String.eqb Ascii.eqb Bool.eqb Started PreHook
    PostHook CreateImport ImportCreated orb]; rewrite He; reflexivity.
Qed.

Lemma step_provider_not_ready_witness :
  step Scenario.envNotReady (Scenario.inPhase CreateImport)
  = (Scenario.inPhase CreateImport, Some (Err.ProviderNotReady "provider not ready")).
Proof.
  apply (step_provider_not_ready Scenario.envNotReady (Scenario.inPhase CreateImport));
    [reflexivity | left; reflexivity | reflexivity].
Defined.

(** X8. A step of a VM that is not canceled, when it returns no error,
    leaves the VM in one of three states: failed, with an error, in phase
    Completed and with the condition Failed; succeeded, with no error, in
    phase Completed and with the condition Succeeded; or in progress,
    with no error, in another phase, its conditions Succeeded and Failed
    as they were.  The condition it does not set is as it was. *)
Theorem step_outcome (e : Env) (vm vm' : VMStatus.t) :
  Canceled_ref (Cancel_refs e) (VMStatus.Ref vm) = false ->
  step e vm = (vm', None) ->
  let succeeded v := libcnd.FindCondition (VMStatus.Conditions v) Succeeded in
  let failed v := libcnd.FindCondition (VMStatus.Conditions v) Failed in
  (is_Some (VMStatus.Error vm') /\ VMStatus.Phase vm' = Completed
   /\ VMStatus.HasCondition vm' Failed = true /\ succeeded vm' = succeeded vm)
  \/ (VMStatus.Error vm' = None /\ VMStatus.Phase vm' = Completed
      /\ VMStatus.HasCondition vm' Succeeded = true /\ failed vm' = failed vm)
  \/ (VMStatus.Error vm' = None /\ VMStatus.Phase vm' <> Completed
      /\ succeeded vm' = succeeded vm /\ failed vm' = failed vm).
Proof.
  intros Hc. unfold step. rewrite Hc.
  pose proof (dispatch_keeps e vm) as (Ks & Kf & _).
  destruct (dispatch e vm) as [vm1 [|rErr]]; [|discriminate].
  simpl in Ks, Kf. intros [= <-]. cbv zeta.
  unfold conclude. cbv zeta.
  destruct (ReflectPipeline_frame (ReflectTimed e) vm1) as (_ & _ & Hp & _ & Hcs).
  set (r := VMStatus.ReflectPipeline (ReflectTimed e) vm1) in *. clearbody r.
  destruct (VMStatus.Error r) as [err|] eqn:He.
  - left. cbn [VMStatus.Error VMStatus.SetCondition VMStatus.set_Conditions
               VMStatus.set_Phase VMStatus.Phase VMStatus.Conditions VMStatus.HasCondition].
    rewrite He, Hcs. repeat split; [eauto | |].
    + exact (HasCondition_SetCondition_eq _ _ (durable Failed "" "The VM migration has FAILED.")).
    + rewrite FindCondition_SetCondition_ne by discriminate. exact Ks.
  - right. destruct (String.eqb _ Completed) eqn:Ec.
    + left. apply String.eqb_eq in Ec.
      cbn [VMStatus.Error VMStatus.SetCondition VMStatus.set_Conditions
               VMStatus.set_Phase VMStatus.Phase VMStatus.Conditions VMStatus.HasCondition].
      rewrite He, Hcs. repeat split; [exact Ec | |].
      * exact (HasCondition_SetCondition_eq _ _
                 (durable Succeeded "" "The VM migration has SUCCEEDED.")).
      * rewrite FindCondition_SetCondition_ne by discriminate. exact Kf.
    + right. apply String.eqb_neq in Ec. rewrite Hcs. repeat split; auto.
Qed.

Lemma step_outcome_witness :
  let vm := Scenario.inPhase Started in
  let vm' := VMStatus.set_Phase CreateImport (VMStatus.MarkStarted 100 vm) in
  let succeeded v := libcnd.FindCondition (VMStatus.Conditions v) Succeeded in
  let failed v := libcnd.FindCondition (VMStatus.Conditions v) Failed in
  (is_Some (VMStatus.Error vm') /\ VMStatus.Phase vm' = Completed
   /\ VMStatus.HasCondition vm' Failed = true /\ succeeded vm' = succeeded vm)
  \/ (VMStatus.Error vm' = None /\ VMStatus.Phase vm' = Completed
      /\ VMStatus.HasCondition vm' Succeeded = true /\ failed vm' = failed vm)
  \/ (VMStatus.Error vm' = None /\ VMStatus.Phase vm' <> Completed
      /\ succeeded vm' = succeeded vm /\ failed vm' = failed vm).
Proof.
  exact (step_outcome Scenario.env0 (Scenario.inPhase Started)
           (VMStatus.set_Phase CreateImport (VMStatus.MarkStarted 100 (Scenario.inPhase Started)))
           eq_refl eq_refl).
Defined.

(** X9. A step in phase ImportCreated that finds no import of the VM in
    the import map fails the VM: the error "Import CR not found." is
    recorded, the phase is Completed and the condition Failed is set; the
    steps of the pipeline are as they were. *)
Theorem step_import_not_found (e : Env) (vm : VMStatus.t) (importMap : gmap string VmImport) :
  Canceled_ref (Cancel_refs e) (VMStatus.Ref vm) = false ->
  VMStatus.Phase vm = ImportCreated ->
  EnsureImport e vm = None ->
  ImportMap e = inl importMap ->
  importMap !! VMStatus.ID vm = None ->
  exists vm' err,
    step e vm = (vm', None)
    /\ VMStatus.Error vm' = Some err
    /\ In "Import CR not found." (Error.Reasons err)
    /\ VMStatus.Phase vm' = Completed
    /\ VMStatus.HasCondition vm' Failed = true
    /\ VMStatus.Pipeline vm' = VMStatus.Pipeline vm.
Proof.
  intros Hc Hp He Hm Hi.
  set (vm0 := VMStatus.AddError ["Import CR not found."] vm).
  assert (Hd : exists vm1, dispatch e vm = (vm1, Fallthrough)
                           /\ VMStatus.Error vm1 = VMStatus.Error vm0
                           /\ VMStatus.Pipeline vm1 = VMStatus.Pipeline vm).
  { unfold dispatch, ensureImport. rewrite Hp.
    cbn [String.eqb Ascii.eqb Bool.eqb Started PreHook PostHook CreateImport ImportCreated orb].
    rewrite He. unfold updateVM. rewrite Hm, Hi. fold vm0.
    assert (Ha : forall step, VMStatus.Error (afterStep vm0 step) = VMStatus.Error vm0
                 /\ VMStatus.Pipeline (afterStep vm0 step) = VMStatus.Pipeline vm).
    { intros step. unfold afterStep. destruct (Step.MarkedCompleted step); [|now auto].
      destruct (Step.Error step); now auto. }
    destruct (VMStatus.FindStep vm0 ImageConversion) as [step|]; [now eauto|].
    destruct (VMStatus.FindStep vm0 DiskTransfer) as [step|]; [now eauto|].
    exists vm0. now auto. }
  destruct Hd as (vm1 & Hd & He1 & Hp1).
  destruct (AddError_In ["Import CR not found."] vm "Import CR not found." (or_introl eq_refl))
    as (err0 & Herr0 & Hin).
  fold vm0 in Herr0. rewrite <- He1 in Herr0.
  destruct (conclude_failed e vm1 err0 Herr0) as (A & B & (more & C) & _).
  destruct (conclude_cases e vm1) as (D & _).
  exists (conclude e vm1), (Error.mk (Error.Reasons err0 ++ more)).
  unfold step. rewrite Hc, Hd. repeat split; auto.
  - simpl. apply in_or_app. now left.
  - congruence.
Qed.

Lemma step_import_not_found_witness :
  exists vm' err,
    step Scenario.envNoImport Scenario.vmDisk = (vm', None)
    /\ VMStatus.Error vm' = Some err
    /\ In "Import CR not found." (Error.Reasons err)
    /\ VMStatus.Phase vm' = Completed
    /\ VMStatus.HasCondition vm' Failed = true
    /\ VMStatus.Pipeline vm' = VMStatus.Pipeline Scenario.vmDisk.
Proof.
  apply (step_import_not_found Scenario.envNoImport Scenario.vmDisk ∅); reflexivity.
Defined.

(** ** What [updatePipeline] keeps of the steps *)

Lemma taskEvolves_refl t : taskEvolves t t.
Proof. repeat split; auto. Qed.

Lemma taskEvolves_trans t1 t2 t3 : taskEvolves t1 t2 -> taskEvolves t2 t3 -> taskEvolves t1 t3.
Proof.
  intros (A & B & C & D & E) (A' & B' & C' & D' & E').
  repeat split; try congruence; eapply stampsKept_trans; eauto.
Qed.

Lemma taskEvolves_same t t' :
  Task.Name t' = Task.Name t -> Task.Description t' = Task.Description t ->
  libitr.Total (Task.Progress t') = libitr.Total (Task.Progress t) ->
  Task.Annotations t' = Task.Annotations t ->
  stampsKept (Task.Timed t) (Task.Timed t') -> taskEvolves t t'.
Proof. intros A B C D E. exact (conj A (conj B (conj C (conj D E)))). Qed.

Lemma tasksEvolve_refl l : Forall2 taskEvolves l l.
Proof. induction l; constructor; auto using taskEvolves_refl. Qed.

Lemma tasksEvolve_trans l1 l2 l3 :
  Forall2 taskEvolves l1 l2 -> Forall2 taskEvolves l2 l3 -> Forall2 taskEvolves l1 l3.
Proof.
  intros H. revert l3. induction H as [|x y l k Hxy _ IH]; intros l3 H3;
    inversion H3; subst; constructor; eauto using taskEvolves_trans.
Qed.

Lemma tasksEvolve_insert l i t t' :
  l !! i = Some t -> taskEvolves t t' -> Forall2 taskEvolves l (<[i := t']> l).
Proof.
  revert i. induction l as [|x l IH]; intros [|i] Hl Ht; simpl in *; try discriminate.
  - injection Hl as ->. constructor; [exact Ht | apply tasksEvolve_refl].
  - constructor; [apply taskEvolves_refl | now apply IH].
Qed.

Ltac stamps :=
  repeat first
    [ apply stampsKept_refl
    | apply stampsKept_MarkStarted
    | apply stampsKept_MarkCompleted
    | eapply stampsKept_trans; [|apply stampsKept_MarkCompleted]
    | eapply stampsKept_trans; [|apply stampsKept_MarkStarted] ].

Lemma updateDv_evolves e st n dv :
  Step.Task (fst (updateDv e (st, n) dv)) = Step.Task st
  /\ Forall2 taskEvolves (Step.Tasks st) (Step.Tasks (fst (updateDv e (st, n) dv))).
Proof.
  unfold updateDv.
  destruct (Step.FindTask st (ResolveDataVolumeIdentifier e dv)) as [[i task]|] eqn:Ef;
    [|split; [reflexivity | apply tasksEvolve_refl]].
  apply FindTask_Some in Ef as [_ Hi]. cbv zeta.
  destruct (boundFalse (DvConditions dv)) as [cnd|].
  { split; [reflexivity|]. apply (tasksEvolve_insert _ _ _ _ Hi).
    apply taskEvolves_same; try reflexivity. apply stampsKept_refl. }
  destruct (libcnd.FindCondition (DvConditions dv) "Running") as [cnd|];
    [|split; [reflexivity | apply tasksEvolve_refl]].
  destruct (libcnd.HasCondition (DvConditions dv) ["Ready"]);
    (split; [reflexivity|]; apply (tasksEvolve_insert _ _ _ _ Hi);
     apply taskEvolves_same; try reflexivity; simpl; stamps).
Qed.

Lemma updateDvs_evolve e dvs st n :
  Step.Task (fst (fold_left (updateDv e) dvs (st, n))) = Step.Task st
  /\ Forall2 taskEvolves (Step.Tasks st)
             (Step.Tasks (fst (fold_left (updateDv e) dvs (st, n)))).
Proof.
  revert st n. induction dvs as [|dv dvs IH]; intros st n; cbn [fold_left].
  { split; [reflexivity | apply tasksEvolve_refl]. }
  destruct (updateDv_evolves e st n dv) as [A B].
  destruct (updateDv e (st, n) dv) as [st1 n1]. simpl in A, B.
  destruct (IH st1 n1) as [A' B']. split; [congruence|].
  exact (tasksEvolve_trans _ _ _ B B').
Qed.

Lemma stepEvolves_open s s' :
  taskEvolves (Step.Task s) (Step.Task s') ->
  Forall2 taskEvolves (Step.Tasks s) (Step.Tasks s') ->
  Step.MarkedCompleted s = false -> stepEvolves s s'.
Proof. intros A B C. repeat split; try apply A; auto. congruence. Qed.

Lemma updateDiskTransfer_evolves e imp step :
  taskEvolves (Step.Task step) (Step.Task (updateDiskTransfer e imp step))
  /\ Forall2 taskEvolves (Step.Tasks step) (Step.Tasks (updateDiskTransfer e imp step)).
Proof.
  unfold updateDiskTransfer.
  destruct (updateDvs_evolve e (DataVolumes imp) step (mkTally 0 0 0)) as [A B].
  destruct (fold_left _ _ _) as [st n]. simpl in A, B.
  repeat match goal with |- context [if ?b then _ else _] => destruct b end;
    (split; [|exact B]); apply taskEvolves_same; simpl; rewrite ?A; try reflexivity;
    apply stampsKept_refl.
Qed.

Lemma AddError_reflect_frame (l : list Task.t) (r : Step.t) :
  let r' := fold_left (fun r x => match Task.Error x with
                                  | Some e => Step.AddError (Error.Reasons e) r
                                  | None => r
                                  end) l r in
  Task.Name (Step.Task r') = Task.Name (Step.Task r)
  /\ Task.Description (Step.Task r') = Task.Description (Step.Task r)
  /\ Task.Progress (Step.Task r') = Task.Progress (Step.Task r)
  /\ Task.Annotations (Step.Task r') = Task.Annotations (Step.Task r)
  /\ Task.Timed (Step.Task r') = Task.Timed (Step.Task r).
Proof.
  revert r. induction l as [|x tl IH]; intros r; simpl; [repeat split|].
  destruct (IH (match Task.Error x with
                | Some e => Step.AddError (Error.Reasons e) r
                | None => r
                end)) as (H1 & H2 & H3 & H4 & H5).
  rewrite H1, H2, H3, H4, H5. destruct (Task.Error x); repeat split.
Qed.

Lemma ReflectTasks_evolves now step :
  taskEvolves (Step.Task step) (Step.Task (Step.ReflectTasks now step)).
Proof.
  unfold Step.ReflectTasks.
  destruct (Step.Tasks step) as [|t tl] eqn:Ht; [apply taskEvolves_refl|].
  rewrite <- Ht.
  match goal with
  | |- context [fold_left ?f (Step.Tasks step) step] =>
      destruct (AddError_reflect_frame (Step.Tasks step) step) as (H1 & H2 & H3 & H4 & H5);
      set (r := fold_left f (Step.Tasks step) step) in *
  end.
  cbv zeta in H1, H2, H3, H4, H5.
  repeat match goal with |- context [if ?b then _ else _] => destruct b end;
    apply taskEvolves_same; simpl; rewrite ?H1, ?H2, ?H3, ?H4, ?H5; try reflexivity; stamps.
Qed.

Lemma updateImageConversion_evolves e imp vm step :
  taskEvolves (Step.Task step) (Step.Task (snd (updateImageConversion e imp vm step)))
  /\ Step.Tasks (snd (updateImageConversion e imp vm step)) = Step.Tasks step.
Proof.
  unfold updateImageConversion. cbv zeta.
  destruct (libcnd.FindCondition (ImpConditions imp) "Processing") as [cnd|];
    destruct (libcnd.FindCondition (ImpConditions imp) "Succeeded") as [c|];
    repeat match goal with |- context [if ?b then _ else _] => destruct b end;
    cbv beta iota zeta;
    repeat match goal with |- context [if ?b then _ else _] => destruct b end;
    (split; [|reflexivity]); apply taskEvolves_same; simpl; try reflexivity; stamps.
Qed.

Lemma updateStep_evolves e imp vm step : stepEvolves step (snd (updateStep e imp vm step)).
Proof.
  unfold updateStep. destruct (Step.MarkedCompleted step) eqn:Ec.
  { repeat split; auto using tasksEvolve_refl. }
  assert (H : forall vm' st,
            taskEvolves (Step.Task step) (Step.Task st) ->
            Forall2 taskEvolves (Step.Tasks step) (Step.Tasks st) ->
            stepEvolves step
              (snd (match Step.Error (Step.ReflectTasks (now e) st) with
                    | Some err => (VMStatus.AddError (Error.Reasons err) vm',
                                   Step.ReflectTasks (now e) st)
                    | None => (vm', Step.ReflectTasks (now e) st)
                    end))).
  { intros vm' st A B.
    assert (stepEvolves step (Step.ReflectTasks (now e) st)).
    { apply stepEvolves_open; [| |exact Ec].
      - exact (taskEvolves_trans _ _ _ A (ReflectTasks_evolves _ _)).
      - now rewrite ReflectTasks_Tasks. }
    destruct (Step.Error _); assumption. }
  destruct (String.eqb (Step.Name step) DiskTransfer).
  { destruct (updateDiskTransfer_evolves e imp step) as [A B]. now apply H. }
  destruct (String.eqb (Step.Name step) ImageConversion).
  - destruct (updateImageConversion_evolves e imp vm step) as [A B].
    destruct (updateImageConversion e imp vm step) as [vm' st]. simpl in A, B.
    apply H; [exact A|]. rewrite B. apply tasksEvolve_refl.
  - apply H; [apply taskEvolves_refl | apply tasksEvolve_refl].
Qed.

(** X10. [updatePipeline] keeps the steps of the pipeline and their
    tasks, in number and in order, each with its name, its description,
    its total and its annotations; it changes no time stamp that is set;
    and it leaves a step that is marked completed exactly as it is. *)
Theorem updatePipeline_steps_evolve (e : Env) (vm : VMStatus.t) (imp : VmImport) :
  Forall2 stepEvolves (VMStatus.Pipeline vm) (VMStatus.Pipeline (updatePipeline e vm imp)).
Proof.
  unfold updatePipeline.
  assert (H : forall l vm0 done,
            exists l', snd (fold_left (fun '(vm, done) step =>
                 let '(vm, step) := updateStep e imp vm step in (vm, done ++ [step]))
                 l (vm0, done)) = done ++ l'
                       /\ Forall2 stepEvolves l l').
  { induction l as [|s tl IH]; intros vm0 done; cbn [fold_left].
    { exists []. rewrite app_nil_r. split; [reflexivity | constructor]. }
    pose proof (updateStep_evolves e imp vm0 s) as Hs.
    destruct (updateStep e imp vm0 s) as [vm1 s1]. simpl in Hs.
    destruct (IH vm1 (done ++ [s1])) as (l' & E & F).
    exists (s1 :: l'). rewrite E, <- app_assoc. split; [reflexivity|].
    constructor; assumption. }
  destruct (H (VMStatus.Pipeline vm) vm []) as (l' & E & F).
  destruct (fold_left _ (VMStatus.Pipeline vm) (vm, [])) as [vm' steps].
  simpl in E. subst steps. exact F.
Qed.

Lemma updateDv_unmatched e st n dv i :
  Step.findIndex (ResolveDataVolumeIdentifier e dv) (Step.Tasks st) <> Some i ->
  Step.Tasks (fst (updateDv e (st, n) dv)) !! i = Step.Tasks st !! i.
Proof.
  intros Hi. unfold updateDv.
  destruct (Step.FindTask st (ResolveDataVolumeIdentifier e dv)) as [[j task]|] eqn:Ef;
    [|reflexivity].
  apply FindTask_Some in Ef as [Hj _]. assert (j <> i) by congruence. cbv zeta.
  destruct (boundFalse (DvConditions dv)) as [cnd|].
  { simpl. now apply list_lookup_insert_ne. }
  destruct (libcnd.FindCondition (DvConditions dv) "Running") as [cnd|]; [|reflexivity].
  destruct (libcnd.HasCondition (DvConditions dv) ["Ready"]); simpl;
    now apply list_lookup_insert_ne.
Qed.

Lemma updateDvs_unmatched e dvs st n i :
  (forall dv, In dv dvs ->
              Step.findIndex (ResolveDataVolumeIdentifier e dv) (Step.Tasks st) <> Some i) ->
  Step.Tasks (fst (fold_left (updateDv e) dvs (st, n))) !! i = Step.Tasks st !! i.
Proof.
  revert st n. induction dvs as [|dv dvs IH]; intros st n H; cbn [fold_left]; [reflexivity|].
  pose proof (updateDv_unmatched e st n dv i (H dv (or_introl eq_refl))) as H1.
  pose proof (updateDv_tally e st n dv) as Ht.
  destruct (updateDv e (st, n) dv) as [st1 n1]. destruct Ht as (_ & Hn & _).
  simpl in H1. rewrite <- H1. apply IH. intros dv' Hin.
  rewrite (Step_findIndex_names _ _ _ Hn). apply H. now right.
Qed.

(** X11. A task of a step that no data volume of the import resolves to
    is left as it is by [updatePipeline]: data volumes are matched to
    tasks by name, to the first task of that name. *)
Theorem updatePipeline_unmatched_task (e : Env) (imp : VmImport) (vm : VMStatus.t)
  (step : Step.t) (i : nat) :
  (forall dv, In dv (DataVolumes imp) ->
              Step.findIndex (ResolveDataVolumeIdentifier e dv) (Step.Tasks step) <> Some i) ->
  Step.Tasks (snd (updateStep e imp vm step)) !! i = Step.Tasks step !! i.
Proof.
  intros H. unfold updateStep. destruct (Step.MarkedCompleted step); [reflexivity|].
  assert (Hr : forall vm' st,
            Step.Tasks (snd (match Step.Error (Step.ReflectTasks (now e) st) with
                             | Some err => (VMStatus.AddError (Error.Reasons err) vm',
                                            Step.ReflectTasks (now e) st)
                             | None => (vm', Step.ReflectTasks (now e) st)
                             end)) = Step.Tasks st).
  { intros vm' st. destruct (Step.Error _); simpl; apply ReflectTasks_Tasks. }
  destruct (String.eqb (Step.Name step) DiskTransfer).
  { rewrite Hr, updateDiskTransfer_Tasks. now apply updateDvs_unmatched. }
  destruct (String.eqb (Step.Name step) ImageConversion); [|now rewrite Hr].
  destruct (updateImageConversion_evolves e imp vm step) as [_ B].
  destruct (updateImageConversion e imp vm step) as [vm' st]. simpl in B.
  now rewrite Hr, B.
Qed.

Lemma updatePipeline_unmatched_task_witness :
  Step.Tasks (snd (updateStep Scenario.env0 Scenario.impDone Scenario.vmTwoDisks
                              Scenario.stepTwoDisks)) !! 1%nat
  = Step.Tasks Scenario.stepTwoDisks !! 1%nat.
Proof.
  apply (updatePipeline_unmatched_task Scenario.env0 Scenario.impDone Scenario.vmTwoDisks
           Scenario.stepTwoDisks 1).
  intros dv [<- | []]. vm_compute. discriminate.
Defined.

Lemma updateImageConversion_Succeeded e imp vm step cnd :
  libcnd.FindCondition (ImpConditions imp) "Succeeded" = Some cnd ->
  let step' := snd (updateImageConversion e imp vm step) in
  Step.MarkedCompleted step' = true
  /\ libitr.Completed (Step.Progress step') = libitr.Total (Step.Progress step)
  /\ (if String.eqb (libcnd.Status cnd) libcnd.True_
      then Step.Phase step' = Completed /\ Step.Error step' = Step.Error step
      else Step.Phase step' = libcnd.Reason cnd
           /\ exists err, Step.Error step' = Some err
                          /\ In (libcnd.Message cnd) (Error.Reasons err)).
Proof.
  intros Hs. unfold updateImageConversion. rewrite Hs. cbv zeta.
  destruct (String.eqb (libcnd.Status cnd) libcnd.True_); cbn [negb];
    destruct (libcnd.FindCondition (ImpConditions imp) "Processing") as [c|];
    repeat match goal with |- context [if ?b then _ else _] => destruct b end;
    cbv beta iota zeta;
    repeat match goal with |- context [if ?b then _ else _] => destruct b end;
    cbn [snd]; (split; [apply Timed_MarkCompleted_marked|]);
    (split; [reflexivity|]); (split; [reflexivity|]); try reflexivity;
    (eexists; split; [reflexivity|]); simpl; apply in_or_app; right; now left.
Qed.

(** X12. When the import bears the condition Succeeded, [updatePipeline]
    ends an image-conversion step that is not marked completed: the step
    is marked completed and its progress is its total.  If the status of
    the condition is True the phase of the step is Completed and its
    error is as it was; else the phase of the step is the reason of the
    condition, and its message is recorded as an error of the step and of
    the VM. *)
Theorem updatePipeline_ImageConversion_done (e : Env) (imp : VmImport) (vm : VMStatus.t)
  (step : Step.t) (cnd : libcnd.Condition) :
  Step.MarkedCompleted step = false ->
  Step.Name step = ImageConversion ->
  Step.Tasks step = [] ->
  libcnd.FindCondition (ImpConditions imp) "Succeeded" = Some cnd ->
  let vm' := fst (updateStep e imp vm step) in
  let step' := snd (updateStep e imp vm step) in
  Step.MarkedCompleted step' = true
  /\ libitr.Completed (Step.Progress step') = libitr.Total (Step.Progress step)
  /\ (if String.eqb (libcnd.Status cnd) libcnd.True_
      then Step.Phase step' = Completed /\ Step.Error step' = Step.Error step
      else Step.Phase step' = libcnd.Reason cnd
           /\ (exists err, Step.Error step' = Some err
                           /\ In (libcnd.Message cnd) (Error.Reasons err))
           /\ (exists err, VMStatus.Error vm' = Some err
                           /\ In (libcnd.Message cnd) (Error.Reasons err))).
Proof.
  intros Hc Hn Ht Hs. unfold updateStep. rewrite Hc, Hn.
  change (String.eqb ImageConversion DiskTransfer) with false.
  change (String.eqb ImageConversion ImageConversion) with true. cbv iota.
  destruct (updateImageConversion_evolves e imp vm step) as [_ B].
  pose proof (updateImageConversion_Succeeded e imp vm step cnd Hs) as H.
  destruct (updateImageConversion e imp vm step) as [vm1 st]. simpl in B, H.
  assert (Hr : Step.ReflectTasks (now e) st = st).
  { unfold Step.ReflectTasks. now rewrite B, Ht. }
  rewrite Hr. destruct H as (H1 & H2 & H3). cbv zeta.
  destruct (String.eqb (libcnd.Status cnd) libcnd.True_).
  - destruct H3 as [H3 H4].
    destruct (Step.Error st) eqn:Ee; simpl; repeat split; auto; congruence.
  - destruct H3 as (H3 & err & H4 & H5). rewrite H4. simpl.
    repeat split; eauto. now apply AddError_In.
Qed.

Lemma updatePipeline_ImageConversion_done_witness :
  let step := unitStep ImageConversion "Convert image to kubevirt." in
  let vm' := fst (updateStep Scenario.env0 Scenario.impDone Scenario.vmDisk step) in
  let step' := snd (updateStep Scenario.env0 Scenario.impDone Scenario.vmDisk step) in
  Step.MarkedCompleted step' = true
  /\ libitr.Completed (Step.Progress step') = libitr.Total (Step.Progress step)
  /\ (if String.eqb (libcnd.Status (Scenario.cnd "Succeeded" "True" "" 8)) libcnd.True_
      then Step.Phase step' = Completed /\ Step.Error step' = Step.Error step
      else Step.Phase step' = libcnd.Reason (Scenario.cnd "Succeeded" "True" "" 8)
           /\ (exists err, Step.Error step' = Some err
                           /\ In (libcnd.Message (Scenario.cnd "Succeeded" "True" "" 8))
                                 (Error.Reasons err))
           /\ (exists err, VMStatus.Error vm' = Some err
                           /\ In (libcnd.Message (Scenario.cnd "Succeeded" "True" "" 8))
                                 (Error.Reasons err))).
Proof.
  apply (updatePipeline_ImageConversion_done Scenario.env0 Scenario.impDone Scenario.vmDisk
           (unitStep ImageConversion "Convert image to kubevirt.")
           (Scenario.cnd "Succeeded" "True" "" 8)); reflexivity.
Defined.

(** ** The closed pre-copy intervals *)

Lemma closedIntervals_app l k :
  closedIntervals (l ++ k) = closedIntervals l ++ closedIntervals k.
Proof. apply List.filter_app. Qed.

(** X13. The closed pre-copy intervals of a VM are only added to: after
    [updateWarmStatus] they are those before it, unchanged and in their
    order, followed by at most one more, which is the interval that was
    open and last, closed at the last-transition-time of the Processing
    condition, whose reason is CopyingPaused. *)
Theorem updateWarmStatus_closed_intervals (vm : VMStatus.t) (imp : VmImport) :
  exists more,
    closedIntervals (precopies (updateWarmStatus vm imp))
    = closedIntervals (precopies vm) ++ more
    /\ (more = []
        \/ exists cnd p,
             libcnd.FindCondition (ImpConditions imp) vmio.Processing = Some cnd
             /\ libcnd.Reason cnd = vmio.CopyingPaused
             /\ last (precopies vm) = Some p
             /\ isOpen p = true
             /\ more = [Warm.mkPrecopy (Warm.Start p) (Some (libcnd.LastTransitionTime cnd))]).
Proof.
  rewrite updateWarmStatus_precopies.
  destruct (libcnd.FindCondition (ImpConditions imp) vmio.Processing) as [cnd|];
    [|exists []; rewrite app_nil_r; auto].
  destruct (updatePrecopies_step cnd (precopies vm)) as [l Hr Hl | pre p Hr Hp | l _ _].
  - exists []. rewrite closedIntervals_app, app_nil_r. simpl. rewrite app_nil_r. auto.
  - exists [Warm.mkPrecopy (Warm.Start p) (Some (libcnd.LastTransitionTime cnd))].
    rewrite !closedIntervals_app. simpl. unfold closedIntervals at 2. simpl.
    rewrite Hp. simpl. rewrite app_nil_r. split; [reflexivity|].
    right. exists cnd, p. rewrite last_snoc. auto.
  - exists []. rewrite app_nil_r. auto.
Qed.

(** ** What [Cancel] does to the VMs *)

Lemma closeStep_closed now s :
  stepClosed s (if Step.MarkedStarted s then Step.MarkCompleted now s else s).
Proof.
  destruct s as [t tasks]. destruct t. unfold stepClosed.
  destruct (Step.MarkedStarted _) eqn:E.
  - repeat split; try discriminate; try apply stampsKept_MarkCompleted.
    intros _. apply Timed_MarkCompleted_marked.
  - repeat split; auto; discriminate.
Qed.

Lemma closeSteps_closed now l :
  Forall2 stepClosed l
          (List.map (fun step => if Step.MarkedStarted step
                                 then Step.MarkCompleted now step else step) l).
Proof. induction l; simpl; constructor; auto using closeStep_closed. Qed.

Lemma cancelVMs_effect e l l' deleted :
  cancelVMs e l = (l', deleted, None) ->
  deleted = List.map VMStatus.ID (List.filter toCancel l)
  /\ Forall2 (fun vm vm' => if toCancel vm then cleanedUp vm vm' else vm' = vm) l l'.
Proof.
  revert l' deleted. induction l as [|vm tl IH]; intros l' deleted; cbn [cancelVMs].
  { intros [= <- <-]. split; [reflexivity | constructor]. }
  cbn [List.filter]. fold (toCancel vm). destruct (toCancel vm) eqn:Ec.
  - destruct (DeleteImport e vm); [discriminate|]. cbv zeta.
    destruct (cancelVMs e tl) as [[tl' d] err]. intros [= <- <- ->].
    destruct (IH _ _ eq_refl) as [-> H]. split; [reflexivity|].
    constructor; [|exact H]. rewrite Ec. destruct vm. repeat split.
    + apply Timed_MarkCompleted_marked.
    + apply stampsKept_MarkCompleted.
    + apply stampsKept_MarkCompleted.
    + apply closeSteps_closed.
  - destruct (cancelVMs e tl) as [[tl' d] err]. intros [= <- <- ->].
    destruct (IH _ _ eq_refl) as [-> H]. split; [reflexivity|].
    constructor; [|exact H]. now rewrite Ec.
Qed.

(** X14. A [Cancel] that returns no error asks for the deletion of the
    import of each VM that has a true condition Canceled or Failed, in
    their order, and of no other.  Each of these VMs is marked completed,
    and each of its steps that was started is marked completed; nothing
    else of them changes, and no time stamp that was set.  The other VMs,
    the snapshot and the VMs of the plan are left as they are. *)
Theorem Cancel_effect (e : Env) (p p' : Plan.t) (deleted : list string) :
  Cancel e p = (p', deleted, None) ->
  deleted = List.map VMStatus.ID (List.filter toCancel (Plan.StatusVMs p))
  /\ Forall2 (fun vm vm' => if toCancel vm then cleanedUp vm vm' else vm' = vm)
             (Plan.StatusVMs p) (Plan.StatusVMs p')
  /\ Plan.set_VMs (Plan.StatusVMs p) p' = p.
Proof.
  intros H. pose proof (Cancel_snapshot e p) as Hs. rewrite H in Hs.
  revert H. unfold Cancel. destruct (Init e); [discriminate|].
  destruct (cancelVMs e (Plan.StatusVMs p)) as [[vms d] err] eqn:Ec.
  intros [= <- <- ->]. destruct (cancelVMs_effect _ _ _ _ Ec) as [A B]. auto.
Qed.

Lemma Cancel_effect_witness :
  let p' := fst (fst (Cancel Scenario.env0 Scenario.planMixed)) in
  ["vm-1"; "vm-1"]
  = List.map VMStatus.ID (List.filter toCancel (Plan.StatusVMs Scenario.planMixed))
  /\ Forall2 (fun vm vm' => if toCancel vm then cleanedUp vm vm' else vm' = vm)
             (Plan.StatusVMs Scenario.planMixed) (Plan.StatusVMs p')
  /\ Plan.set_VMs (Plan.StatusVMs Scenario.planMixed) p' = Scenario.planMixed.
Proof.
  exact (Cancel_effect Scenario.env0 Scenario.planMixed
           (fst (fst (Cancel Scenario.env0 Scenario.planMixed))) ["vm-1"; "vm-1"] eq_refl).
Defined.

Lemma Timed_MarkCompleted_idem now now' t :
  Timed.MarkCompleted now' (Timed.MarkCompleted now t) = Timed.MarkCompleted now t.
Proof.
  destruct t as [[s|] [c|]]; reflexivity.
Qed.

Lemma closeStep_idem now now' s :
  let close n step := if Step.MarkedStarted step then Step.MarkCompleted n step else step in
  close now' (close now s) = close now s.
Proof.
  cbv zeta. destruct s as [t tasks]. destruct t as [[[s|] [c|]] ? ? ? ? ? ? ?]; reflexivity.
Qed.

Lemma cancelVMs_again e e' l l' deleted :
  (forall vm, DeleteImport e' vm = None) ->
  cancelVMs e l = (l', deleted, None) ->
  cancelVMs e' l' = (l', deleted, None).
Proof.
  intros Hd. revert l' deleted. induction l as [|vm tl IH]; intros l' deleted; cbn [cancelVMs].
  { intros [= <- <-]. reflexivity. }
  destruct (VMStatus.HasAnyCondition vm [Canceled; Failed]) eqn:Ec.
  - destruct (DeleteImport e vm); [discriminate|]. cbv zeta.
    destruct (cancelVMs e tl) as [[tl' d] err]. intros [= <- <- ->].
    cbn [cancelVMs]. change (VMStatus.HasAnyCondition _ [Canceled; Failed])
      with (VMStatus.HasAnyCondition vm [Canceled; Failed]).
    rewrite Ec, Hd, (IH _ _ eq_refl). cbv zeta.
    destruct vm as [t v pipeline ph er w c]. unfold VMStatus.MarkCompleted, VMStatus.ID.
    cbn [VMStatus.Timed VMStatus.set_Timed VMStatus.set_Pipeline VMStatus.Pipeline
         VMStatus.VM VMStatus.Phase VMStatus.Error VMStatus.Warm VMStatus.Conditions
         VMStatus.Ref].
    rewrite Timed_MarkCompleted_idem, List.map_map.
    rewrite (List.map_ext _ _ (closeStep_idem (now e) (now e'))). reflexivity.
  - destruct (cancelVMs e tl) as [[tl' d] err]. intros [= <- <- ->].
    cbn [cancelVMs]. now rewrite Ec, (IH _ _ eq_refl).
Qed.

(** X15. [Cancel] is idempotent: after a [Cancel] that returned no error,
    another one changes nothing of the plan, whatever the time, and asks
    again for the deletion of the same imports. *)
Theorem Cancel_idempotent (e e' : Env) (p p' : Plan.t) (deleted : list string) :
  Cancel e p = (p', deleted, None) ->
  Init e' = None ->
  (forall vm, DeleteImport e' vm = None) ->
  Cancel e' p' = (p', deleted, None).
Proof.
  unfold Cancel. intros H Hi Hd. rewrite Hi. destruct (Init e); [discriminate|].
  destruct (cancelVMs e (Plan.StatusVMs p)) as [[vms d] err] eqn:Ec.
  injection H as <- <- ->.
  change (Plan.StatusVMs (Plan.set_VMs vms p)) with vms.
  now rewrite (cancelVMs_again e e' _ _ _ Hd Ec).
Qed.

Lemma Cancel_idempotent_witness :
  Cancel Scenario.envCanceled (fst (fst (Cancel Scenario.env0 Scenario.planMixed)))
  = (fst (fst (Cancel Scenario.env0 Scenario.planMixed)), ["vm-1"; "vm-1"], None).
Proof.
  apply (Cancel_idempotent Scenario.env0 Scenario.envCanceled Scenario.planMixed);
    reflexivity.
Defined.

Lemma cancelVMs_stops e pre vm post pre' deleted err :
  cancelVMs e pre = (pre', deleted, None) ->
  toCancel vm = true ->
  DeleteImport e vm = Some err ->
  cancelVMs e (pre ++ vm :: post)
  = (pre' ++ vm :: post, deleted ++ [VMStatus.ID vm], Some (Err.Wrap err)).
Proof.
  intros H Hc Hd. revert pre' deleted H.
  induction pre as [|x pre IH]; intros pre' deleted; cbn [cancelVMs app].
  { intros [= <- <-]. fold (toCancel vm). now rewrite Hc, Hd. }
  destruct (VMStatus.HasAnyCondition x [Canceled; Failed]).
  - destruct (DeleteImport e x); [discriminate|]. cbv zeta.
    destruct (cancelVMs e pre) as [[tl' d] er]. intros [= <- <- ->].
    now rewrite (IH _ _ eq_refl).
  - destruct (cancelVMs e pre) as [[tl' d] er]. intros [= <- <- ->].
    now rewrite (IH _ _ eq_refl).
Qed.

(** X16. [Cancel] stops at the first import that cannot be deleted: the
    error is returned, the VM of that import and the VMs after it are
    left as they are, also those with a condition Canceled or Failed, and
    the VMs before it are as a [Cancel] of them alone leaves them. *)
Theorem Cancel_stops_at_failure (e : Env) (p : Plan.t) (pre post pre' : list VMStatus.t)
  (vm : VMStatus.t) (deleted : list string) (err : Err.t) :
  Init e = None ->
  Plan.StatusVMs p = pre ++ vm :: post ->
  cancelVMs e pre = (pre', deleted, None) ->
  toCancel vm = true ->
  DeleteImport e vm = Some err ->
  Cancel e p
  = (Plan.set_VMs (pre' ++ vm :: post) p, deleted ++ [VMStatus.ID vm], Some err).
Proof.
  intros Hi Hp Hpre Hc Hd. unfold Cancel.
  now rewrite Hi, Hp, (cancelVMs_stops _ _ _ _ _ _ _ Hpre Hc Hd).
Qed.

Lemma Cancel_stops_at_failure_witness :
  Cancel Scenario.envNoDelete Scenario.planMixed
  = (Plan.set_VMs ([Scenario.doneWith Succeeded]
                   ++ Scenario.doneWith Failed :: [Scenario.doneWith Canceled])
                  Scenario.planMixed,
     [] ++ [VMStatus.ID (Scenario.doneWith Failed)],
     Some (Err.Other "imports is forbidden")).
Proof.
  apply (Cancel_stops_at_failure Scenario.envNoDelete Scenario.planMixed
           [Scenario.doneWith Succeeded] [Scenario.doneWith Canceled]); reflexivity.
Defined.

(** ** The end of a migration and the requeue of [Run] *)

Lemma cancelVMs_completed e l :
  forallb VMStatus.MarkedCompleted l = true ->
  forallb VMStatus.MarkedCompleted (fst (fst (cancelVMs e l))) = true.
Proof.
  induction l as [|vm tl IH]; cbn [cancelVMs]; [auto|].
  intros H. pose proof H as H0. cbn [forallb] in H. apply andb_true_iff in H as [Hv Ht].
  specialize (IH Ht).
  destruct (VMStatus.HasAnyCondition vm [Canceled; Failed]).
  - destruct (DeleteImport e vm); [exact H0|]. cbv zeta.
    destruct (cancelVMs e tl) as [[tl' d] err]. simpl in *. rewrite IH.
    unfold VMStatus.MarkedCompleted. simpl. now rewrite Timed_MarkCompleted_marked.
  - destruct (cancelVMs e tl) as [[tl' d] err]. simpl in *. now rewrite Hv, IH.
Qed.

Lemma Cancel_completed e p :
  forallb VMStatus.MarkedCompleted (Plan.StatusVMs p) = true ->
  forallb VMStatus.MarkedCompleted (Plan.StatusVMs (fst (fst (Cancel e p)))) = true.
Proof.
  intros H. unfold Cancel. destruct (Init e); [exact H|].
  pose proof (cancelVMs_completed e _ H) as Hc.
  destruct (cancelVMs e (Plan.StatusVMs p)) as [[vms d] err]. exact Hc.
Qed.

Lemma Cancel_ActiveSnapshot e p :
  Plan.ActiveSnapshot (fst (fst (Cancel e p))) = Plan.ActiveSnapshot p.
Proof.
  unfold Cancel. destruct (Init e); [reflexivity|].
  destruct (cancelVMs e (Plan.StatusVMs p)) as [[vms d] err]. reflexivity.
Qed.

(** What [end] leaves when it reports the migration completed, and when it
    does not. *)
Lemma end_completed e p :
  let '(p', completed, _, err) := end_ e p in
  if completed then
    forallb VMStatus.MarkedCompleted (Plan.StatusVMs p') = true
    /\ libcnd.FindCondition (Plan.Conditions (Plan.ActiveSnapshot p')) Executing = None
    /\ (exists ty, In ty [Succeeded; Failed; Canceled]
                   /\ libcnd.HasCondition (Plan.Conditions (Plan.ActiveSnapshot p')) [ty]
                      = true)
  else p' = p /\ forallb VMStatus.MarkedCompleted (Plan.StatusVMs p) = false /\ err = None.
Proof.
  unfold end_. destruct (forallb VMStatus.MarkedCompleted (Plan.StatusVMs p)) eqn:Ha;
    cbn [negb]; [|auto]. cbv zeta.
  assert (Hs : forall ty msg, ty <> Executing ->
            let conds' := libcnd.SetCondition (now e)
                            (libcnd.DeleteCondition (Plan.Conditions (Plan.ActiveSnapshot p))
                                                    [Executing])
                            (durable ty "" msg) in
            libcnd.HasCondition conds' [ty] = true
            /\ libcnd.FindCondition conds' Executing = None).
  { intros ty msg Hne. destruct (stamped_outcome (now e)
      (Plan.Conditions (Plan.ActiveSnapshot p)) ty msg ty Hne) as (A & B & _). auto. }
  destruct (Nat.ltb 0 (countCondition Failed (Plan.StatusVMs p))).
  - match goal with |- context [Cancel e ?q] =>
      pose proof (Cancel_completed e q Ha) as Hc;
      pose proof (Cancel_ActiveSnapshot e q) as Hn;
      destruct (Cancel e q) as [[p2 d] err]
    end.
    simpl in Hc, Hn. rewrite Hn. split; [exact Hc|].
    destruct (Hs Failed "The plan execution has FAILED.") as [A B]; [discriminate|].
    split; [exact B|]. exists Failed. split; [simpl; auto | exact A].
  - destruct (Nat.ltb 0 (countCondition Succeeded (Plan.StatusVMs p))).
    + destruct (Hs Succeeded "The plan execution has SUCCEEDED.") as [A B]; [discriminate|].
      split; [exact Ha|]. split; [exact B|]. exists Succeeded. split; [simpl; auto | exact A].
    + destruct (Hs Canceled "The plan execution has been CANCELED.") as [A B];
        [discriminate|].
      split; [exact Ha|]. split; [exact B|]. exists Canceled. split; [simpl; auto | exact A].
Qed.

(** X17. [Run] asks for no requeue only when the migration has ended:
    every VM of the plan is marked completed, and the snapshot bears no
    Executing condition and one of Succeeded, Failed and Canceled.  In
    every other case it asks for the poll requeue, and then it returns an
    error or a VM of the plan is not marked completed. *)
Theorem Run_requeue (e : Env) (p p' : Plan.t) (reQ : Z) (err : option Err.t) :
  Run e p = Some (p', reQ, err) ->
  (reQ = NoReQ
   /\ forallb VMStatus.MarkedCompleted (Plan.StatusVMs p') = true
   /\ libcnd.FindCondition (Plan.Conditions (Plan.ActiveSnapshot p')) Executing = None
   /\ (exists ty, In ty [Succeeded; Failed; Canceled]
                  /\ libcnd.HasCondition (Plan.Conditions (Plan.ActiveSnapshot p')) [ty]
                     = true))
  \/ (reQ = PollReQ
      /\ (is_Some err \/ forallb VMStatus.MarkedCompleted (Plan.StatusVMs p') = false)).
Proof.
  unfold Run. destruct (Init e); [intros [= <- <- <-]; right; eauto|].
  destruct (begin e p) as [[p1 [berr|]]|]; [intros [= <- <- <-]; right; eauto | |discriminate].
  destruct (stepAll _ p1 _) as [p2 [serr|]]; [intros [= <- <- <-]; right; eauto|].
  destruct (SchedulerNext _ _) as [hasNext|nerr]; [|intros [= <- <- <-]; right; eauto].
  destruct (match hasNext with Some i => _ | None => _ end) as [p3 [serr|]];
    [intros [= <- <- <-]; right; eauto|].
  pose proof (end_completed (set_Cancel_refs (resolveCanceledRefs e) e) p3) as He.
  destruct (end_ _ p3) as [[[p4 completed] d] eerr].
  intros [= <- <- <-]. destruct completed.
  - left. split; [reflexivity | exact He].
  - right. destruct He as (-> & Hf & _). auto.
Qed.

Lemma Run_requeue_witness :
  let p' := fst (fst (fst (end_ Scenario.env0 Scenario.planMixed))) in
  (NoReQ = NoReQ
   /\ forallb VMStatus.MarkedCompleted (Plan.StatusVMs p') = true
   /\ libcnd.FindCondition (Plan.Conditions (Plan.ActiveSnapshot p')) Executing = None
   /\ (exists ty, In ty [Succeeded; Failed; Canceled]
                  /\ libcnd.HasCondition (Plan.Conditions (Plan.ActiveSnapshot p')) [ty]
                     = true))
  \/ (NoReQ = PollReQ
      /\ (is_Some (@None Err.t)
          \/ forallb VMStatus.MarkedCompleted (Plan.StatusVMs p') = false)).
Proof.
  apply (Run_requeue Scenario.env0 Scenario.planMixed). vm_compute. reflexivity.
Defined.

(** X18. A plan that has no VM status is ended at once, and as canceled:
    [end] reports the migration completed, marks it completed, removes
    the condition Executing from the snapshot and sets Canceled on it. *)
Theorem end_without_VMs (e : Env) (p : Plan.t) :
  Plan.StatusVMs p = [] ->
  exists p',
    end_ e p = (p', true, [], None)
    /\ libcnd.HasCondition (Plan.Conditions (Plan.ActiveSnapshot p')) [Canceled] = true
    /\ libcnd.FindCondition (Plan.Conditions (Plan.ActiveSnapshot p')) Executing = None
    /\ Timed.MarkedCompleted (Plan.Timed (Plan.Migration p')) = true
    /\ Plan.StatusVMs p' = [].
Proof.
  intros H. unfold end_. rewrite H. cbn [forallb negb countCondition List.filter length Nat.ltb
    Nat.leb]. cbv zeta.
  eexists. split; [reflexivity|].
  destruct (stamped_outcome (now e) (Plan.Conditions (Plan.ActiveSnapshot p)) Canceled
              "The plan execution has been CANCELED." Canceled) as (A & B & _);
    [discriminate|].
  repeat split; [exact A | exact B | apply Timed_MarkCompleted_marked | exact H].
Qed.

Lemma end_without_VMs_witness :
  exists p',
    end_ Scenario.env0 Scenario.planStuck = (p', true, [], None)
    /\ libcnd.HasCondition (Plan.Conditions (Plan.ActiveSnapshot p')) [Canceled] = true
    /\ libcnd.FindCondition (Plan.Conditions (Plan.ActiveSnapshot p')) Executing = None
    /\ Timed.MarkedCompleted (Plan.Timed (Plan.Migration p')) = true
    /\ Plan.StatusVMs p' = [].
Proof.
  apply (end_without_VMs Scenario.env0 Scenario.planStuck). reflexivity.
Defined.

(** ** [begin] *)

(** What a [begin] that takes effect leaves of the plan, whatever becomes
    of the VMs. *)
Lemma begin_executing e p p' err :
  libcnd.HasAnyCondition (Plan.Conditions (Plan.ActiveSnapshot p))
                         [Executing; Succeeded; Failed; Canceled] = false ->
  begin e p = Some (p', err) ->
  libcnd.HasCondition (Plan.Conditions (Plan.ActiveSnapshot p')) [Executing] = true
  /\ Plan.Timed (Plan.Migration p') = Timed.mk (Some (now e)) None
  /\ Plan.SpecVMs p' = Plan.SpecVMs p
  /\ Plan.History (Plan.Migration p') = Plan.History (Plan.Migration p).
Proof.
  intros Hg. unfold begin. rewrite Hg.
  assert (Hx : libcnd.HasCondition
                 (libcnd.SetCondition (now e) (Plan.Conditions (Plan.ActiveSnapshot p))
                    (durable Executing "" "The plan is EXECUTING.")) [Executing] = true).
  { apply (HasCondition_SetCondition_eq (now e) _ (durable Executing "" _)). }
  destruct (EnsureNamespace e); [intros [= <- <-]; now repeat split|].
  destruct (resolveRefs e _) as [vms [rerr|]]; [intros [= <- <-]; now repeat split|].
  destruct (beginVMs e _ _ _) as [[kept [added|berr]]|]; [| |discriminate];
    intros [= <- <-]; now repeat split.
Qed.

(** X19. [begin] takes effect once for a snapshot: whatever a [begin]
    returns, also an error, a [begin] of the plan it leaves does nothing
    and returns no error, until the plan has a new snapshot. *)
Theorem begin_once (e e' : Env) (p : Plan.t) :
  exists p' err, begin e p = Some (p', err) /\ begin e' p' = Some (p', None).
Proof.
  destruct (begin_returns e p) as [[p' err] H]. exists p', err. split; [exact H|].
  destruct (libcnd.HasAnyCondition (Plan.Conditions (Plan.ActiveSnapshot p))
              [Executing; Succeeded; Failed; Canceled]) eqn:Hg.
  - unfold begin in H. rewrite Hg in H. injection H as <- <-.
    unfold begin. now rewrite Hg.
  - destruct (begin_executing e p p' err Hg H) as (Hx & _).
    unfold begin. rewrite (HasAny_outcome _ Executing); [reflexivity | now left | exact Hx].
Qed.

Lemma resolveRefs_resolved e l l' :
  resolveRefs e l = (l', None) -> Forall2 (resolved e) l l'.
Proof.
  revert l'. induction l as [|s tl IH]; intros l'; cbn [resolveRefs].
  { intros [= <-]. constructor. }
  destruct (InventoryVM e (VMStatus.Ref s)) as [ref|err] eqn:Hr; [|discriminate].
  destruct (resolveRefs e tl) as [tl' err]. intros [= <- ->].
  constructor; [now exists ref | now apply IH].
Qed.

Lemma resetStatus_startedAnew e p vm pipeline status :
  In vm (Plan.SpecVMs p) ->
  VMStatus.ID status = Ref.ID (VM.Ref vm) ->
  buildPipeline e vm = Some (pipeline, None) ->
  startedAnew e p
    (resetStatus pipeline
       (libitr.Name (default libitr.zeroStep (libitr.First (Evaluate vm) itinerary))) status).
Proof.
  intros Hin Hid Hb. rewrite First_itinerary.
  repeat split; try reflexivity.
  - apply FindCondition_DeleteCondition_in. now left.
  - apply FindCondition_DeleteCondition_in. right. now left.
  - exists vm. repeat split; auto.
Qed.

Section Begin.
Variables (e : Env) (p : Plan.t).

Lemma slotOk_insert kept slot i s1 :
  startedAnew e p s1 -> slotOk e p kept slot -> slotOk e p (<[i := s1]> kept) slot.
Proof.
  intros H1 Hs s. destruct slot as [j|st]; [|apply Hs]. cbn [slotStatus].
  intros Hl. apply list_lookup_insert_Some in Hl as [(-> & <- & _) | [_ Hl]]; [now left|].
  now apply Hs.
Qed.

Lemma beginVM_shape kept vm kept' slot :
  In vm (Plan.SpecVMs p) ->
  Forall (keptOk e p) kept ->
  beginVM e kept vm = Some (kept', inl slot) ->
  Forall (keptOk e p) kept'
  /\ slotOk e p kept' slot
  /\ (kept' = kept \/ exists i s1, kept' = <[i := s1]> kept /\ startedAnew e p s1).
Proof.
  intros Hin Hk. unfold beginVM. cbv zeta.
  destruct (Plan.StatusFindVM kept (VM.Ref vm)) as [i|] eqn:Hf.
  - unfold Plan.StatusFindVM in Hf. destruct (findIndex_Some _ _ _ Hf) as (s & Hs & Hid).
    cbn [slotStatus]. rewrite Hs.
    destruct (negb _ || _) eqn:Hc.
    + destruct (buildPipeline e vm) as [[pipeline [err|]]|] eqn:Hb; try discriminate.
      cbn [putSlot]. intros [= <- <-].
      pose proof (resetStatus_startedAnew e p vm pipeline s Hin Hid Hb) as Hr.
      repeat split.
      * apply Forall_insert; [exact Hk | now left].
      * intros s'. cbn [slotStatus]. intros Hl.
        apply list_lookup_insert_Some in Hl as [(_ & <- & _) | [Hne _]];
          [now left | congruence].
      * right. eauto.
    + intros [= <- <-]. repeat split; [exact Hk | | now left].
      intros s'. cbn [slotStatus]. rewrite Hs. intros [= <-].
      apply orb_false_iff in Hc as [Hph Hany]. apply negb_false_iff, String.eqb_eq in Hph.
      destruct (Forall_lookup_1 _ _ _ _ Hk Hs) as [Hr | Hr]; [now left|].
      right. repeat split; assumption.
  - cbn [slotStatus].
    change (negb (String.eqb (VMStatus.Phase (VMStatus.fresh vm)) Completed)) with true.
    cbn [orb].
    destruct (buildPipeline e vm) as [[pipeline [err|]]|] eqn:Hb; try discriminate.
    cbn [putSlot]. intros [= <- <-].
    pose proof (resetStatus_startedAnew e p vm pipeline (VMStatus.fresh vm) Hin eq_refl Hb)
      as Hr.
    repeat split; [exact Hk | | now left].
    intros s'. cbn [slotStatus]. intros [= <-]. now left.
Qed.

Lemma beginVMs_shape vms kept added kept' added' :
  (forall vm, In vm vms -> In vm (Plan.SpecVMs p)) ->
  Forall (keptOk e p) kept ->
  Forall (slotOk e p kept) added ->
  beginVMs e kept vms added = Some (kept', inl added') ->
  Forall (slotOk e p kept') added'.
Proof.
  revert kept added. induction vms as [|vm tl IH]; intros kept added Hin Hk Ha; cbn [beginVMs].
  { now intros [= <- <-]. }
  destruct (beginVM e kept vm) as [[kept1 [slot|err]]|] eqn:Hb; try discriminate.
  destruct (beginVM_shape _ _ _ _ (Hin vm (or_introl eq_refl)) Hk Hb) as (Hk1 & Hs1 & Hch).
  apply IH; [intros v Hv; apply Hin; now right | exact Hk1 |].
  apply Forall_app. split; [|constructor; [exact Hs1 | constructor]].
  destruct Hch as [-> | (i & s1 & -> & Hr)]; [exact Ha|].
  eapply List.Forall_impl; [|exact Ha]. intros sl. now apply slotOk_insert.
Qed.

End Begin.

(** X20. After a [begin] that took effect and returned no error, every
    VM status of the plan is either reset or carried over.  A status
    that is reset is in phase Started, with the pipeline built for a VM
    of the plan of the same ID, and has no time stamp, no error, no warm
    state and no condition Canceled or Failed.  A status that is carried
    over is a status of the plan before, its reference resolved, in phase
    Completed and with no true condition Canceled or Failed. *)
Theorem begin_resets_or_carries_over (e : Env) (p p' : Plan.t) :
  libcnd.HasAnyCondition (Plan.Conditions (Plan.ActiveSnapshot p))
                         [Executing; Succeeded; Failed; Canceled] = false ->
  begin e p = Some (p', None) ->
  Forall (fun s => startedAnew e p s \/ carriedOver e p s) (Plan.StatusVMs p').
Proof.
  intros Hg. unfold begin. rewrite Hg.
  destruct (EnsureNamespace e); [discriminate|].
  change (Plan.StatusVMs (Plan.set_Active _ _)) with (Plan.StatusVMs p).
  change (Plan.SpecVMs (Plan.set_Active _ _)) with (Plan.SpecVMs p).
  destruct (resolveRefs e (Plan.StatusVMs p)) as [vms [rerr|]] eqn:Hr; [discriminate|].
  destruct (beginVMs e _ _ _) as [[kept [added|berr]]|] eqn:Hb; try discriminate.
  intros [= <-].
  change (Plan.StatusVMs (Plan.set_VMs ?l _)) with l.
  apply (beginVMs_shape e p) in Hb; [| auto | | constructor].
  - apply Forall_forall. intros s Hs.
    apply list_elem_of_omap in Hs as (slot & Hslot & Hst).
    apply list_elem_of_In in Hslot.
    exact (proj1 (List.Forall_forall _ _) Hb slot Hslot s Hst).
  - apply List.Forall_forall. intros s Hs. apply List.filter_In in Hs as [Hs _].
    right. apply resolveRefs_resolved in Hr.
    apply list_elem_of_In, list_elem_of_lookup in Hs as [i Hi].
    destruct (Forall2_lookup_r _ _ _ _ _ Hr Hi) as (s0 & Hi0 & Hres).
    exists s0. split; [|exact Hres].
    apply list_elem_of_In. eapply list_elem_of_lookup_2; eauto.
Qed.

Lemma begin_resets_or_carries_over_witness :
  Forall (fun s => startedAnew Scenario.env0 (Plan.NewSnapshot Scenario.planEnded) s
                   \/ carriedOver Scenario.env0 (Plan.NewSnapshot Scenario.planEnded) s)
         (Plan.StatusVMs Scenario.planRebegun).
Proof.
  apply (begin_resets_or_carries_over Scenario.env0 (Plan.NewSnapshot Scenario.planEnded)
           Scenario.planRebegun); vm_compute; reflexivity.
Defined.

(** ** The gates of the phases *)

Lemma conclude_clean e vm :
  VMStatus.Error vm = None ->
  Forall (fun s => Step.Error s = None) (VMStatus.Pipeline vm) ->
  VMStatus.Phase (conclude e vm) = VMStatus.Phase vm
  /\ VMStatus.Error (conclude e vm) = None
  /\ VMStatus.Pipeline (conclude e vm) = VMStatus.Pipeline vm.
Proof.
  intros He Hp. pose proof (reflect_clean (ReflectTimed e) vm He Hp) as Hr.
  destruct (conclude_cases e vm) as (Hpl & [(A & _) | [(_ & A & B & C & _) | (_ & _ & A & B & _)]]).
  - rewrite Hr in A. destruct A. discriminate.
  - repeat split; auto. congruence.
  - repeat split; auto.
Qed.

(** X21. In a hook phase, when the hook runner returns no error and the
    pipeline it leaves has the step of the phase and no error, the VM
    stays in the phase until that step is marked completed, and then
    moves to the next phase of its itinerary. *)
Theorem step_hook_gate (e : Env) (vm : VMStatus.t) (pipeline : list Step.t) (st : Step.t) :
  Canceled_ref (Cancel_refs e) (VMStatus.Ref vm) = false ->
  VMStatus.Phase vm = PreHook \/ VMStatus.Phase vm = PostHook ->
  HookRun e vm = (pipeline, None) ->
  VMStatus.FindStep (VMStatus.set_Pipeline pipeline vm) (VMStatus.Phase vm) = Some st ->
  VMStatus.Error vm = None ->
  Forall (fun s => Step.Error s = None) pipeline ->
  exists vm',
    step e vm = (vm', None)
    /\ VMStatus.Phase vm'
       = (if Step.MarkedCompleted st then next (VMStatus.VM vm) (VMStatus.Phase vm)
          else VMStatus.Phase vm)
    /\ VMStatus.Pipeline vm' = pipeline
    /\ VMStatus.Error vm' = None.
Proof.
  intros Hc Hp Hh Hf He Hs.
  assert (Hst : Step.Error st = None).
  { unfold VMStatus.FindStep in Hf. apply List.find_some in Hf as [Hin _].
    exact (proj1 (List.Forall_forall _ _) Hs st Hin). }
  assert (Hd : dispatch e vm
               = (if Step.MarkedCompleted st
                  then VMStatus.set_Phase (next (VMStatus.VM vm) (VMStatus.Phase vm))
                                          (VMStatus.set_Pipeline pipeline vm)
                  else VMStatus.set_Pipeline pipeline vm, Fallthrough)).
  { unfold dispatch. cbv zeta.
    assert (E : String.eqb (VMStatus.Phase vm) Started = false
                /\ String.eqb (VMStatus.Phase vm) PreHook
                   || String.eqb (VMStatus.Phase vm) PostHook = true).
    { destruct Hp as [-> | ->]; split; reflexivity. }
    destruct E as [-> ->]. rewrite Hh.
    change (VMStatus.Phase (VMStatus.set_Pipeline pipeline vm)) with (VMStatus.Phase vm).
    rewrite Hf, Hst. cbn [negb]. rewrite andb_true_r.
    destruct (Step.MarkedCompleted st); reflexivity. }
  unfold step. rewrite Hc, Hd. eexists. split; [reflexivity|].
  destruct (Step.MarkedCompleted st);
    match goal with |- context [conclude e ?v] =>
      destruct (conclude_clean e v He Hs) as (A & B & C)
    end; repeat split; assumption.
Qed.

Lemma step_hook_gate_witness :
  exists vm',
    step Scenario.env0 Scenario.vmPreHook = (vm', None)
    /\ VMStatus.Phase vm'
       = (if Step.MarkedCompleted (unitStep PreHook "Run pre-migration hook.")
          then next (VMStatus.VM Scenario.vmPreHook) (VMStatus.Phase Scenario.vmPreHook)
          else VMStatus.Phase Scenario.vmPreHook)
    /\ VMStatus.Pipeline vm' = VMStatus.Pipeline Scenario.vmPreHook
    /\ VMStatus.Error vm' = None.
Proof.
  apply (step_hook_gate Scenario.env0 Scenario.vmPreHook
           (VMStatus.Pipeline Scenario.vmPreHook)
           (unitStep PreHook "Run pre-migration hook."));
    try reflexivity; [now left | repeat constructor].
Defined.

(** X22. In phase ImportCreated, when the import is ensured and the
    status derived from it has no error, the VM stays in the phase until
    its image-conversion step is marked completed, or its disk-transfer
    step when the pipeline has no image-conversion step, and then moves
    to the next phase of its itinerary.  With neither step the VM stays
    in the phase. *)
Theorem step_import_gate (e : Env) (vm vm1 : VMStatus.t) :
  Canceled_ref (Cancel_refs e) (VMStatus.Ref vm) = false ->
  VMStatus.Phase vm = ImportCreated ->
  EnsureImport e vm = None ->
  updateVM e vm = (vm1, None) ->
  VMStatus.Error vm1 = None ->
  Forall (fun s => Step.Error s = None) (VMStatus.Pipeline vm1) ->
  exists vm',
    step e vm = (vm', None)
    /\ VMStatus.Phase vm'
       = match importGate vm1 with
         | Some st => if Step.MarkedCompleted st
                      then next (VMStatus.VM vm) ImportCreated else ImportCreated
         | None => ImportCreated
         end
    /\ VMStatus.Pipeline vm' = VMStatus.Pipeline vm1
    /\ VMStatus.Error vm' = None.
Proof.
  intros Hc Hp Hi Hu He Hs.
  pose proof (updateVM_derived e vm) as (_ & Hv & Hph & _). rewrite Hu in Hv, Hph.
  simpl in Hv, Hph. rewrite Hp in Hph.
  assert (Ha : forall name st, VMStatus.FindStep vm1 name = Some st ->
            afterStep vm1 st
            = if Step.MarkedCompleted st
              then VMStatus.set_Phase (next (VMStatus.VM vm) ImportCreated) vm1 else vm1).
  { intros name st Hf. unfold afterStep.
    apply List.find_some in Hf as [Hin _].
    rewrite (proj1 (List.Forall_forall _ _) Hs st Hin), Hv, Hph. reflexivity. }
  assert (Hd : dispatch e vm
               = (match importGate vm1 with
                  | Some st => if Step.MarkedCompleted st
                               then VMStatus.set_Phase (next (VMStatus.VM vm) ImportCreated) vm1
                               else vm1
                  | None => vm1
                  end, Fallthrough)).
  { unfold dispatch, ensureImport. cbv zeta. rewrite Hp.
    cbn [String.eqb Ascii.eqb Bool.eqb Started PreHook PostHook CreateImport ImportCreated orb].
    rewrite Hi, Hu. unfold importGate.
    destruct (VMStatus.FindStep vm1 ImageConversion) as [st|] eqn:E1.
    { now rewrite (Ha _ _ E1). }
    destruct (VMStatus.FindStep vm1 DiskTransfer) as [st|] eqn:E2; [|reflexivity].
    now rewrite (Ha _ _ E2). }
  unfold step. rewrite Hc, Hd. eexists. split; [reflexivity|].
  destruct (importGate vm1) as [st|]; [destruct (Step.MarkedCompleted st)|];
    match goal with |- context [conclude e ?v] =>
      destruct (conclude_clean e v He Hs) as (A & B & C)
    end; repeat split; try assumption; rewrite A; auto.
Qed.

Lemma step_import_gate_witness :
  exists vm',
    step Scenario.env0 Scenario.vmDisk = (vm', None)
    /\ VMStatus.Phase vm'
       = match importGate (fst (updateVM Scenario.env0 Scenario.vmDisk)) with
         | Some st => if Step.MarkedCompleted st
                      then next (VMStatus.VM Scenario.vmDisk) ImportCreated else ImportCreated
         | None => ImportCreated
         end
    /\ VMStatus.Pipeline vm' = VMStatus.Pipeline (fst (updateVM Scenario.env0 Scenario.vmDisk))
    /\ VMStatus.Error vm' = None.
Proof.
  apply (step_import_gate Scenario.env0 Scenario.vmDisk
           (fst (updateVM Scenario.env0 Scenario.vmDisk)));
    try (vm_compute; reflexivity).
  vm_compute. repeat constructor.
Defined.

(** ** The VMs that [Run] steps *)

Lemma stepAt_frame e p i :
  let p' := fst (stepAt e p i) in
  List.map VMStatus.VM (Plan.StatusVMs p') = List.map VMStatus.VM (Plan.StatusVMs p)
  /\ (forall j, j <> i -> Plan.StatusVMs p' !! j = Plan.StatusVMs p !! j)
  /\ Plan.set_VMs (Plan.StatusVMs p) p' = p.
Proof.
  cbv zeta. unfold stepAt. destruct (Plan.StatusVMs p !! i) as [vm|] eqn:Hi.
  - pose proof (step_VM e vm) as Hv.
    destruct (step e vm) as [vm' err]. simpl in Hv. cbn [fst].
    change (Plan.StatusVMs (Plan.set_VMs ?l _)) with l.
    repeat split.
    + now apply (map_insert_same VMStatus.VM _ i vm' vm).
    + intros j Hj. now apply list_lookup_insert_ne.
    + destruct p as [spec [t a h vms]]. reflexivity.
  - repeat split. destruct p as [spec [t a h vms]]. reflexivity.
Qed.

(** X23. The loop of [Run] over the running VMs changes the statuses at
    the positions it is given and no other; it keeps the number and the
    order of the statuses, the VM of each of them, with its reference and
    hooks, and the rest of the plan. *)
Theorem stepAll_frame (e : Env) (p : Plan.t) (l : list nat) :
  let p' := fst (stepAll e p l) in
  List.map VMStatus.VM (Plan.StatusVMs p') = List.map VMStatus.VM (Plan.StatusVMs p)
  /\ (forall j, ~ In j l -> Plan.StatusVMs p' !! j = Plan.StatusVMs p !! j)
  /\ Plan.set_VMs (Plan.StatusVMs p) p' = p.
Proof.
  cbv zeta. revert p. induction l as [|i tl IH]; intros p; cbn [stepAll].
  { repeat split. destruct p as [spec [t a h vms]]. reflexivity. }
  destruct (stepAt_frame e p i) as (A & B & C).
  destruct (stepAt e p i) as [p1 [err|]]; cbn [fst] in *.
  - repeat split; auto. intros j Hj. apply B. intros ->. apply Hj. now left.
  - destruct (IH p1) as (A' & B' & C'). repeat split.
    + congruence.
    + intros j Hj. rewrite B' by (intros H; apply Hj; now right).
      apply B. intros ->. apply Hj. now left.
    + transitivity (Plan.set_VMs (Plan.StatusVMs p)
                      (Plan.set_VMs (Plan.StatusVMs p1) (fst (stepAll e p1 tl))));
        [reflexivity | now rewrite C'].
Qed.

(* ===================================================================== *)
(** * Properties of the vSphere inventory model *)
(* ===================================================================== *)

(** ** The path of an object *)

Lemma append_assoc (s1 s2 s3 : string) : (s1 +:+ s2) +:+ s3 = s1 +:+ (s2 +:+ s3).
Proof.
  induction s1 as [|c s1 IH]; [reflexivity|].
  change (String c ((s1 +:+ s2) +:+ s3) = String c (s1 +:+ (s2 +:+ s3))). now rewrite IH.
Qed.

Lemma concat_snoc sep a (l : list string) x :
  String.concat sep ((a :: l) ++ [x]) = String.concat sep (a :: l) +:+ sep +:+ x.
Proof.
  revert a. induction l as [|b l IH]; intros a; [reflexivity|].
  change (String.concat sep ((a :: b :: l) ++ [x]))
    with (a +:+ sep +:+ String.concat sep ((b :: l) ++ [x])).
  rewrite IH. change (String.concat sep (a :: b :: l))
    with (a +:+ sep +:+ String.concat sep (b :: l)).
  now rewrite !append_assoc.
Qed.

(** The parts that the walk is given stay first. *)
Lemma walk_cons K hops db node a parts :
  inventory.walk K hops db node (a :: parts)
  = match inventory.walk K hops db node parts with
    | Some (inl ps) => Some (inl (a :: ps))
    | Some (inr err) => Some (inr err)
    | None => None
    end.
Proof.
  revert node parts. induction hops as [|hops IH]; intros node parts; [reflexivity|].
  cbn [inventory.walk]. cbv zeta. unfold inventory.getParent.
  repeat match goal with
         | |- context [if ?b then _ else _] => destruct b
         | |- context [match db ?k ?i with _ => _ end] => destruct (db k i)
         end; try reflexivity; apply (IH _ (parts ++ _)).
Qed.

(** The tests of the kind of a parent, for kinds that are told apart. *)
Ltac kind_tests H :=
  repeat match goal with
         | |- context [String.eqb ?a ?a] => rewrite (String.eqb_refl a); cbv iota
         | |- context [String.eqb ?a ?b] =>
             let E := fresh "E" in
             destruct (String.eqb_spec a b) as [E|_];
             [exfalso; clear - H E; unfold treeKinds, walkedKinds in H; rewrite E in H;
              repeat (apply NoDup_cons in H as [? H]); set_solver|]
         end.

(** One turn of the walk through a parent. *)
Lemma walk_through K hops db node parts kind b :
  NoDup (treeKinds K) ->
  In kind (walkedKinds K) ->
  vsphere.Kind (vsphere.Parent node) = kind ->
  db kind (vsphere.RefID (vsphere.Parent node)) = inl b ->
  inventory.walk K (S hops) db node parts
  = inventory.walk K hops db b (parts ++ [vsphere.Name b]).
Proof.
  intros H Hk Hp Hb. cbn [inventory.walk]. cbv zeta. unfold inventory.getParent. rewrite Hp.
  destruct Hk as [<- | [<- | [<- | [<- | [<- | []]]]]]; kind_tests H; rewrite Hb; reflexivity.
Qed.

Lemma Path_walk K hops db m :
  inventory.Path K hops db m
  = match inventory.walk K hops db m [] with
    | Some (inl ps) =>
        Some (inl (String.concat "/" ("" :: rev ps) +:+ "/" +:+ vsphere.Name m))
    | Some (inr err) => Some (inr err)
    | None => None
    end.
Proof.
  unfold inventory.Path. rewrite walk_cons.
  destruct (inventory.walk K hops db m []) as [[ps|err]|]; try reflexivity.
  exact (f_equal (fun x => Some (inl x)) (concat_snoc "/" "" (rev ps) (vsphere.Name m))).
Qed.

(** X24. The path of an object whose parent is a folder, a cluster, a
    host, a network or a datastore is the path of that parent, then a
    slash and the name of the object; when the path of the parent is an
    error, or is not found within the hops given, so is that of the
    object, with one more hop. *)
Theorem Path_of_child (K : inventory.Kinds) (hops : nat) (db : inventory.DB)
  (m b : vsphere.Base) (kind : string) :
  NoDup (treeKinds K) ->
  In kind (walkedKinds K) ->
  vsphere.Kind (vsphere.Parent m) = kind ->
  db kind (vsphere.RefID (vsphere.Parent m)) = inl b ->
  inventory.Path K (S hops) db m
  = match inventory.Path K hops db b with
    | Some (inl above) => Some (inl (above +:+ "/" +:+ vsphere.Name m))
    | Some (inr err) => Some (inr err)
    | None => None
    end.
Proof.
  intros H Hk Hp Hb. rewrite Path_walk, (walk_through K hops db m [] kind b H Hk Hp Hb).
  unfold inventory.Path. cbn [app].
  destruct (inventory.walk K hops db b [vsphere.Name b]) as [[ps|err]|]; reflexivity.
Qed.

Lemma Path_of_child_witness :
  inventory.Path Scenario.kinds1 3 Scenario.db1 Scenario.host1
  = match inventory.Path Scenario.kinds1 2 Scenario.db1 Scenario.cluster1 with
    | Some (inl above) => Some (inl (above +:+ "/" +:+ vsphere.Name Scenario.host1))
    | Some (inr err) => Some (inr err)
    | None => None
    end.
Proof.
  apply (Path_of_child Scenario.kinds1 2 Scenario.db1 Scenario.host1 Scenario.cluster1
           "Cluster");
    [apply (bool_decide_unpack _); vm_compute; reflexivity
    | right; left; reflexivity | reflexivity | reflexivity].
Defined.

(** X25. The walk to the root ends in two ways.  The path of an object
    whose parent is of none of the kinds of the inventory tree is a slash
    and its name.  The path of an object whose parent is a datacenter is
    a slash, the name of the datacenter, a slash and the name of the
    object, whatever the parent of the datacenter. *)
Theorem Path_ends (K : inventory.Kinds) (hops : nat) (db : inventory.DB) (m : vsphere.Base) :
  NoDup (treeKinds K) ->
  (~ In (vsphere.Kind (vsphere.Parent m)) (treeKinds K) ->
   inventory.Path K (S hops) db m = Some (inl ("/" +:+ vsphere.Name m)))
  /\ (forall d,
        vsphere.Kind (vsphere.Parent m) = inventory.DatacenterKind K ->
        db (inventory.DatacenterKind K) (vsphere.RefID (vsphere.Parent m)) = inl d ->
        inventory.Path K (S hops) db m
        = Some (inl ("/" +:+ vsphere.Name d +:+ "/" +:+ vsphere.Name m))).
Proof.
  intros H. split.
  - intros Hn. unfold inventory.Path. cbn [inventory.walk]. cbv zeta.
    repeat match goal with
           | |- context [if String.eqb ?a ?b then _ else _] =>
               destruct (String.eqb_spec a b) as [E|_];
               [exfalso; apply Hn; rewrite E; simpl; tauto|]
           end.
    reflexivity.
  - intros d Hk Hd. unfold inventory.Path. cbn [inventory.walk]. cbv zeta.
    unfold inventory.getParent. rewrite Hk. kind_tests H. rewrite Hd. reflexivity.
Qed.

Lemma Path_ends_witness :
  (~ In (vsphere.Kind (vsphere.Parent Scenario.datacenter1)) (treeKinds Scenario.kinds1) ->
   inventory.Path Scenario.kinds1 1 Scenario.db1 Scenario.datacenter1
   = Some (inl ("/" +:+ vsphere.Name Scenario.datacenter1)))
  /\ (forall d,
        vsphere.Kind (vsphere.Parent Scenario.datacenter1)
        = inventory.DatacenterKind Scenario.kinds1 ->
        Scenario.db1 (inventory.DatacenterKind Scenario.kinds1)
                     (vsphere.RefID (vsphere.Parent Scenario.datacenter1)) = inl d ->
        inventory.Path Scenario.kinds1 1 Scenario.db1 Scenario.datacenter1
        = Some (inl ("/" +:+ vsphere.Name d +:+ "/"
                     +:+ vsphere.Name Scenario.datacenter1))).
Proof.
  apply (Path_ends Scenario.kinds1 0 Scenario.db1 Scenario.datacenter1).
  apply (bool_decide_unpack _). vm_compute. reflexivity.
Defined.

(** X26. When the parent of an object cannot be got from the database,
    the path of the object is the error of the database. *)
Theorem Path_error (K : inventory.Kinds) (hops : nat) (db : inventory.DB) (m : vsphere.Base)
  (kind err : string) :
  NoDup (treeKinds K) ->
  In kind (treeKinds K) ->
  vsphere.Kind (vsphere.Parent m) = kind ->
  db kind (vsphere.RefID (vsphere.Parent m)) = inr err ->
  inventory.Path K (S hops) db m = Some (inr err).
Proof.
  intros H Hk Hp Hb. unfold inventory.Path. cbn [inventory.walk]. cbv zeta.
  unfold inventory.getParent. rewrite Hp.
  destruct Hk as [<- | [<- | [<- | [<- | [<- | [<- | []]]]]]];
    kind_tests H; rewrite Hb; reflexivity.
Qed.

Lemma Path_error_witness :
  inventory.Path Scenario.kinds1 1 Scenario.db1 Scenario.orphan = Some (inr "not found").
Proof.
  apply (Path_error Scenario.kinds1 0 Scenario.db1 Scenario.orphan "Cluster");
    [apply (bool_decide_unpack _); vm_compute; reflexivity
    | right; right; left; reflexivity | reflexivity | reflexivity].
Defined.

Lemma walk_own_parent K db kind ref b :
  NoDup (treeKinds K) ->
  In kind (walkedKinds K) ->
  vsphere.Kind ref = kind ->
  db kind (vsphere.RefID ref) = inl b ->
  vsphere.Parent b = ref ->
  forall hops node parts,
    vsphere.Parent node = ref -> inventory.walk K hops db node parts = None.
Proof.
  intros H Hk Hr Hb Hbp. induction hops as [|hops IH]; intros node parts Hn; [reflexivity|].
  rewrite (walk_through K hops db node parts kind b H Hk); [now apply IH | | ];
    now rewrite Hn.
Qed.

(** X27. The walk does not end on a cycle: when the parent of an object
    is a folder, a cluster, a host, a network or a datastore that is its
    own parent, the path of the object is not found, however many hops
    are given. *)
Theorem Path_of_own_parent (K : inventory.Kinds) (db : inventory.DB) (m b : vsphere.Base)
  (kind : string) (hops : nat) :
  NoDup (treeKinds K) ->
  In kind (walkedKinds K) ->
  vsphere.Kind (vsphere.Parent m) = kind ->
  db kind (vsphere.RefID (vsphere.Parent m)) = inl b ->
  vsphere.Parent b = vsphere.Parent m ->
  inventory.Path K hops db m = None.
Proof.
  intros H Hk Hp Hb Hbp. unfold inventory.Path.
  now rewrite (walk_own_parent K db kind _ b H Hk Hp Hb Hbp hops m _ eq_refl).
Qed.

Lemma Path_of_own_parent_witness :
  inventory.Path Scenario.kinds1 1000 Scenario.db1 Scenario.folderLoop = None.
Proof.
  apply (Path_of_own_parent Scenario.kinds1 Scenario.db1 Scenario.folderLoop
           Scenario.folderLoop "Folder");
    [apply (bool_decide_unpack _); vm_compute; reflexivity
    | left; reflexivity | reflexivity | reflexivity | reflexivity].
Defined.

Example path_of_host :
  inventory.Path Scenario.kinds1 3 Scenario.db1 Scenario.host1
  = Some (inl "/lab/host/prod/esx1")
  /\ inventory.Path Scenario.kinds1 2 Scenario.db1 Scenario.host1 = None.
Proof. split; vm_compute; reflexivity. Qed.
(** ** The network of a host *)

Lemma find_first {A} (f : A -> bool) (l : list A) :
  match List.find f l with
  | Some x => f x = true
              /\ exists pre post, l = pre ++ x :: post /\ Forall (fun y => f y = false) pre
  | None => Forall (fun y => f y = false) l
  end.
Proof.
  induction l as [|a l IH]; cbn [List.find]; [constructor|].
  destruct (f a) eqn:Ea.
  - split; [exact Ea|]. exists [], l. split; [reflexivity | constructor].
  - destruct (List.find f l) as [x|].
    + destruct IH as (Hx & pre & post & -> & Hpre). split; [exact Hx|].
      exists (a :: pre), post. split; [reflexivity | now constructor].
    + now constructor.
Qed.

(** X28. The lookups of the network of a host return the first match: a
    switch by its key, a port group by its name and a physical NIC by its
    key.  What is found has the key, or name, asked for, and nothing
    before it in the list has; nothing is found only when nothing in the
    list has it. *)
Theorem HostNetwork_lookups (n : inventory.HostNetwork) (key : string) :
  match inventory.Switch n key with
  | Some s => inventory.SwKey s = key
              /\ exists pre post, inventory.Switches n = pre ++ s :: post
                                  /\ Forall (fun x => inventory.SwKey x <> key) pre
  | None => Forall (fun x => inventory.SwKey x <> key) (inventory.Switches n)
  end
  /\ match inventory.PortGroup_ n key with
     | Some g => inventory.PgName g = key
                 /\ exists pre post, inventory.PortGroups n = pre ++ g :: post
                                     /\ Forall (fun x => inventory.PgName x <> key) pre
     | None => Forall (fun x => inventory.PgName x <> key) (inventory.PortGroups n)
     end
  /\ match inventory.PNIC_ n key with
     | Some c => inventory.PnicKey c = key
                 /\ exists pre post, inventory.PNICs n = pre ++ c :: post
                                     /\ Forall (fun x => inventory.PnicKey x <> key) pre
     | None => Forall (fun x => inventory.PnicKey x <> key) (inventory.PNICs n)
     end.
Proof.
  assert (Hne : forall {A} (g : A -> string) (l : list A),
            Forall (fun y => String.eqb key (g y) = false) l ->
            Forall (fun x => g x <> key) l).
  { intros A g l. apply List.Forall_impl. intros a Ha E.
    rewrite E, String.eqb_refl in Ha. discriminate. }
  unfold inventory.Switch, inventory.PortGroup_, inventory.PNIC_.
  repeat split.
  - pose proof (find_first (fun o => String.eqb key (inventory.SwKey o))
                           (inventory.Switches n)) as H.
    destruct (List.find _ _) as [s|]; [|now apply Hne].
    destruct H as (Hs & pre & post & Hl & Hpre). apply String.eqb_eq in Hs.
    split; [now symmetry|]. exists pre, post. split; [exact Hl | now apply Hne].
  - pose proof (find_first (fun o => String.eqb key (inventory.PgName o))
                           (inventory.PortGroups n)) as H.
    destruct (List.find _ _) as [s|]; [|now apply Hne].
    destruct H as (Hs & pre & post & Hl & Hpre). apply String.eqb_eq in Hs.
    split; [now symmetry|]. exists pre, post. split; [exact Hl | now apply Hne].
  - pose proof (find_first (fun o => String.eqb key (inventory.PnicKey o))
                           (inventory.PNICs n)) as H.
    destruct (List.find _ _) as [s|]; [|now apply Hne].
    destruct H as (Hs & pre & post & Hl & Hpre). apply String.eqb_eq in Hs.
    split; [now symmetry|]. exists pre, post. split; [exact Hl | now apply Hne].
Qed.

Example switch_of_key :
  option_map inventory.SwName
             (inventory.Switch Scenario.network1 "key-vim.host.VirtualSwitch-vSwitch0")
  = Some "vSwitch0"
  /\ inventory.PortGroup_ Scenario.network1 "key-vim.host.PortGroup-VM Network" = None.
Proof. split; reflexivity. Qed.
